(** * SystemMonitor-Optimizer: rule evaluation and alert dispatch

    A shallow embedding of [main/rules.py] (class [RulesEngine]) and of
    [main/actions.py] (class [Actions]), and the properties of the
    specification checked against it.

    Layout:
    - [Py]: the Python values and builtins the two classes rely on
      ([str.split], [in], [float], [round], comparisons, slicing);
    - [Rules]: [_get_nested_value], [evaluate], [extract_value], [check];
    - [Actions]: the world the dispatcher acts on (history file, trace of
      emissions), [_save_to_history], [_send_email], the handlers,
      [execute], [get_alert_history];
    - [Spec]: the vocabulary of the specification (resolving a path, the
      stored history, kinds of emission) and the data of its examples;
    - the properties, in the order builtins, rule engine, dispatcher. *)

From Stdlib Require Import ZArith String Ascii List SpecFloat Lia.
From stdpp Require Import base option list gmap strings.

Set Warnings "-register-all".

(** ** Python values and builtins *)

Module Py.

(** The exceptions that the modelled code can raise. *)
Inductive exn :=
| ValueError
| TypeError
| KeyError (key : string)
| IndexError
| AttributeError
| JSONDecodeError
| OSError.

(** Outcome of evaluating a Python expression: a value or a raised
    exception. *)
Inductive result (A : Type) :=
| Ok (a : A)
| Raise (e : exn).
Arguments Ok {A} a.
Arguments Raise {A} e.

#[global] Instance result_ret : MRet result := @Ok.
#[global] Instance result_bind : MBind result := fun A B k r =>
  match r with
  | Ok a => k a
  | Raise e => Raise e
  end.

(** A Python [float] is an IEEE 754 binary64 number. *)
Definition prec : Z := 53.
Definition emax : Z := 1024.
Abbreviation float := spec_float.

(** JSON-shaped Python values: what [json.load] and the metric source
    produce. Dictionaries are keyed by strings. *)
Inductive pyval :=
| VNone
| VBool (b : bool)
| VInt (z : Z)
| VFloat (f : float)
| VStr (s : string)
| VList (l : list pyval)
| VDict (d : gmap string pyval).

Definition is_None (v : pyval) : bool :=
  match v with VNone => true | _ => false end.

(** [isinstance(v, float)]. *)
Definition is_float (v : pyval) : bool :=
  match v with VFloat _ => true | _ => false end.

(** [isinstance(v, (int, float))]; [bool] is a subclass of [int]. *)
Definition is_numeric (v : pyval) : bool :=
  match v with VBool _ | VInt _ | VFloat _ => true | _ => false end.

(** Truth value of an object, as [if v:] and [not v] test it. *)
Definition truthy (v : pyval) : bool :=
  match v with
  | VNone => false
  | VBool b => b
  | VInt z => negb (z =? 0)%Z
  | VFloat (S754_zero _) => false
  | VFloat _ => true
  | VStr s => negb (String.eqb s "")
  | VList l => match l with [] => false | _ => true end
  | VDict d => negb (bool_decide (d = ∅))
  end.

(** [v == s] for a string literal [s]. *)
Definition eq_str (v : pyval) (s : string) : bool :=
  match v with VStr s' => String.eqb s' s | _ => false end.

(** *** Strings

    A character stands for a code point below 256. *)

(** [str.isspace] on one character: U+0009..U+000D, U+001C..U+0020,
    U+0085 and U+00A0. *)
Definition is_space (c : ascii) : bool :=
  let n := nat_of_ascii c in
  ((9 <=? n) && (n <=? 13)) || ((28 <=? n) && (n <=? 32))
  || (n =? 133) || (n =? 160).

Definition flush (word : string) : list string :=
  match word with EmptyString => [] | _ => [word] end.

Definition snoc (word : string) (c : ascii) : string :=
  (word ++ String c EmptyString)%string.

(** [s.split()]: the maximal runs of non-whitespace characters, in order.
    [word] is the run being read. *)
Fixpoint split_go (word : string) (s : string) : list string :=
  match s with
  | EmptyString => flush word
  | String c s' =>
      if is_space c then flush word ++ split_go EmptyString s'
      else split_go (snoc word c) s'
  end.

Definition split (s : string) : list string := split_go EmptyString s.

(** [s.split(sep)] for a one-character separator: never empty, empty
    fields are kept. *)
Fixpoint split_on_go (sep : ascii) (word : string) (s : string) : list string :=
  match s with
  | EmptyString => [word]
  | String c s' =>
      if Ascii.eqb c sep then word :: split_on_go sep EmptyString s'
      else split_on_go sep (snoc word c) s'
  end.

Definition split_on (sep : ascii) (s : string) : list string :=
  split_on_go sep EmptyString s.

(** [needle in hay] on two strings: substring test, case-sensitive. *)
Fixpoint is_substring (needle hay : string) : bool :=
  String.prefix needle hay ||
  match hay with
  | EmptyString => false
  | String _ hay' => is_substring needle hay'
  end.

(** [needle in v] for a string literal [needle]: substring of a string,
    element of a list, key of a dictionary; other types are not
    containers. *)
Definition contains (needle : string) (v : pyval) : result bool :=
  match v with
  | VStr s => Ok (is_substring needle s)
  | VList l => Ok (existsb (fun x => eq_str x needle) l)
  | VDict d => Ok (bool_decide (is_Some (d !! needle)))
  | _ => Raise TypeError
  end.

(** [l[start:]]: a negative start counts from the end, and the bounds are
    clipped to the list. *)
Definition slice_from {A} (start : Z) (l : list A) : list A :=
  let n := Z.of_nat (length l) in
  let start := if (start <? 0)%Z then Z.max (start + n) 0 else Z.min start n in
  drop (Z.to_nat start) l.

(** *** Floats *)

Section Floats.
Local Open Scope Z_scope.

(** The binary64 number nearest to [p/q], ties to even, carrying sign [s];
    overflow gives an infinity and underflow a subnormal or a zero. This is
    the rounding of [strtod], which [float] and [round] end with. *)
Definition of_ratio (s : bool) (p q : positive) : float :=
  let '(mz, ez, lz) := SFdiv_core_binary prec emax (Zpos p) 0 (Zpos q) 0 in
  binary_round_aux prec emax s mz ez lz.

(** The binary64 number nearest to [m * 10^e], for a natural [m]. *)
Definition of_decimal (s : bool) (m : Z) (e : Z) : float :=
  match m with
  | Zpos p =>
      if 0 <=? e then of_ratio s (p * Z.to_pos (10 ^ e)) 1
      else of_ratio s p (Z.to_pos (10 ^ (- e)))
  | _ => S754_zero s
  end.

Definition of_Z (z : Z) : float :=
  of_decimal (z <? 0) (Z.abs z) 0.

(** Order of an integer and a float, without converting the integer (the
    way [int] and [float] compare); [None] when the float is a NaN. *)
Definition Zcompare (z : Z) (y : float) : option comparison :=
  match y with
  | S754_nan => None
  | S754_infinity s => Some (if s then Gt else Lt)
  | S754_zero _ => Some (z ?= 0)
  | S754_finite s m e =>
      let v := cond_Zopp s (Zpos m) in
      Some (if 0 <=? e then z ?= v * 2 ^ e else z * 2 ^ (- e) ?= v)
  end.

(** Order of a number and a float: [None] when [x] is not a number,
    [Some None] when the two are unordered. *)
Definition num_compare (x : pyval) (y : float) : option (option comparison) :=
  match x with
  | VFloat f => Some (SFcompare f y)
  | VInt z => Some (Zcompare z y)
  | VBool b => Some (Zcompare (Z.b2z b) y)
  | _ => None
  end.

(** The six comparisons [x op y] against a float [y]. The ordering ones
    raise [TypeError] when [x] is not a number; equality of a non-number
    and a float is [False]. *)
Definition ordering (holds : option comparison → bool) (x : pyval) (y : float)
  : result bool :=
  match num_compare x y with
  | Some c => Ok (holds c)
  | None => Raise TypeError
  end.

Definition gt := ordering (fun c => match c with Some Gt => true | _ => false end).
Definition lt := ordering (fun c => match c with Some Lt => true | _ => false end).
Definition ge := ordering (fun c => match c with Some (Gt | Eq) => true | _ => false end).
Definition le := ordering (fun c => match c with Some (Lt | Eq) => true | _ => false end).

Definition eq (x : pyval) (y : float) : result bool :=
  match num_compare x y with
  | Some (Some Eq) => Ok true
  | _ => Ok false
  end.

Definition ne (x : pyval) (y : float) : result bool :=
  match num_compare x y with
  | Some (Some Eq) => Ok false
  | _ => Ok true
  end.

(** Nearest integer to [num/den], ties to even. *)
Definition div_half_even (num den : Z) : Z :=
  let q := num / den in
  match 2 * (num mod den) ?= den with
  | Lt => q
  | Gt => q + 1
  | Eq => if Z.even q then q else q + 1
  end.

(** [round(x, ndigits)] for a float and [0 <= ndigits]: the exact value of
    [x] is rounded to [ndigits] decimals (ties to even) and the decimal is
    converted back; infinities, NaN, and every [x] when [ndigits] exceeds
    323, round to themselves. *)
Definition round (x : float) (ndigits : Z) : float :=
  match x with
  | S754_finite s m e =>
      if (323 <? ndigits) || (0 <=? e) then x
      else of_decimal s (div_half_even (Zpos m * 10 ^ ndigits) (2 ^ (- e)))
                      (- ndigits)
  | _ => x
  end.

End Floats.

(** *** [float(s)] on a string *)

Section FloatOfString.
Local Open Scope Z_scope.

Definition is_digit (c : ascii) : bool :=
  let n := nat_of_ascii c in ((48 <=? n) && (n <=? 57))%nat.

Definition digit (c : ascii) : Z := Z.of_nat (nat_of_ascii c) - 48.

Definition lower (c : ascii) : ascii :=
  let n := nat_of_ascii c in
  if ((65 <=? n) && (n <=? 90))%nat then ascii_of_nat (n + 32) else c.

Fixpoint lowercase (s : string) : string :=
  match s with
  | EmptyString => EmptyString
  | String c s' => String (lower c) (lowercase s')
  end.

(** The blanks [float] skips around its argument: U+0009..U+000D, the
    space, U+0085 and U+00A0. *)
Definition is_blank (c : ascii) : bool :=
  let n := nat_of_ascii c in
  (((9 <=? n) && (n <=? 13)) || (n =? 32) || (n =? 133) || (n =? 160))%nat.

Fixpoint lstrip (s : string) : string :=
  match s with
  | EmptyString => EmptyString
  | String c s' => if is_blank c then lstrip s' else s
  end.

Definition strip (s : string) : string :=
  String.rev (lstrip (String.rev (lstrip s))).

(** Digit grouping: an underscore is accepted only between two digits.
    Returns the text without its underscores; [prev] is the character
    before [s]. *)
Fixpoint drop_underscores (prev : ascii) (s : string) : option string :=
  match s with
  | EmptyString => if Ascii.eqb prev "_" then None else Some EmptyString
  | String c s' =>
      if Ascii.eqb c "_" then
        if is_digit prev then drop_underscores c s' else None
      else if Ascii.eqb prev "_" && negb (is_digit c) then None
      else String c <$> drop_underscores c s'
  end.

Definition take_sign (s : string) : bool * string :=
  match s with
  | String "-" s' => (true, s')
  | String "+" s' => (false, s')
  | _ => (false, s)
  end.

(** Reads a run of decimal digits: its value appended to [acc], the
    number of digits read added to [n], and the rest of the text. *)
Fixpoint digits (acc n : Z) (s : string) : Z * Z * string :=
  match s with
  | String c s' =>
      if is_digit c then digits (10 * acc + digit c) (n + 1) s' else (acc, n, s)
  | EmptyString => (acc, n, s)
  end.

(** An unsigned decimal literal: digits with an optional point and
    fraction (one digit at least), then an optional exponent [e] or [E]
    with its sign and one digit at least; nothing may follow. *)
Definition decimal (neg : bool) (s : string) : option float :=
  let '(m1, n1, s1) := digits 0 0 s in
  let '(m, n2, s2) :=
    match s1 with
    | String "." s' => digits m1 0 s'
    | _ => (m1, 0, s1)
    end in
  if n1 + n2 =? 0 then None
  else match s2 with
       | EmptyString => Some (of_decimal neg m (- n2))
       | String c s3 =>
           if Ascii.eqb (lower c) "e" then
             let '(eneg, s4) := take_sign s3 in
             let '(x, n3, s5) := digits 0 0 s4 in
             if (n3 =? 0) || negb (String.eqb s5 EmptyString) then None
             else Some (of_decimal neg m (cond_Zopp eneg x - n2))
           else None
       end.

(** [float(s)]: surrounding whitespace is dropped, then comes a sign and
    [inf], [infinity], [nan] in any case, or a decimal literal, which is
    rounded to the nearest binary64 number. Anything else raises
    [ValueError]. *)
Definition parse_float (s : string) : result float :=
  match drop_underscores "000"%char (strip s) with
  | None => Raise ValueError
  | Some s =>
      let '(neg, body) := take_sign s in
      let name := lowercase body in
      if String.eqb name "inf" || String.eqb name "infinity"
      then Ok (S754_infinity neg)
      else if String.eqb name "nan" then Ok S754_nan
      else match decimal neg body with
           | Some f => Ok f
           | None => Raise ValueError
           end
  end.

End FloatOfString.

End Py.

(** ** The rule engine ([main/rules.py]) *)

Module Rules.
Import Py.

(** One entry of [rules.json]: display name, condition text
    ["path op threshold"], severity. *)
Record rule := Rule {
  name : string;
  condition : string;
  severity : string;
}.

(** An alert is the dictionary [check] builds, with the keys ["name"],
    ["severity"] and ["current_value"]. *)
Abbreviation alert := (gmap string pyval).

Definition make_alert (name severity : string) (current_value : pyval) : alert :=
  {[ "name" := VStr name; "severity" := VStr severity;
     "current_value" := current_value ]}.

(** The loop of [_get_nested_value]: walks [value] down the keys, [None]
    as soon as the current value is not a dictionary holding the key. *)
Fixpoint get_nested_loop (value : pyval) (keys : list string) : pyval :=
  match keys with
  | [] => value
  | key :: keys' =>
      match value with
      | VDict d =>
          match d !! key with
          | Some v => get_nested_loop v keys'
          | None => VNone
          end
      | _ => VNone
      end
  end.

Definition _get_nested_value (data : pyval) (path : string) : pyval :=
  get_nested_loop data (split_on "." path).

(** The table of operators of [evaluate]. *)
Definition operators : gmap string (pyval → float → result bool) :=
  list_to_map
    [(">", gt); ("<", lt); (">=", ge); ("<=", le); ("==", eq); ("!=", ne)].

Definition evaluate (condition : string) (stats : pyval) : result bool :=
  match split condition with
  | [metric_path; operator; threshold] =>
      threshold ← parse_float threshold;
      let current_value := _get_nested_value stats metric_path in
      if is_None current_value then Ok false
      else match operators !! operator with
           | Some op_func => op_func current_value threshold
           | None => Ok false
           end
  | _ => Ok false
  end.

Definition extract_value (condition : string) (stats : pyval) : result pyval :=
  match split condition with
  | [] => Raise IndexError
  | metric_path :: _ =>
      let value := _get_nested_value stats metric_path in
      match value with
      | VFloat f => Ok (VFloat (round f 2))
      | _ => Ok value
      end
  end.

(** The loop of [check] over [self.rules.items()], in the order of the
    rule file; [triggered] is the list built so far. *)
Fixpoint check_loop (items : list (string * rule)) (stats : pyval)
    (triggered : list alert) : result (list alert) :=
  match items with
  | [] => Ok triggered
  | (rule_name, rule) :: items' =>
      hit ← evaluate (condition rule) stats;
      if hit : bool then
        current_value ← extract_value (condition rule) stats;
        check_loop items' stats
          (triggered ++ [make_alert (name rule) (severity rule) current_value])
      else check_loop items' stats triggered
  end.

Definition check (rules : list (string * rule)) (stats : pyval)
  : result (list alert) :=
  check_loop rules stats [].

End Rules.

(** ** The action dispatcher ([main/actions.py]) *)

Module Actions.
Import Py.

Inductive level := CRITICAL | WARNING | INFO.

(** What the dispatcher emits, in the order it emits it. Formatted text
    is kept as the template and the values put into it. *)
Inductive event :=
| Print (text : string) (args : list pyval)
| Log (lvl : level) (name value : pyval)
| Smtp (command : string) (args : list pyval)
| System (command : string) (args : list pyval).

(** Content of the history file, as [json.load] finds it: text that it
    rejects with [JSONDecodeError], or the JSON array this program writes.
    Both can be opened and read. A file that exists but cannot be opened
    or decoded, and JSON that is not an array, are not among the states
    of this model: there [_save_to_history] lets the exception of the
    read, or of [history.append], escape. *)
Inductive file :=
| Corrupt
| Json (history : list pyval).

(** The surroundings of one [Actions] object: the file that
    [config['alert_history']] names (absent when [None]), whether it can
    be opened for writing, the clock, the platform, whether the mail relay
    answers, and the emissions so far. *)
Record world := World {
  history_file : option file;
  writable : bool;
  now : string;
  os_name : string;
  sysname : option string;
  smtp_up : bool;
  trace : list event;
}.

Definition set_history_file (f : option file) (w : world) : world :=
  World f (writable w) (now w) (os_name w) (sysname w) (smtp_up w) (trace w).

Definition set_now (t : string) (w : world) : world :=
  World (history_file w) (writable w) t (os_name w) (sysname w) (smtp_up w)
        (trace w).

Definition add_event (e : event) (w : world) : world :=
  World (history_file w) (writable w) (now w) (os_name w) (sysname w)
        (smtp_up w) (trace w ++ [e]).

(** A method body: it runs in a world, ends with a value or an
    exception, and leaves a world behind in both cases. *)
Definition act (A : Type) : Type := world → result A * world.

#[global] Instance act_ret : MRet act := fun A a w => (Ok a, w).
#[global] Instance act_bind : MBind act := fun A B k m w =>
  match m w with
  | (Ok a, w') => k a w'
  | (Raise e, w') => (Raise e, w')
  end.

Definition lift {A} (r : result A) : act A := fun w => (r, w).

Definition emit (e : event) : act () := fun w => (Ok (), add_event e w).

(** [try: body except <caught>: handler]. *)
Definition try_except {A} (body : act A) (caught : exn → bool)
    (handler : act A) : act A := fun w =>
  match body w with
  | (Raise e, w') => if caught e then handler w' else (Raise e, w')
  | r => r
  end.

Definition any_exception (e : exn) : bool := true.

Definition print (text : string) (args : list pyval) : act () :=
  emit (Print text args).

(** [d[key]] on a dictionary. *)
Definition item (d : gmap string pyval) (key : string) : act pyval :=
  lift (match d !! key with Some v => Ok v | None => Raise (KeyError key) end).

(** [v.get(key, dflt)]: only dictionaries have the method. *)
Definition get (v : pyval) (key : string) (dflt : pyval) : act pyval :=
  lift (match v with
        | VDict d => Ok (default dflt (d !! key))
        | _ => Raise AttributeError
        end).

(** [datetime.now()], formatted. *)
Definition clock : act pyval := fun w => (Ok (VStr (now w)), w).

(** [os.name == s]. *)
Definition os_name_is (s : string) : act bool := fun w =>
  (Ok (String.eqb (os_name w) s), w).

(** [os.uname().sysname]; [os] has no [uname] on some platforms. *)
Definition uname_sysname : act string := fun w =>
  match sysname w with
  | Some s => (Ok s, w)
  | None => (Raise AttributeError, w)
  end.

(** [logging.<lvl>(f"{alert['name']} - Value: {alert['current_value']}")]. *)
Definition logging (lvl : level) (alert : gmap string pyval) : act () :=
  name ← item alert "name";
  value ← item alert "current_value";
  emit (Log lvl name value).

Section Methods.

(** [self.config], loaded once by [__init__]. *)
Variable config : gmap string pyval.

(** One step of the SMTP session of [_send_email]: it goes over the
    network, and fails when the relay does not answer. *)
Definition smtp (command : string) (args : list pyval) : act () := fun w =>
  let w' := add_event (Smtp command args) w in
  if smtp_up w then (Ok (), w') else (Raise OSError, w').

Definition _send_email (alert : gmap string pyval) : act () :=
  let email_config := default (VDict ∅) (config !! "email") in
  enabled ← get email_config "enabled" (VBool false);
  if negb (truthy enabled) then mret ()
  else
    try_except
      (let email_config :=
         match email_config with VDict d => d | _ => ∅ end in
       sender ← item email_config "sender_email";
       recipient ← item email_config "recipient_email";
       subject ← item alert "name";
       name ← item alert "name";
       severity ← item alert "severity";
       value ← item alert "current_value";
       stamp ← clock;
       server ← item email_config "smtp_server";
       port ← item email_config "smtp_port";
       smtp "SMTP" [server; port];;
       smtp "starttls" [];;
       login ← item email_config "sender_email";
       password ← item email_config "sender_password";
       smtp "login" [login; password];;
       smtp "send_message"
            [sender; recipient; subject; name; severity; value; stamp];;
       smtp "quit" [];;
       print "   Email notification sent" [])
      any_exception
      (print "   Failed to send email: {}" []).

(** [json.load] of the history file, once it is known to exist and for
    the contents above: an array is returned, other text is rejected. *)
Definition json_load : act (list pyval) := fun w =>
  match history_file w with
  | Some (Json history) => (Ok history, w)
  | _ => (Raise JSONDecodeError, w)
  end.

(** [open(history_file, 'w')] and [json.dump]: replaces the content, or
    fails and leaves the file as it was. *)
Definition json_dump (history : list pyval) : act () := fun w =>
  if writable w then (Ok (), set_history_file (Some (Json history)) w)
  else (Raise OSError, w).

Definition is_JSONDecodeError (e : exn) : bool :=
  match e with JSONDecodeError => true | _ => false end.

Definition exists_history_file : act bool := fun w =>
  (Ok (bool_decide (is_Some (history_file w))), w).

(** The first step of [_save_to_history]: the existing history, or the
    empty list when the file is absent or is not JSON. *)
Definition load_history : act (list pyval) :=
  present ← exists_history_file;
  if present : bool
  then try_except json_load is_JSONDecodeError (mret [])
  else mret [].

(** [_save_to_history]; [history_file] is the one file of the world,
    whatever name [config] gives it. *)
Definition _save_to_history (alert : gmap string pyval) : act () :=
  history ← load_history;
  stamp ← clock;
  name ← item alert "name";
  severity ← item alert "severity";
  value ← item alert "current_value";
  let alert_record :=
    VDict {[ "timestamp" := stamp; "name" := name; "severity" := severity;
             "current_value" := value ]} in
  let history := history ++ [alert_record] in
  let history :=
    if (1000 <? length history)%nat then slice_from (-1000) history
    else history in
  try_except (json_dump history) any_exception
             (print "   Failed to save alert history: {}" []).

Definition _system_notification (alert : gmap string pyval) : act () :=
  try_except
    (posix ← os_name_is "posix";
     if posix : bool then
       name ← item alert "name";
       value ← item alert "current_value";
       emit (System "notify-send" [name; value])
     else
       nt ← os_name_is "nt";
       if nt : bool then
         print "   System notification (Windows implementation needed)" []
       else
         sys ← uname_sysname;
         if String.eqb sys "Darwin" then
           name ← item alert "name";
           value ← item alert "current_value";
           emit (System "osascript" [name; value])
         else mret ())
    any_exception
    (print "   System notification failed: {}" []).

Definition _handle_critical (alert : gmap string pyval) : act () :=
  name ← item alert "name";
  print "CRITICAL ALERT: {}" [name];;
  value ← item alert "current_value";
  print "   Current Value: {}" [value];;
  logging CRITICAL alert;;
  _send_email alert;;
  _save_to_history alert;;
  _system_notification alert.

Definition _handle_warning (alert : gmap string pyval) : act () :=
  name ← item alert "name";
  print "WARNING: {}" [name];;
  value ← item alert "current_value";
  print "   Current Value: {}" [value];;
  logging WARNING alert;;
  _save_to_history alert.

Definition _handle_info (alert : gmap string pyval) : act () :=
  name ← item alert "name";
  print "INFO: {}" [name];;
  value ← item alert "current_value";
  print "   Current Value: {}" [value];;
  logging INFO alert.

Definition _handle_cpu_alert (alert : gmap string pyval) : act () :=
  print "   CPU-specific action: Checking top processes..." [].

Definition _handle_memory_alert (alert : gmap string pyval) : act () :=
  print "   Memory-specific action: Clearing cache recommended..." [].

Definition _handle_disk_alert (alert : gmap string pyval) : act () :=
  print "   Disk-specific action: Check for large files..." [].

(** The first [if]/[elif] chain of [execute], on the severity. *)
Definition severity_branch (alert : gmap string pyval) : act () :=
  let severity := default (VStr "info") (alert !! "severity") in
  if eq_str severity "critical" then _handle_critical alert
  else if eq_str severity "warning" then _handle_warning alert
  else if eq_str severity "info" then _handle_info alert
  else mret ().

(** The second [if]/[elif] chain of [execute], on the name. *)
Definition topic_branch (alert : gmap string pyval) : act () :=
  let name := default (VStr "Unknown Alert") (alert !! "name") in
  is_cpu ← lift (contains "CPU" name);
  if is_cpu : bool then _handle_cpu_alert alert
  else
    is_memory ← lift (contains "Memory" name);
    is_memory ← (if is_memory : bool then mret true
                 else lift (contains "RAM" name));
    if is_memory : bool then _handle_memory_alert alert
    else
      is_disk ← lift (contains "Disk" name);
      if is_disk : bool then _handle_disk_alert alert
      else mret ().

Definition execute (alert : gmap string pyval) : act () :=
  severity_branch alert;;
  topic_branch alert.

Definition get_alert_history (limit : Z) : act (list pyval) :=
  present ← exists_history_file;
  if negb present then mret []
  else
    try_except
      (history ← json_load;
       mret (if negb (limit =? 0)%Z then slice_from (- limit) history
             else history))
      any_exception
      (print "Error reading history: {}" [];; mret []).

End Methods.

End Actions.

(** ** Vocabulary of the specification *)

Module Spec.
Import Py Rules Actions.

(** "Resolve [metric_path] by walking the snapshot mapping key by key":
    [resolves data keys v] when every key is found in turn and the walk
    ends on [v]. *)
Inductive resolves : pyval → list string → pyval → Prop :=
| resolves_here v : resolves v [] v
| resolves_step d key v keys r :
    d !! key = Some v → resolves v keys r →
    resolves (VDict d) (key :: keys) r.

(** The six operators the specification lists. *)
Definition supported : list string := [">"; "<"; ">="; "<="; "=="; "!="].

(** The operators that order their operands. *)
Definition ordering_operators : list string := [">"; "<"; ">="; "<="].

(** The value an alert displays: floats with two decimals. *)
Definition display (v : pyval) : pyval :=
  match v with VFloat f => VFloat (round f 2) | _ => v end.

(** The metric path of a condition: its first token. *)
Definition metric_path (condition : string) : string :=
  hd EmptyString (split condition).

(** A rule is triggered when its condition evaluates to [True]. *)
Definition triggered (stats : pyval) (r : rule) : bool :=
  match evaluate (condition r) stats with Ok true => true | _ => false end.

(** The alert of a triggered rule. *)
Definition alert_of (stats : pyval) (r : rule) : alert :=
  make_alert (name r) (severity r)
    (display (_get_nested_value stats (metric_path (condition r)))).

(** The last [n] elements of a list, in their order. *)
Definition last_n {A} (n : nat) (l : list A) : list A :=
  drop (length l - n) l.

(** The exact value of a float. Every binary64 number is a whole number
    of steps of [2^-1074], the smallest positive one: the value of [x] is
    [steps x / 2^1074]. *)
Definition steps (x : float) : Z :=
  match x with
  | S754_finite s m e => cond_Zopp s (Zpos m * 2 ^ (e + 1074))
  | _ => 0%Z
  end.

Definition is_finite (x : float) : bool :=
  match x with S754_zero _ | S754_finite _ _ _ => true | _ => false end.

(** The finite binary64 numbers: the zeros and the numbers [m * 2^e] in
    canonical form (53 bits, or fewer at the least exponent). *)
Definition binary64 (x : float) : Prop :=
  is_finite x = true ∧ valid_binary prec emax x = true.

Definition sign (x : float) : option bool :=
  match x with
  | S754_zero s | S754_infinity s | S754_finite s _ _ => Some s
  | S754_nan => None
  end.

(** [r] is a binary64 number nearest to the fraction [a / b], for
    [0 < b]: no binary64 number [y] is nearer to it. The distances
    [|r - a/b|] and [|y - a/b|] are compared after multiplication by
    [b * 2^1074], which makes them integers. *)
Definition nearest (a b : Z) (r : float) : Prop :=
  binary64 r
  ∧ ∀ y, binary64 y →
      (Z.abs (steps r * b - a * 2 ^ 1074)
       ≤ Z.abs (steps y * b - a * 2 ^ 1074))%Z.

(** "Rounded to [ndigits] decimal places", for a finite [x]: some decimal
    [n / 10^ndigits] is within half a unit of its last place of [x], and
    [r] is a binary64 number nearest to that decimal, with the sign of
    [x]. Infinities and NaN stay as they are. *)
Definition rounded_to (ndigits : Z) (x r : float) : Prop :=
  if is_finite x then
    sign r = sign x
    ∧ ∃ n : Z,
        (2 * Z.abs (steps x * 10 ^ ndigits - n * 2 ^ 1074) ≤ 2 ^ 1074)%Z
        ∧ nearest n (10 ^ ndigits) r
  else r = x.

(** 97.5 and 95.0 as binary64 numbers: 97.5 = 6860952557322240 / 2^46 and
    95 = 6685030696878080 / 2^46. *)
Definition f97_5 : float := S754_finite false 6860952557322240 (-46).
Definition f95 : float := S754_finite false 6685030696878080 (-46).

(** The snapshot [{"cpu": {"usage": 97.5}}]. *)
Definition cpu_snapshot : pyval :=
  VDict {[ "cpu" := VDict {[ "usage" := VFloat f97_5 ]} ]}.

(** A snapshot with a list and a string among its leaves, as the metric
    source produces them:
    [{"cpu": {"usage": 97.5, "per_core": [97.5]}, "temp": {"status": "none"}}]. *)
Definition mixed_snapshot : pyval :=
  VDict {[ "cpu" := VDict {[ "usage" := VFloat f97_5;
                             "per_core" := VList [VFloat f97_5] ]};
           "temp" := VDict {[ "status" := VStr "none" ]} ]}.

(** 85.456 and 85.46 as binary64 numbers, and a snapshot with a float
    that has more than two decimals and an integer:
    [{"cpu": {"usage": 85.456, "count": 8}}]. *)
Definition f85_456 : float := S754_finite false 6013431402446455 (-46).
Definition f85_46 : float := S754_finite false 6013712877423165 (-46).

Definition usage_snapshot : pyval :=
  VDict {[ "cpu" := VDict {[ "usage" := VFloat f85_456;
                             "count" := VInt 8 ]} ]}.

(** The history a world stores: the array in the history file, empty
    when the file is absent or unreadable. *)
Definition stored (w : world) : list pyval :=
  match history_file w with Some (Json history) => history | _ => [] end.

(** The record that [_save_to_history] appends for an alert at a given
    time; it needs the three keys of the alert. *)
Definition history_record (stamp : string) (alert : gmap string pyval)
  : option pyval :=
  name ← alert !! "name";
  severity ← alert !! "severity";
  value ← alert !! "current_value";
  Some (VDict {[ "timestamp" := VStr stamp; "name" := name;
                 "severity" := severity; "current_value" := value ]}).

(** Appending alerts one at a time, each at its own time. *)
Fixpoint save_all (entries : list (string * gmap string pyval)) : act () :=
  match entries with
  | [] => mret ()
  | (stamp, alert) :: entries' =>
      (fun w => (Ok (), set_now stamp w));;
      _save_to_history alert;;
      save_all entries'
  end.

(** Email delivery is disabled: the configuration has no ["email"] entry,
    or one whose ["enabled"] is absent or false. *)
Definition email_disabled (config : gmap string pyval) : Prop :=
  ∃ d, default (VDict ∅) (config !! "email") = VDict d
       ∧ truthy (default (VBool false) (d !! "enabled")) = false.

(** Kinds of emission. *)
Definition is_network (e : event) : Prop :=
  match e with Smtp _ _ => True | _ => False end.

Definition is_local (e : event) : Prop := ¬ is_network e.

Definition is_print (e : event) : Prop :=
  match e with Print _ _ => True | _ => False end.

Definition info_emission (e : event) : Prop :=
  match e with Print _ _ | Log INFO _ _ => True | _ => False end.

(** The single line each topic hook prints. *)
Definition cpu_hook : event :=
  Print "   CPU-specific action: Checking top processes..." [].
Definition memory_hook : event :=
  Print "   Memory-specific action: Clearing cache recommended..." [].
Definition disk_hook : event :=
  Print "   Disk-specific action: Check for large files..." [].

(** [w'] continues the trace of [w] with emissions that all satisfy [P]. *)
Definition emits (P : event → Prop) (w w' : world) : Prop :=
  ∃ new, trace w' = trace w ++ new ∧ Forall P new.

(** [w'] has the history file of [w]. *)
Definition same_history (w w' : world) : Prop :=
  history_file w' = history_file w.

(** A method body keeps a relation between the world it starts in and the
    world it leaves, however it ends. *)
Definition preserves {A} (R : world → world → Prop) (m : act A) : Prop :=
  ∀ w, R w (m w).2.

(** Alerts used as examples. *)
Definition two_topics_alert : gmap string pyval :=
  {[ "name" := VStr "CPU and Disk pressure"; "severity" := VStr "info";
     "current_value" := VInt 1 ]}.

Definition bare_alert : gmap string pyval :=
  {[ "name" := VStr "CPU load" ]}.

Definition critical_alert : gmap string pyval :=
  {[ "name" := VStr "Critical CPU Usage"; "severity" := VStr "critical";
     "current_value" := VFloat f97_5 ]}.

Definition info_alert : gmap string pyval :=
  {[ "name" := VStr "Low CPU Frequency"; "severity" := VStr "info";
     "current_value" := VInt 800 ]}.

(** A history record, field by field. *)
Definition record_at (stamp : string) (name severity value : pyval) : pyval :=
  VDict {[ "timestamp" := VStr stamp; "name" := name;
           "severity" := severity; "current_value" := value ]}.

(** Three alerts with their times, and the records they leave. *)
Definition three_entries : list (string * gmap string pyval) :=
  [("2024-01-01T00:00:05", critical_alert);
   ("2024-01-01T00:00:10", info_alert);
   ("2024-01-01T00:00:15", critical_alert)].

Definition three_records : list pyval :=
  [record_at "2024-01-01T00:00:05" (VStr "Critical CPU Usage")
             (VStr "critical") (VFloat f97_5);
   record_at "2024-01-01T00:00:10" (VStr "Low CPU Frequency")
             (VStr "info") (VInt 800);
   record_at "2024-01-01T00:00:15" (VStr "Critical CPU Usage")
             (VStr "critical") (VFloat f97_5)].

(** A Linux host with an empty trace, no history file yet, a writable
    directory and a reachable relay. *)
Definition fresh_world : world :=
  World None true "2024-01-01T00:00:00" "posix" (Some "Linux") true [].

(** The rules ["cpu_high"] and ["cpu_critical"] of the default rule
    file. *)
Definition cpu_rules : list (string * rule) :=
  [("cpu_high", Rule "High CPU Usage" "cpu.usage > 80" "warning");
   ("cpu_critical", Rule "Critical CPU Usage" "cpu.usage > 95" "critical")].

End Spec.

(** ** What the constructors read from disk

    [load_rules] and [_create_default_rules] of [RulesEngine],
    [load_config] and [_create_default_config] of [Actions]. *)

Module Startup.
Import Py Rules Actions.

(** Content of a JSON file: text that [json.load] rejects, or a
    document. *)
Inductive json_text (A : Type) :=
| Invalid
| Valid (a : A).
Arguments Invalid {A}.
Arguments Valid {A} a.

(** One file as a constructor sees it: its content ([None] when the file
    does not exist), whether it can be created, and the lines printed. *)
Record disk (A : Type) := Disk {
  content : option (json_text A);
  creatable : bool;
  console : list event;
}.
Arguments Disk {A}.
Arguments content {A}.
Arguments creatable {A}.
Arguments console {A}.

Definition io (A X : Type) : Type := disk A → result X * disk A.

#[global] Instance io_ret A : MRet (io A) := fun X x d => (Ok x, d).
#[global] Instance io_bind A : MBind (io A) := fun X Y k m d =>
  match m d with
  | (Ok x, d') => k x d'
  | (Raise e, d') => (Raise e, d')
  end.

(** [os.path.exists(file)]. *)
Definition exists_file {A} : io A bool := fun d =>
  (Ok (bool_decide (is_Some (content d))), d).

(** [with open(file, 'w') as f: json.dump(doc, f, indent=4)]; it is only
    called on a file that does not exist. *)
Definition dump {A} (doc : A) : io A () := fun d =>
  if creatable d then (Ok (), Disk (Some (Valid doc)) (creatable d) (console d))
  else (Raise OSError, d).

(** [with open(file, 'r') as f: return json.load(f)]; opening a file that
    does not exist is the [FileNotFoundError] kind of [OSError]. *)
Definition load {A} : io A A := fun d =>
  match content d with
  | Some (Valid doc) => (Ok doc, d)
  | Some Invalid => (Raise JSONDecodeError, d)
  | None => (Raise OSError, d)
  end.

Definition say {A} (text : string) (args : list pyval) : io A () := fun d =>
  (Ok (), Disk (content d) (creatable d) (console d ++ [Print text args])).

(** [try: body except (json.JSONDecodeError, FileNotFoundError): handler];
    [load] raises [OSError] only for a file that does not exist. *)
Definition try_load {A X} (body handler : io A X) : io A X := fun d =>
  match body d with
  | (Raise JSONDecodeError, d') => handler d'
  | (Raise OSError, d') => handler d'
  | r => r
  end.

(** The seven rules of [_create_default_rules], in the order of the
    dictionary. *)
Definition default_rules : list (string * rule) :=
  [("cpu_high", Rule "High CPU Usage" "cpu.usage > 80" "warning");
   ("cpu_critical", Rule "Critical CPU Usage" "cpu.usage > 95" "critical");
   ("ram_high", Rule "High Memory Usage" "ram.percent > 85" "warning");
   ("ram_critical", Rule "Critical Memory Usage" "ram.percent > 95" "critical");
   ("disk_high", Rule "High Disk Usage" "disk.percent > 80" "warning");
   ("disk_critical", Rule "Critical Disk Usage" "disk.percent > 90" "critical");
   ("disk_free_low", Rule "Low Free Disk Space" "disk.free < 10" "warning")].

Definition _create_default_rules : io (list (string * rule)) () :=
  dump default_rules;;
  say "Created default rules file: {}" [VStr "rules.json"].

Definition load_rules : io (list (string * rule)) (list (string * rule)) :=
  present ← exists_file;
  (if present : bool then mret () else _create_default_rules);;
  try_load load (say "Error loading rules: {}" [];; mret []).

(** The dictionary of [_create_default_config]. *)
Definition default_config : gmap string pyval :=
  {[ "email" :=
       VDict {[ "enabled" := VBool false;
                "smtp_server" := VStr "smtp.gmail.com";
                "smtp_port" := VInt 587;
                "sender_email" := VStr "your-email@gmail.com";
                "sender_password" := VStr "your-app-password";
                "recipient_email" := VStr "admin@example.com" ]};
     "log_file" := VStr "system_alerts.log";
     "alert_history" := VStr "alert_history.json" ]}.

Definition _create_default_config : io pyval () :=
  dump (VDict default_config);;
  say "Created default config file: {}" [VStr "actions_config.json"].

(** [Actions.load_config]: the document of the file, whatever its shape,
    or the empty dictionary. *)
Definition load_config : io pyval pyval :=
  present ← exists_file;
  (if present : bool then mret () else _create_default_config);;
  try_load load (say "Error loading config: {}" [];; mret (VDict ∅)).

End Startup.

(** ** The orchestrator ([main/main.py]) *)

Module Main.
Import Py Rules Actions Startup.

(** A key of a dictionary has to be hashable. *)
Definition hashable (v : pyval) : bool :=
  match v with VList _ | VDict _ => false | _ => true end.

(** [{'critical': .., 'warning': .., 'info': ..}.get(v, ..)]: the icon is
    a function of [v], which the printed line keeps. *)
Definition severity_icon (v : pyval) : act pyval :=
  if hashable v then mret v else lift (Raise TypeError).

(** [v.upper()]: a method of strings only; the printed line keeps the
    string it is applied to. *)
Definition upper (v : pyval) : act pyval :=
  match v with
  | VStr _ => mret v
  | _ => lift (Raise AttributeError)
  end.

(** [record[key]] on a JSON value: only dictionaries take string keys. *)
Definition subscript (v : pyval) (key : string) : act pyval :=
  match v with
  | VDict d => item d key
  | _ => lift (Raise TypeError)
  end.

(** [for x in l: body(x)]. *)
Fixpoint for_each {A} (body : A → act ()) (l : list A) : act () :=
  match l with
  | [] => mret ()
  | x :: l' => body x;; for_each body l'
  end.

Section Components.

(** [rules.rules] and [actions.config], as [initialize] built them. *)
Variable rules : list (string * rule).
Variable config : gmap string pyval.

(** The body of the [for alert in alerts] loop of [monitor]. *)
Definition monitor_alert (alert : gmap string pyval) : act () :=
  severity ← item alert "severity";
  icon ← severity_icon severity;
  name ← item alert "name";
  value ← item alert "current_value";
  print "{icon} {}: {}" [icon; name; value];;
  execute config alert.

(** The body of the [while True] loop of [monitor], from the clock
    reading to the last print, on the snapshot [sys.get_stats()] gave;
    [verbose] and [show_healthy] are the two flags of the monitor
    configuration. The sleep that follows, and the interrupt that ends
    the loop, are outside the model. *)
Definition monitor_iteration (verbose show_healthy : pyval) (iteration : Z)
    (stats : pyval) : act () :=
  timestamp ← clock;
  alerts ← lift (check rules stats);
  match alerts with
  | _ :: _ =>
      print "[{}] Check #{}" [timestamp; VInt iteration];;
      print "------------------------------------------------------------" [];;
      for_each monitor_alert alerts;;
      print "------------------------------------------------------------" []
  | [] =>
      if truthy show_healthy && truthy verbose then
        if (iteration mod 10 =? 0)%Z then
          print "[{}] System healthy (check #{})" [timestamp; VInt iteration]
        else mret ()
      else mret ()
  end.

(** The body of the [for alert in alerts] loop of [run_once]. *)
Definition run_once_alert (alert : gmap string pyval) : act () :=
  severity ← item alert "severity";
  shout ← upper severity;
  name ← item alert "name";
  value ← item alert "current_value";
  print "[{upper}] {}: {}" [shout; name; value];;
  execute config alert.

(** [run_once]; [stats] is the snapshot it checks and [shown] the one
    that [sys.display()] reads afterwards. *)
Definition run_once (stats shown : pyval) : act () :=
  print "Running single check..." [];;
  alerts ← lift (check rules stats);
  match alerts with
  | _ :: _ =>
      print "Triggered Alerts:" [];;
      print "------------------------------------------------------------" [];;
      for_each run_once_alert alerts;;
      print "------------------------------------------------------------" []
  | [] => print "No alerts triggered - system is healthy!" []
  end;;
  print "Current System Stats:" [];;
  print "{pprint}" [shown].

End Components.

(** The body of the [for record in history] loop of [show_history]. *)
Definition show_record (record : pyval) : act () :=
  severity ← subscript record "severity";
  icon ← severity_icon severity;
  timestamp ← subscript record "timestamp";
  severity ← subscript record "severity";
  shout ← upper severity;
  name ← subscript record "name";
  value ← subscript record "current_value";
  print "{} {icon} [{upper}] {}: {}" [timestamp; icon; shout; name; value].

Definition show_history (limit : Z) : act () :=
  print "Recent Alert History (last {}):" [VInt limit];;
  history ← get_alert_history limit;
  match history with
  | [] => print "No alerts in history." []
  | _ => for_each show_record history
  end.

End Main.

(** ** Further vocabulary *)

Module Terms.
Import Py Rules Actions Spec.

(** The condition of a rule of the store evaluates: to true or to
    false, without raising. *)
Definition evaluates (stats : pyval) (ir : string * rule) : Prop :=
  ∃ b, evaluate (condition ir.2) stats = Ok b.

(** The pairs of rules of the default store that watch one metric at
    two thresholds: the positions of the lower and of the higher one. *)
Definition threshold_pairs : list (nat * nat) := [(0, 1); (2, 3); (4, 5)].

(** The severities whose alerts are written to the history. *)
Definition logged (severity : string) : bool :=
  String.eqb severity "critical" || String.eqb severity "warning".

(** The record an alert of [check] leaves in the history at time
    [stamp]. *)
Definition record_of (stamp : string) (stats : pyval) (r : rule) : pyval :=
  record_at stamp (VStr (name r)) (VStr (severity r))
    (display (_get_nested_value stats (metric_path (condition r)))).

(** The email settings are absent or a dictionary: [_send_email] can
    read them. *)
Definition email_readable (config : gmap string pyval) : Prop :=
  ∃ d, default (VDict ∅) (config !! "email") = VDict d.

(** [w'] has the history file, the write permission and the clock of
    [w]. *)
Definition quiet (w w' : world) : Prop :=
  history_file w' = history_file w ∧ writable w' = writable w
  ∧ now w' = now w.

(** The stored history of [w'] is within the bound of 1000 records, or
    no longer than that of [w]. *)
Definition within_bound (w w' : world) : Prop :=
  length (stored w') ≤ max 1000 (length (stored w)).

(** A configuration with email enabled and every setting present, one in
    which the email entry is a string, and a world whose relay does not
    answer, whose history file is not JSON and cannot be written. *)
Definition mailing_config : gmap string pyval :=
  {[ "email" := VDict {[ "enabled" := VBool true;
                         "smtp_server" := VStr "smtp.example.com";
                         "smtp_port" := VInt 587;
                         "sender_email" := VStr "monitor@example.com";
                         "sender_password" := VStr "secret";
                         "recipient_email" := VStr "admin@example.com" ]} ]}.

Definition broken_config : gmap string pyval :=
  {[ "email" := VStr "off" ]}.

Definition offline_world : world :=
  World None true "2024-01-01T00:00:00" "posix" (Some "Linux") false [].

Definition readonly_world : world :=
  World (Some Corrupt) false "2024-01-01T00:00:00" "nt" None true [].

Definition warning_alert : gmap string pyval :=
  {[ "name" := VStr "High Memory Usage"; "severity" := VStr "warning";
     "current_value" := VFloat f97_5 ]}.

(** The records one pass over the store leaves in the history: those of
    the rules that fire and whose severity is written, in the order of
    the store. *)
Definition logged_records (stamp : string) (stats : pyval)
    (rules : list (string * rule)) : list pyval :=
  map (record_of stamp stats)
      (List.filter (λ r, logged (severity r))
         (List.filter (triggered stats) (map snd rules))).

(** A history entry as this program writes it: time, name, severity and
    value; its record in the file, and the line [show_history] prints
    for it. *)
Definition entry : Type := string * string * string * pyval.

Definition entry_record (e : entry) : pyval :=
  let '(stamp, name, severity, value) := e in
  record_at stamp (VStr name) (VStr severity) value.

Definition entry_line (e : entry) : event :=
  let '(stamp, name, severity, value) := e in
  Print "{} {icon} [{upper}] {}: {}"
        [VStr stamp; VStr severity; VStr severity; VStr name; value].

(** The world after a run of emissions. *)
Definition add_events (es : list event) (w : world) : world :=
  fold_left (λ w e, add_event e w) es w.

(** A history of two entries. *)
Definition two_entries : list entry :=
  [("2024-01-01T00:00:05", "High CPU Usage", "warning", VFloat f97_5);
   ("2024-01-01T00:00:10", "Critical CPU Usage", "critical", VFloat f97_5)].

Definition history_world (history : list pyval) : world :=
  World (Some (Json history)) true "2024-01-01T00:01:00" "posix"
        (Some "Linux") true [].

(** A method body ends normally in every world. *)
Definition returns {A} (m : act A) : Prop := ∀ w, ∃ a, (m w).1 = Ok a.

(** Emissions that are console lines or records of the log at a given
    level. *)
Definition print_or_log (lvl : level) (e : event) : Prop :=
  match e with
  | Print _ _ => True
  | Log l _ _ => l = lvl
  | _ => False
  end.

(** The end of [binary_round_aux]: the rounded mantissa is brought back
    to 53 bits and the exponent is checked against the largest one. *)
Definition finish (s : bool) (m1 e1 : Z) : float :=
  let '(mrs, e) := shr_fexp prec emax m1 e1 loc_Exact in
  match shr_m mrs with
  | 0%Z => S754_zero s
  | Zpos m =>
      if (e <=? emax - prec)%Z then S754_finite s m e else S754_infinity s
  | Zneg _ => S754_nan
  end.

(** The record [mrs] holds the integer part of [a / b] and tells where
    the rest lies with respect to one half. *)
Definition located (mrs : shr_record) (a b : Z) : Prop :=
  (0 < b ∧ 0 ≤ shr_m mrs
   ∧ 0 ≤ a - shr_m mrs * b < b
   ∧ shr_r mrs = (b <=? 2 * (a - shr_m mrs * b))
   ∧ shr_s mrs = negb (a - shr_m mrs * b =? 0)
                 && negb (2 * (a - shr_m mrs * b) =? b))%Z.

End Terms.

(** ** Properties of the builtins *)

Section PyFacts.
Import Py.

Lemma bind_ok {A B} (a : A) (k : A → result B) : (Ok a ≫= k) = k a.
Proof. reflexivity. Qed.

Lemma bind_raise {A B} (e : exn) (k : A → result B) :
  (Raise e ≫= k) = Raise e.
Proof. reflexivity. Qed.

(** A number and a float always have an order (possibly "unordered"). *)
Lemma num_compare_numeric v t :
  is_numeric v = true → ∃ c, num_compare v t = Some c.
Proof. destruct v; simpl; intros H; try discriminate; eauto. Qed.

Lemma num_compare_other v t :
  is_numeric v = false → num_compare v t = None.
Proof. destruct v; simpl; intros H; try discriminate; reflexivity. Qed.

Lemma is_numeric_not_None v : is_numeric v = true → is_None v = false.
Proof. destruct v; simpl; congruence. Qed.

End PyFacts.

(** ** Rounding to the nearest binary64 number *)

(** [float] and [round] end with [of_ratio], which divides and rounds as
    [SFdiv] does. This section shows that it rounds to nearest: the
    division encloses the quotient between two neighbours of the grid of
    binary64 numbers, the rounding picks the nearer one, and no binary64
    number lies strictly between the two. *)

Section FloatFacts.
Import Py Spec Terms.
Local Open Scope Z_scope.

Lemma fexp_eq x : fexp prec emax x = Z.max (x - 53) (-1074).
Proof. reflexivity. Qed.

Lemma digits2_pos_size p : digits2_pos p = Pos.size p.
Proof. induction p; simpl; congruence. Qed.

Lemma Zdigits2_bounds p :
  2 ^ (Zdigits2 (Zpos p) - 1) ≤ Zpos p < 2 ^ Zdigits2 (Zpos p).
Proof.
  simpl. rewrite digits2_pos_size.
  pose proof (Pos.size_gt p) as Hgt. pose proof (Pos.size_le p) as Hle.
  apply Pos2Z.pos_lt_pos in Hgt. apply Pos2Z.pos_le_pos in Hle.
  rewrite Pos2Z.inj_pow in Hgt, Hle.
  replace (Z.pos (Pos.size p)) with (Z.pos (Pos.size p) - 1 + 1) in Hle at 1 by lia.
  rewrite Z.pow_add_r, Z.pow_1_r in Hle by lia.
  change (Z.pos 2) with 2 in *. lia.
Qed.

Ltac bool_cases :=
  repeat match goal with
    | |- context [Z.leb ?x ?y] => destruct (Z.leb_spec x y)
    | |- context [Z.eqb ?x ?y] => destruct (Z.eqb_spec x y)
    end.

(** One shift to the right halves the quotient and keeps it located. *)
Lemma shr_1_located mrs a b :
  located mrs a b → located (shr_1 mrs) a (2 * b).
Proof.
  destruct mrs as [m r s]. unfold located. simpl.
  intros (Hb & Hm & Hrho & -> & ->).
  destruct m as [| [p | p |] | p]; try lia; simpl;
    (split; [lia |]; split; [lia |]; split; [lia |]; split;
     bool_cases; simpl; lia).
Qed.

Lemma iter_pos_invariant {A} (f : A → A) (I : Z → A → Prop) :
  (∀ k x, I k x → I (k + 1) (f x)) →
  ∀ p k x, I k x → I (k + Zpos p) (SpecFloat.iter_pos f p x).
Proof.
  intros Hf. induction p as [p IH | p IH |]; intros k x Hx; simpl.
  - replace (k + Zpos p~1) with (k + 1 + Zpos p + Zpos p) by lia.
    apply IH, IH, Hf, Hx.
  - replace (k + Zpos p~0) with (k + Zpos p + Zpos p) by lia.
    apply IH, IH, Hx.
  - apply Hf, Hx.
Qed.

Lemma shr_located mrs e n a b :
  0 ≤ n → located mrs a b →
  located (shr mrs e n).1 a (b * 2 ^ n) ∧ (shr mrs e n).2 = e + n.
Proof.
  intros Hn Hl. destruct n as [| p | p]; simpl; [| | lia].
  - rewrite Z.mul_1_r, Z.add_0_r. auto.
  - split; [| reflexivity].
    pose proof (iter_pos_invariant shr_1
                  (λ k x, 0 ≤ k ∧ located x a (b * 2 ^ k))) as Hi.
    destruct (Hi ltac:(intros k x [Hk Hx]; split; [lia |];
                rewrite Z.pow_add_r, Z.pow_1_r by lia;
                replace (b * (2 ^ k * 2)) with (2 * (b * 2 ^ k)) by lia;
                apply shr_1_located, Hx) p 0 mrs) as [_ H].
    + split; [lia |]. rewrite Z.mul_1_r. exact Hl.
    + exact H.
Qed.

Lemma shr_m_of_loc m l : shr_m (shr_record_of_loc m l) = m.
Proof. destruct l as [| []]; reflexivity. Qed.

Lemma new_location_located q Q R a :
  0 < q → a = Q * q + R → 0 ≤ R < q → 0 ≤ Q →
  located (shr_record_of_loc Q (new_location q R)) a q.
Proof.
  intros Hq Ha HR HQ. unfold located. rewrite shr_m_of_loc.
  replace (a - Q * q) with R by lia.
  split; [exact Hq |]. split; [exact HQ |]. split; [exact HR |].
  unfold new_location, new_location_even, new_location_odd.
  destruct (Z.even q) eqn:He.
  - destruct (Z.eqb_spec R 0) as [-> | Hne]; simpl.
    + split; bool_cases; simpl; lia.
    + destruct (Z.compare_spec (2 * R) q); simpl; split; bool_cases; simpl; lia.
  - rewrite <- Z.negb_odd in He. apply Bool.negb_false_iff in He.
    apply Z.odd_spec in He as [k Hk].
    destruct (Z.eqb_spec R 0) as [-> | Hne]; simpl.
    + split; bool_cases; simpl; lia.
    + destruct (Z.compare_spec (2 * R + 1) q); simpl; split; bool_cases;
        simpl; lia.
Qed.

Lemma Zdigits2_spec m :
  0 < m → 0 < Zdigits2 m ∧ 2 ^ (Zdigits2 m - 1) ≤ m < 2 ^ Zdigits2 m.
Proof.
  destruct m as [| p | p]; try lia. intros _.
  split; [reflexivity | apply Zdigits2_bounds].
Qed.

Lemma pow2_pos n : 0 ≤ n → 0 < 2 ^ n.
Proof. intros. apply Z.pow_pos_nonneg; lia. Qed.

Lemma pow2_le a b : 0 ≤ a ≤ b → 2 ^ a ≤ 2 ^ b.
Proof. intros. apply Z.pow_le_mono_r; lia. Qed.

Lemma pow2_lt_inv a b : 0 ≤ b → 2 ^ a < 2 ^ b → a < b.
Proof. intros Hb H. apply (Z.pow_lt_mono_r_iff 2); [lia | lia | exact H]. Qed.

(** The division: the quotient of [p * 2^-ez] by [q] is located, and it
    has 53 bits at least unless the exponent is the least one. *)
Lemma div_core_spec p q mz ez lz :
  SFdiv_core_binary prec emax (Zpos p) 0 (Zpos q) 0 = (mz, ez, lz) →
  -1074 ≤ ez ≤ 0
  ∧ located (shr_record_of_loc mz lz) (Zpos p * 2 ^ (- ez)) (Zpos q)
  ∧ (ez = -1074 ∨ 2 ^ 52 ≤ mz).
Proof.
  unfold SFdiv_core_binary. rewrite fexp_eq.
  destruct (Zdigits2_spec (Zpos p) ltac:(lia)) as (Hd1 & Hp1 & Hp2).
  destruct (Zdigits2_spec (Zpos q) ltac:(lia)) as (Hd2 & Hq1 & Hq2).
  set (d1 := Zdigits2 (Zpos p)) in *. set (d2 := Zdigits2 (Zpos q)) in *.
  set (e := Z.min (Z.max (d1 + 0 - (d2 + 0) - 53) (-1074)) (0 - 0)).
  assert (He : -1074 ≤ e ≤ 0) by (unfold e; lia).
  assert (Hm : match 0 - 0 - e with
               | Zpos _ => Z.shiftl (Zpos p) (0 - 0 - e)
               | 0 => Zpos p
               | Zneg _ => 0
               end = Zpos p * 2 ^ (- e)).
  { destruct (0 - 0 - e) eqn:Hs; [| | lia].
    - replace (- e) with 0 by lia. lia.
    - rewrite Z.shiftl_mul_pow2 by lia. f_equal. f_equal. lia. }
  rewrite Hm.
  pose proof (Z_div_mod (Zpos p * 2 ^ (- e)) (Zpos q) ltac:(lia)) as Hdm.
  destruct (Z.div_eucl (Zpos p * 2 ^ (- e)) (Zpos q)) as [Q R].
  destruct Hdm as [Hdm HR].
  intros [= <- <- <-].
  pose proof (pow2_pos (- e) ltac:(lia)) as Hpe.
  assert (HQ : 0 ≤ Q) by nia.
  split; [exact He |]. split.
  - apply new_location_located; [lia | lia | lia | exact HQ].
  - destruct (Z.eq_dec e (-1074)) as [| Hne]; [left; assumption | right].
    assert (Hs : 52 + d2 ≤ d1 - 1 + - e) by (unfold e in *; lia).
    pose proof (pow2_le (52 + d2) (d1 - 1 + - e) ltac:(lia)) as Hle.
    rewrite !Z.pow_add_r in Hle by lia.
    nia.
Qed.

Lemma located_floor mrs a b m0 n :
  0 ≤ n → 0 < b → 0 ≤ m0 → m0 * b ≤ a < (m0 + 1) * b →
  located mrs a (b * 2 ^ n) →
  shr_m mrs * 2 ^ n ≤ m0 < (shr_m mrs + 1) * 2 ^ n.
Proof.
  intros Hn Hb Hm0 Ha (HB & Hm & Hrho & _).
  pose proof (pow2_pos n Hn). nia.
Qed.

(** The first shift brings the mantissa to the grid: fewer than 54 bits,
    and 53 of them unless the exponent is the least one. *)
Lemma shr_fexp_first mz ez lz a b mrs e1 :
  located (shr_record_of_loc mz lz) a b →
  ez = -1074 ∨ 2 ^ 52 ≤ mz → -1074 ≤ ez →
  shr_fexp prec emax mz ez lz = (mrs, e1) →
  ez ≤ e1 ∧ located mrs a (b * 2 ^ (e1 - ez))
  ∧ shr_m mrs < 2 ^ 53 ∧ (e1 = -1074 ∨ 2 ^ 52 ≤ shr_m mrs).
Proof.
  intros Hl Hn Hez. unfold shr_fexp. rewrite fexp_eq.
  set (d := Zdigits2 mz). set (n := Z.max (d + ez - 53) (-1074) - ez).
  pose proof Hl as (Hb & Hmz & Hrho & _). rewrite shr_m_of_loc in Hmz, Hrho.
  assert (Hd : mz = 0 ∧ d = 0 ∨ 0 < mz ∧ 0 < d ∧ 2 ^ (d - 1) ≤ mz < 2 ^ d).
  { destruct (Z.eq_dec mz 0) as [-> | ]; [left; auto | right].
    split; [lia |]. apply Zdigits2_spec. lia. }
  assert (Hn0 : 0 ≤ n).
  { destruct Hn as [-> | H52]; [unfold n; lia |].
    destruct Hd as [[-> _] | (_ & Hd0 & Hd1 & Hd2)]; [lia |].
    assert (52 < d) by (apply pow2_lt_inv; lia). unfold n. lia. }
  destruct (shr_located (shr_record_of_loc mz lz) ez n a b Hn0 Hl) as [Hl' He'].
  destruct (shr (shr_record_of_loc mz lz) ez n) as [mrs' e'] eqn:Hshr.
  simpl in Hl', He'. intros [= <- <-]. subst e'.
  replace (ez + n - ez) with n by lia.
  split; [lia |]. split; [exact Hl' |].
  pose proof (located_floor mrs' a b mz n Hn0 Hb Hmz ltac:(lia) Hl') as Hfl.
  pose proof Hl' as (_ & Hm & _).
  pose proof (pow2_pos n Hn0) as Hpn.
  destruct Hd as [[-> ->] | (Hpos & Hd0 & Hd1 & Hd2)].
  - assert (shr_m mrs' = 0) by nia.
    split; [lia |]. left. unfold n in *. lia.
  - split.
    + destruct (Z_lt_le_dec (shr_m mrs') (2 ^ 53)) as [| Hge]; [assumption |].
      exfalso.
      pose proof (pow2_le d (53 + n) ltac:(unfold n; lia)) as Hle.
      rewrite Z.pow_add_r in Hle by lia. nia.
    + destruct (Z.eq_dec (ez + n) (-1074)) as [| Hne]; [left; assumption |].
      right. assert (Hnd : d - 1 = 52 + n) by (unfold n in *; lia).
      rewrite Hnd, Z.pow_add_r in Hd1 by lia. nia.
Qed.

(** Rounding picks one of the two neighbours, at most half a step away
    from the quotient. *)
Lemma round_nearest_even_located mrs a b :
  located mrs a b →
  (round_nearest_even (shr_m mrs) (loc_of_shr_record mrs) = shr_m mrs
   ∨ round_nearest_even (shr_m mrs) (loc_of_shr_record mrs) = shr_m mrs + 1)
  ∧ 2 * Z.abs (round_nearest_even (shr_m mrs) (loc_of_shr_record mrs) * b - a)
    ≤ b.
Proof.
  destruct mrs as [m r s]. unfold located. simpl.
  intros (Hb & Hm & Hrho & -> & ->).
  bool_cases; simpl; try lia; destruct (Z.even m); lia.
Qed.

Lemma binary_round_aux_finish s mz ez lz :
  binary_round_aux prec emax s mz ez lz =
    let '(mrs, e1) := shr_fexp prec emax mz ez lz in
    finish s (round_nearest_even (shr_m mrs) (loc_of_shr_record mrs)) e1.
Proof. reflexivity. Qed.

Lemma canonical_iff m e :
  canonical_mantissa prec emax m e = true ↔
  Z.max (Zdigits2 (Zpos m) + e - 53) (-1074) = e.
Proof. unfold canonical_mantissa. rewrite fexp_eq. apply Z.eqb_eq. Qed.

Lemma finish_spec s m1 e1 :
  -1074 ≤ e1 → 0 ≤ m1 ≤ 2 ^ 53 → e1 = -1074 ∨ 2 ^ 52 ≤ m1 →
  match finish s m1 e1 with
  | S754_zero s' => s' = s ∧ m1 = 0
  | S754_finite s' m2 e2 =>
      s' = s ∧ Zpos m2 * 2 ^ (e2 + 1074) = m1 * 2 ^ (e1 + 1074)
      ∧ canonical_mantissa prec emax m2 e2 = true ∧ e2 ≤ 971
  | S754_infinity s' => 971 ≤ e1
  | S754_nan => False
  end.
Proof.
  intros He Hm Hn. unfold finish, shr_fexp. rewrite fexp_eq.
  destruct (Z.eq_dec m1 0) as [-> | Hne0].
  - destruct Hn as [-> | H]; [| lia]. simpl. auto.
  - destruct (Z.eq_dec m1 (2 ^ 53)) as [-> | Hne].
    + change (Zdigits2 (2 ^ 53)) with 54.
      replace (Z.max (54 + e1 - 53) (-1074) - e1) with 1 by lia.
      change (2 ^ 53) with 9007199254740992. simpl shr. cbn [shr_m].
      change (emax - prec) with 971.
      destruct (Z.leb_spec (e1 + 1) 971).
      * split; [reflexivity |]. split.
        { replace (e1 + 1 + 1074) with (e1 + 1074 + 1) by lia.
          rewrite Z.pow_add_r by lia. lia. }
        split; [| lia]. apply canonical_iff.
        change (Zdigits2 (Zpos 4503599627370496)) with 53. lia.
      * lia.
    + destruct (Zdigits2_spec m1 ltac:(lia)) as (Hd0 & Hd1 & Hd2).
      assert (Hd : Zdigits2 m1 ≤ 53).
      { assert (Zdigits2 m1 - 1 < 53); [| lia].
        apply pow2_lt_inv; lia. }
      assert (Hc : Z.max (Zdigits2 m1 + e1 - 53) (-1074) = e1).
      { destruct Hn as [-> | H52]; [lia |].
        assert (52 < Zdigits2 m1) by (apply pow2_lt_inv; lia). lia. }
      rewrite Hc, Z.sub_diag. simpl shr. cbn [shr_m].
      destruct m1 as [| p | p]; try lia.
      change (emax - prec) with 971.
      destruct (Z.leb_spec e1 971).
      * split; [reflexivity |]. split; [reflexivity |].
        split; [| assumption]. apply canonical_iff. exact Hc.
      * lia.
Qed.

(** What [binary_round_aux] returns for a located quotient [a / b] with
    exponent [ez]: two neighbours [m] and [m + 1] on the grid of exponent
    [e1] enclose the quotient, and the result is the nearer one. *)
Lemma binary_round_aux_spec s mz ez lz a b :
  located (shr_record_of_loc mz lz) a b →
  ez = -1074 ∨ 2 ^ 52 ≤ mz → -1074 ≤ ez →
  ∃ m e1 m1,
    ez ≤ e1 ∧ 0 ≤ m
    ∧ m * (b * 2 ^ (e1 - ez)) ≤ a < (m + 1) * (b * 2 ^ (e1 - ez))
    ∧ (e1 = -1074 ∨ 2 ^ 52 ≤ m)
    ∧ (m1 = m ∨ m1 = m + 1)
    ∧ 2 * Z.abs (m1 * (b * 2 ^ (e1 - ez)) - a) ≤ b * 2 ^ (e1 - ez)
    ∧ match binary_round_aux prec emax s mz ez lz with
      | S754_zero s' => s' = s ∧ m1 = 0
      | S754_finite s' m2 e2 =>
          s' = s ∧ Zpos m2 * 2 ^ (e2 + 1074) = m1 * 2 ^ (e1 + 1074)
          ∧ canonical_mantissa prec emax m2 e2 = true ∧ e2 ≤ 971
      | S754_infinity s' => 971 ≤ e1
      | S754_nan => False
      end.
Proof.
  intros Hl Hn Hez. rewrite binary_round_aux_finish.
  destruct (shr_fexp prec emax mz ez lz) as [mrs e1] eqn:Hs.
  destruct (shr_fexp_first _ _ _ _ _ _ _ Hl Hn Hez Hs)
    as (He1 & Hl1 & Hlt & Hn1).
  destruct (round_nearest_even_located _ _ _ Hl1) as [Hm1 Hnear].
  pose proof Hl1 as (HB & Hm & Hrho & _).
  exists (shr_m mrs), e1,
    (round_nearest_even (shr_m mrs) (loc_of_shr_record mrs)).
  split; [exact He1 |]. split; [exact Hm |]. split; [lia |].
  split; [exact Hn1 |]. split; [exact Hm1 |]. split; [exact Hnear |].
  apply finish_spec; lia.
Qed.

(** No binary64 number lies strictly between two neighbours of the grid. *)
Lemma no_float_between k f m e1 :
  canonical_mantissa prec emax k f = true →
  0 ≤ m → -1074 ≤ e1 → e1 = -1074 ∨ 2 ^ 52 ≤ m →
  Zpos k * 2 ^ (f + 1074) ≤ m * 2 ^ (e1 + 1074)
  ∨ (m + 1) * 2 ^ (e1 + 1074) ≤ Zpos k * 2 ^ (f + 1074).
Proof.
  intros Hc Hm He Hn. apply canonical_iff in Hc.
  destruct (Zdigits2_spec (Zpos k) ltac:(lia)) as (Hd0 & Hd1 & Hd2).
  set (d := Zdigits2 (Zpos k)) in *.
  pose proof (pow2_le d 53 ltac:(lia)) as Hk.
  destruct (Z_le_gt_dec e1 f) as [Hle | Hgt].
  - replace (f + 1074) with (e1 + 1074 + (f - e1)) by lia.
    rewrite (Z.pow_add_r 2 (e1 + 1074) (f - e1)) by lia.
    pose proof (pow2_pos (e1 + 1074) ltac:(lia)).
    pose proof (pow2_pos (f - e1) ltac:(lia)).
    destruct (Z_le_gt_dec (Zpos k * 2 ^ (f - e1)) m); [left | right]; nia.
  - left. destruct Hn as [-> | H52]; [lia |].
    replace (e1 + 1074) with (f + 1074 + (e1 - f)) by lia.
    rewrite (Z.pow_add_r 2 (f + 1074) (e1 - f)) by lia.
    pose proof (pow2_pos (f + 1074) ltac:(lia)).
    pose proof (pow2_le 1 (e1 - f) ltac:(lia)) as H2.
    change (2 ^ 1) with 2 in H2.
    assert (Hk2 : Zpos k < 2 * m)
      by (change (2 ^ 53) with (2 * 2 ^ 52) in Hk; lia).
    apply Z.le_trans with (2 * m * 2 ^ (f + 1074)); [nia |].
    replace (m * (2 ^ (f + 1074) * 2 ^ (e1 - f)))
      with (m * 2 ^ (f + 1074) * 2 ^ (e1 - f)) by ring.
    replace (2 * m * 2 ^ (f + 1074)) with (m * 2 ^ (f + 1074) * 2) by ring.
    apply Z.mul_le_mono_nonneg_l; [nia | lia].
Qed.

Lemma steps_magnitude y :
  binary64 y →
  ∃ sy Y, steps y = cond_Zopp sy Y ∧ 0 ≤ Y
    ∧ ∀ m e1, 0 ≤ m → -1074 ≤ e1 → e1 = -1074 ∨ 2 ^ 52 ≤ m →
        Y ≤ m * 2 ^ (e1 + 1074) ∨ (m + 1) * 2 ^ (e1 + 1074) ≤ Y.
Proof.
  intros [Hf Hv]. destruct y as [sy | sy | | sy k f]; try discriminate.
  - exists sy, 0. split; [destruct sy; reflexivity |]. split; [lia |].
    intros m e1 Hm He _. left.
    pose proof (pow2_pos (e1 + 1074) ltac:(lia)). nia.
  - simpl in Hv. unfold bounded in Hv. apply andb_true_iff in Hv as [Hc Hle].
    pose proof Hc as Hc'. apply canonical_iff in Hc'.
    exists sy, (Zpos k * 2 ^ (f + 1074)). split; [reflexivity |].
    split; [pose proof (pow2_pos (f + 1074) ltac:(lia)); nia |].
    intros m e1. apply no_float_between. exact Hc.
Qed.

(** [of_ratio] is the rounding to nearest: its result is a binary64 number
    of the sign asked for, and no binary64 number is nearer to [p / q]. *)
Lemma of_ratio_nearest s p q :
  Zpos p < Zpos q * 2 ^ 1023 →
  binary64 (of_ratio s p q)
  ∧ sign (of_ratio s p q) = Some s
  ∧ ∀ y, binary64 y →
      Z.abs (steps (of_ratio s p q) * Zpos q
             - cond_Zopp s (Zpos p) * 2 ^ 1074)
      ≤ Z.abs (steps y * Zpos q - cond_Zopp s (Zpos p) * 2 ^ 1074).
Proof.
  intros Hbound. unfold of_ratio.
  destruct (SFdiv_core_binary prec emax (Zpos p) 0 (Zpos q) 0)
    as [[mz ez] lz] eqn:Hdiv.
  destruct (div_core_spec _ _ _ _ _ Hdiv) as (Hez & Hl & Hn).
  destruct (binary_round_aux_spec s mz ez lz _ _ Hl Hn ltac:(lia))
    as (m & e1 & m1 & He1 & Hm & Hlo & Hn1 & Hm1 & Hnear & Hres).
  set (c := 2 ^ (1074 + ez)).
  set (U := 2 ^ (e1 + 1074)) in *.
  assert (Hc : 0 < c) by (apply pow2_pos; lia).
  assert (HU : 0 < U) by (apply pow2_pos; lia).
  assert (HcK : c * 2 ^ (- ez) = 2 ^ 1074).
  { unfold c. rewrite <- Z.pow_add_r by lia. f_equal. lia. }
  assert (HcU : c * 2 ^ (e1 - ez) = U).
  { unfold c, U. rewrite <- Z.pow_add_r by lia. f_equal. lia. }
  set (B := Zpos q * 2 ^ (e1 - ez)) in *.
  set (a := Zpos p * 2 ^ (- ez)) in *.
  assert (HT : c * a = Zpos p * 2 ^ 1074) by (unfold a; rewrite <- HcK; ring).
  assert (HB : c * B = U * Zpos q) by (unfold B; rewrite <- HcU; ring).
  set (T := Zpos p * 2 ^ 1074) in *.
  assert (Hrepr : binary64 (binary_round_aux prec emax s mz ez lz)
                  ∧ sign (binary_round_aux prec emax s mz ez lz) = Some s
                  ∧ steps (binary_round_aux prec emax s mz ez lz)
                    = cond_Zopp s (m1 * U)).
  { destruct (binary_round_aux prec emax s mz ez lz) as [s' | s' | | s' m2 e2].
    - destruct Hres as [-> ->]. repeat split. destruct s; reflexivity.
    - exfalso. assert (H52 : 2 ^ 52 ≤ m) by (destruct Hn1; [lia | assumption]).
      assert (Hpow : 2 ^ 1023 * 2 ^ (- ez) ≤ 2 ^ 52 * 2 ^ (e1 - ez)).
      { rewrite <- !Z.pow_add_r by lia. apply pow2_le. lia. }
      pose proof (pow2_pos (- ez) ltac:(lia)).
      pose proof (pow2_pos (e1 - ez) ltac:(lia)).
      unfold a, B in Hlo. nia.
    - contradiction.
    - destruct Hres as (-> & Hval & Hcan & Hle). repeat split.
      + simpl. unfold bounded. rewrite Hcan. simpl.
        apply Z.leb_le. exact Hle.
      + simpl. rewrite Hval. reflexivity. }
  destruct Hrepr as (Hbin & Hsign & Hsteps).
  split; [exact Hbin |]. split; [exact Hsign |].
  intros y Hy. rewrite Hsteps.
  destruct (steps_magnitude y Hy) as (sy & Y & -> & HY & Hgrid).
  specialize (Hgrid m e1 Hm ltac:(lia) Hn1). fold U in Hgrid.
  assert (HT0 : 0 ≤ T) by (unfold T; pose proof (pow2_pos 1074); nia).
  replace (cond_Zopp s (Zpos p) * 2 ^ 1074) with (cond_Zopp s T)
    by (unfold T; destruct s; cbn [cond_Zopp]; ring).
  clearbody c U B a T. clear Hbound Hdiv Hl Hn Hres Hsteps Hbin Hsign.
  assert (Hq : 0 < Zpos q) by lia.
  set (Q := Zpos q) in *. clearbody Q.
  assert (HmB : c * (m * B) = m * U * Q) by (rewrite <- Z.mul_assoc, <- HB; ring).
  assert (Hm1B : c * (m1 * B) = m1 * U * Q)
    by (rewrite <- Z.mul_assoc, <- HB; ring).
  assert (HL : m * U * Q ≤ T < m * U * Q + U * Q).
  { rewrite <- HmB, <- HT, <- HB. split.
    - apply Z.mul_le_mono_nonneg_l; lia.
    - replace (c * (m * B) + c * B) with (c * ((m + 1) * B)) by ring.
      apply Z.mul_lt_mono_pos_l; lia. }
  assert (HW : 2 * Z.abs (m1 * U * Q - T) ≤ U * Q).
  { rewrite <- Hm1B, <- HT, <- HB, <- Z.mul_sub_distr_l.
    rewrite Z.abs_mul, (Z.abs_eq c) by lia.
    replace (2 * (c * Z.abs (m1 * B - a)))
      with (c * (2 * Z.abs (m1 * B - a))) by ring.
    apply Z.mul_le_mono_nonneg_l; [lia | exact Hnear]. }
  assert (HYq : Y * Q ≤ m * U * Q ∨ m * U * Q + U * Q ≤ Y * Q).
  { destruct Hgrid as [Hg | Hg]; [left | right].
    - apply Z.mul_le_mono_nonneg_r; lia.
    - replace (m * U * Q + U * Q) with ((m + 1) * U * Q) by ring.
      apply Z.mul_le_mono_nonneg_r; lia. }
  assert (HW' : m1 * U * Q = m * U * Q ∨ m1 * U * Q = m * U * Q + U * Q)
    by (destruct Hm1 as [-> | ->]; [left | right]; ring).
  assert (HY0 : 0 ≤ Y * Q) by (apply Z.mul_nonneg_nonneg; lia).
  assert (HL0 : 0 ≤ m * U * Q)
    by (apply Z.mul_nonneg_nonneg; [apply Z.mul_nonneg_nonneg |]; lia).
  assert (HUQ : 0 < U * Q) by (apply Z.mul_pos_pos; lia).
  assert (Hgoal : ∀ W L D Yq,
            L ≤ T < L + D → 2 * Z.abs (W - T) ≤ D → Yq ≤ L ∨ L + D ≤ Yq →
            W = L ∨ W = L + D → 0 ≤ Yq → 0 ≤ L →
            Z.abs (cond_Zopp s W - cond_Zopp s T)
            ≤ Z.abs (cond_Zopp sy Yq - cond_Zopp s T)).
  { clear. intros. destruct s, sy; simpl; lia. }
  specialize (Hgoal _ _ _ _ HL HW HYq HW' HY0 HL0).
  replace (cond_Zopp s (m1 * U) * Q) with (cond_Zopp s (m1 * U * Q))
    by (destruct s; simpl; ring).
  replace (cond_Zopp sy Y * Q) with (cond_Zopp sy (Y * Q))
    by (destruct sy; simpl; ring).
  exact Hgoal.
Qed.

Lemma div_half_even_nearest num den :
  (0 < den)%Z →
  (2 * Z.abs (num - div_half_even num den * den) ≤ den)%Z.
Proof.
  intros Hden. unfold div_half_even.
  pose proof (Z.div_mod num den ltac:(lia)) as Hdm.
  pose proof (Z.mod_pos_bound num den Hden) as Hr.
  destruct (Z.compare_spec (2 * (num mod den)) den) as [He | Hl | Hg];
    [destruct (Z.even (num / den)) |..]; nia.
Qed.

Lemma div_half_even_nonneg num den :
  0 ≤ num → 0 < den → 0 ≤ div_half_even num den.
Proof.
  intros Hn Hd. unfold div_half_even.
  pose proof (Z.div_pos num den Hn Hd).
  destruct (2 * (num mod den) ?= den); [destruct (Z.even (num / den)) | |]; lia.
Qed.

(** A number at distance zero is nearest. *)
Lemma nearest_exact a b r :
  binary64 r → steps r * b = a * 2 ^ 1074 → nearest a b r.
Proof.
  intros Hr He. split; [exact Hr |]. intros y _. rewrite He. lia.
Qed.

Lemma of_decimal_nearest s n ndigits :
  0 ≤ n → 0 ≤ ndigits → n < 10 ^ ndigits * 2 ^ 1023 →
  sign (of_decimal s n (- ndigits)) = Some s
  ∧ nearest (cond_Zopp s n) (10 ^ ndigits) (of_decimal s n (- ndigits)).
Proof.
  intros Hn Hnd Hb. unfold of_decimal.
  pose proof (Z.pow_pos_nonneg 10 ndigits ltac:(lia) Hnd) as Hpow.
  destruct n as [| p | p]; [| | lia].
  - split; [reflexivity |]. apply nearest_exact; [split; reflexivity |].
    destruct s; reflexivity.
  - destruct (Z.leb_spec 0 (- ndigits)) as [H0 | H0].
    + assert (ndigits = 0) as -> by lia. simpl Z.opp.
      change (Z.to_pos (10 ^ 0)) with 1%positive. rewrite Pos.mul_1_r.
      change (10 ^ 0) with (Zpos 1) in *.
      destruct (of_ratio_nearest s p 1 ltac:(lia)) as (H1 & H2 & H3).
      split; [exact H2 |]. split; [exact H1 | exact H3].
    + rewrite Z.opp_involutive.
      destruct (of_ratio_nearest s p (Z.to_pos (10 ^ ndigits))
                  ltac:(rewrite Z2Pos.id by lia; exact Hb))
        as (H1 & H2 & H3).
      rewrite Z2Pos.id in H3 by lia.
      split; [exact H2 |]. split; [exact H1 | exact H3].
Qed.

(** [round] rounds to decimals in the sense of the specification. *)
Lemma round_rounded_to x ndigits :
  0 ≤ ndigits ≤ 323 → valid_binary prec emax x = true →
  rounded_to ndigits x (round x ndigits).
Proof.
  intros Hnd Hv. unfold rounded_to.
  pose proof (Z.pow_pos_nonneg 10 ndigits ltac:(lia) ltac:(lia)) as Hpow.
  destruct x as [s | s | | s m e]; simpl is_finite; cbv iota; try reflexivity.
  - split; [reflexivity |]. exists 0. split; [simpl; lia |].
    apply nearest_exact; [split; reflexivity | reflexivity].
  - simpl in Hv. unfold bounded in Hv. apply andb_true_iff in Hv as [Hc Hle].
    pose proof Hc as Hc'. apply canonical_iff in Hc'.
    destruct (Zdigits2_spec (Zpos m) ltac:(lia)) as (Hd0 & Hd1 & Hd2).
    assert (He : -1074 ≤ e) by lia.
    unfold round.
    replace (323 <? ndigits) with false by (symmetry; apply Z.ltb_ge; lia).
    cbn [orb]. destruct (Z.leb_spec 0 e) as [H0 | H0].
    + split; [reflexivity |].
      exists (cond_Zopp s (Zpos m * 2 ^ e * 10 ^ ndigits)).
      assert (Heq : steps (S754_finite s m e) * 10 ^ ndigits
                    = cond_Zopp s (Zpos m * 2 ^ e * 10 ^ ndigits) * 2 ^ 1074).
      { unfold steps. rewrite Z.pow_add_r by lia.
        destruct s; cbn [cond_Zopp]; ring. }
      split.
      * rewrite Heq, Z.sub_diag. simpl Z.abs.
        pose proof (pow2_pos 1074 ltac:(lia)). lia.
      * apply nearest_exact; [| exact Heq].
        split; [reflexivity |]. simpl. unfold bounded. rewrite Hc. exact Hle.
    + set (E := 2 ^ (- e)).
      assert (HE : 2 ≤ E).
      { pose proof (pow2_le 1 (- e) ltac:(lia)) as H. exact H. }
      set (n := div_half_even (Zpos m * 10 ^ ndigits) E).
      pose proof (div_half_even_nearest (Zpos m * 10 ^ ndigits) E ltac:(lia))
        as Hnear. fold n in Hnear.
      pose proof (div_half_even_nonneg (Zpos m * 10 ^ ndigits) E
                    ltac:(lia) ltac:(lia)) as Hn0. fold n in Hn0.
      assert (Hm53 : Zpos m < 2 ^ 53).
      { pose proof (pow2_le (Zdigits2 (Zpos m)) 53 ltac:(lia)). lia. }
      assert (Hnb : n < 10 ^ ndigits * 2 ^ 1023).
      { assert (n ≤ Zpos m * 10 ^ ndigits) by nia.
        assert (2 ^ 53 ≤ 2 ^ 1023) by (apply pow2_le; lia).
        nia. }
      destruct (of_decimal_nearest s n ndigits Hn0 ltac:(lia) Hnb)
        as [Hsign Hnst].
      split; [exact Hsign |].
      exists (cond_Zopp s n). split; [| exact Hnst].
      assert (HK : 2 ^ 1074 = 2 ^ (e + 1074) * E).
      { unfold E. rewrite <- Z.pow_add_r by lia. f_equal. lia. }
      pose proof (pow2_pos (e + 1074) ltac:(lia)) as HP.
      replace (steps (S754_finite s m e) * 10 ^ ndigits
               - cond_Zopp s n * 2 ^ 1074)
        with (cond_Zopp s (2 ^ (e + 1074) * (Zpos m * 10 ^ ndigits - n * E)))
        by (unfold steps; rewrite HK; destruct s; cbn [cond_Zopp]; ring).
      rewrite HK.
      replace (Z.abs (cond_Zopp s
                 (2 ^ (e + 1074) * (Zpos m * 10 ^ ndigits - n * E))))
        with (2 ^ (e + 1074) * Z.abs (Zpos m * 10 ^ ndigits - n * E))
        by (rewrite <- (Z.abs_eq (2 ^ (e + 1074))) at 1 by lia;
            rewrite <- Z.abs_mul; destruct s; cbn [cond_Zopp];
            [rewrite Z.abs_opp |]; reflexivity).
      replace (2 * (2 ^ (e + 1074) * Z.abs (Zpos m * 10 ^ ndigits - n * E)))
        with (2 ^ (e + 1074) * (2 * Z.abs (Zpos m * 10 ^ ndigits - n * E)))
        by ring.
      apply Z.mul_le_mono_nonneg_l; [lia | exact Hnear].
Qed.

End FloatFacts.

(** ** Rule evaluation *)

Section RulesFacts.
Import Py Rules Spec.

Lemma operators_gt : operators !! ">" = Some gt.
Proof. reflexivity. Qed.
Lemma operators_lt : operators !! "<" = Some lt.
Proof. reflexivity. Qed.
Lemma operators_ge : operators !! ">=" = Some ge.
Proof. reflexivity. Qed.
Lemma operators_le : operators !! "<=" = Some le.
Proof. reflexivity. Qed.
Lemma operators_eq : operators !! "==" = Some eq.
Proof. reflexivity. Qed.
Lemma operators_ne : operators !! "!=" = Some ne.
Proof. reflexivity. Qed.

Lemma operators_unknown op : op ∉ supported → operators !! op = None.
Proof.
  intros Hop. unfold operators.
  apply not_elem_of_list_to_map_1. exact Hop.
Qed.

(** [evaluate] on a condition of three tokens whose threshold is a float
    literal. *)
Lemma evaluate_three_tokens cond stats path op thr t :
  split cond = [path; op; thr] → parse_float thr = Ok t →
  evaluate cond stats =
    (let v := _get_nested_value stats path in
     if is_None v then Ok false
     else match operators !! op with
          | Some f => f v t
          | None => Ok false
          end).
Proof.
  intros Hs Ht. unfold evaluate. rewrite Hs, Ht. reflexivity.
Qed.

(** The walk of [_get_nested_value] finds what the path resolves to. *)
Lemma get_nested_loop_resolves data keys v :
  resolves data keys v → get_nested_loop data keys = v.
Proof.
  induction 1 as [v | d key v keys r Hk _ IH]; simpl.
  - reflexivity.
  - rewrite Hk. exact IH.
Qed.

(** ... and it gives [None] when the path does not resolve. *)
Lemma get_nested_loop_unresolved data keys :
  (∀ v, ¬ resolves data keys v) → get_nested_loop data keys = VNone.
Proof.
  revert data. induction keys as [| key keys IH]; intros data Hno.
  - exfalso. apply (Hno data). constructor.
  - simpl. destruct data; try reflexivity.
    destruct (d !! key) as [v |] eqn:Hk; [| reflexivity].
    apply IH. intros r Hr. apply (Hno r). econstructor; eauto.
Qed.

Lemma resolves_functional data keys v1 v2 :
  resolves data keys v1 → resolves data keys v2 → v1 = v2.
Proof.
  intros H1 H2.
  apply get_nested_loop_resolves in H1, H2. congruence.
Qed.

Example parse_float_97_5 : parse_float "97.5" = Ok f97_5.
Proof. vm_compute. reflexivity. Qed.

Example parse_float_95 : parse_float "95" = Ok f95.
Proof. vm_compute. reflexivity. Qed.

Example parse_float_grouped : parse_float "1_000" = parse_float "1e3".
Proof. vm_compute. reflexivity. Qed.

Example parse_float_rejects :
  parse_float "abc" = Raise ValueError ∧ parse_float "9_" = Raise ValueError
  ∧ parse_float "1e" = Raise ValueError ∧ parse_float "." = Raise ValueError.
Proof. vm_compute. auto. Qed.

Example split_condition :
  split "cpu.usage > 95" = ["cpu.usage"; ">"; "95"]
  ∧ split "  cpu.usage   >=	95 " = ["cpu.usage"; ">="; "95"]
  ∧ split "cpu.usage>95" = ["cpu.usage>95"].
Proof. vm_compute. auto. Qed.

Lemma supported_spec op :
  op ∈ supported ↔
  op = ">" ∨ op = "<" ∨ op = ">=" ∨ op = "<=" ∨ op = "==" ∨ op = "!=".
Proof. unfold supported. rewrite !elem_of_cons, elem_of_nil. tauto. Qed.

(** [evaluate] once the path has resolved to a number: the operator table
    alone decides. *)
Lemma evaluate_numeric cond stats path op thr t v :
  split cond = [path; op; thr] → parse_float thr = Ok t →
  resolves stats (split_on "." path) v → is_numeric v = true →
  evaluate cond stats =
    match operators !! op with Some f => f v t | None => Ok false end.
Proof.
  intros Hs Ht Hres Hnum.
  rewrite (evaluate_three_tokens _ _ _ _ _ _ Hs Ht).
  unfold _get_nested_value. rewrite (get_nested_loop_resolves _ _ _ Hres).
  cbv zeta. rewrite (is_numeric_not_None _ Hnum). reflexivity.
Qed.

(** What the six entries of the table return on a number, from the order
    [c] of the two operands. *)
Lemma operators_on_order op v t c :
  num_compare v t = Some c → op ∈ supported →
  ∃ f b, operators !! op = Some f ∧ f v t = Ok b ∧
    (op = ">" → (b = true ↔ c = Some Gt)) ∧
    (op = "<" → (b = true ↔ c = Some Lt)) ∧
    (op = ">=" → (b = true ↔ c = Some Gt ∨ c = Some Eq)) ∧
    (op = "<=" → (b = true ↔ c = Some Lt ∨ c = Some Eq)) ∧
    (op = "==" → (b = true ↔ c = Some Eq)) ∧
    (op = "!=" → (b = true ↔ c ≠ Some Eq)).
Proof.
  intros Hc Hop. apply supported_spec in Hop.
  destruct Hop as [-> | [-> | [-> | [-> | [-> | ->]]]]].
  - exists gt. eexists. split; [reflexivity |].
    unfold gt, ordering. rewrite Hc. split; [reflexivity |].
    repeat split; try discriminate; destruct c as [[] |]; intuition congruence.
  - exists lt. eexists. split; [reflexivity |].
    unfold lt, ordering. rewrite Hc. split; [reflexivity |].
    repeat split; try discriminate; destruct c as [[] |]; intuition congruence.
  - exists ge. eexists. split; [reflexivity |].
    unfold ge, ordering. rewrite Hc. split; [reflexivity |].
    repeat split; try discriminate; destruct c as [[] |]; intuition congruence.
  - exists le. eexists. split; [reflexivity |].
    unfold le, ordering. rewrite Hc. split; [reflexivity |].
    repeat split; try discriminate; destruct c as [[] |]; intuition congruence.
  - exists eq, (match c with Some Eq => true | _ => false end).
    split; [reflexivity |].
    unfold eq. rewrite Hc. split; [destruct c as [[] |]; reflexivity |].
    repeat split; try discriminate; destruct c as [[] |]; intuition congruence.
  - exists ne, (match c with Some Eq => false | _ => true end).
    split; [reflexivity |].
    unfold ne. rewrite Hc. split; [destruct c as [[] |]; reflexivity |].
    repeat split; try discriminate; destruct c as [[] |]; intuition congruence.
Qed.

(** C1, as the code has it. A condition of three tokens whose path
    resolves to a number [v] and whose threshold token is a float literal,
    of value [t]: [evaluate] returns a
    boolean, which is the truth of [v op t] for each of the six operators
    ([c] is the order of [v] and [t], [None] when a NaN makes them
    unordered), and [False] for any other operator token. *)
Theorem evaluate_direct_comparison cond stats path op thr t v :
  split cond = [path; op; thr] →
  parse_float thr = Ok t →
  resolves stats (split_on "." path) v →
  is_numeric v = true →
  ∃ (c : option comparison) (b : bool),
    num_compare v t = Some c ∧ evaluate cond stats = Ok b ∧
    (op = ">" → (b = true ↔ c = Some Gt)) ∧
    (op = "<" → (b = true ↔ c = Some Lt)) ∧
    (op = ">=" → (b = true ↔ c = Some Gt ∨ c = Some Eq)) ∧
    (op = "<=" → (b = true ↔ c = Some Lt ∨ c = Some Eq)) ∧
    (op = "==" → (b = true ↔ c = Some Eq)) ∧
    (op = "!=" → (b = true ↔ c ≠ Some Eq)) ∧
    (op ∉ supported → b = false).
Proof.
  intros Hs Ht Hres Hnum.
  destruct (num_compare_numeric v t Hnum) as [c Hc]. exists c.
  rewrite (evaluate_numeric _ _ _ _ _ _ _ Hs Ht Hres Hnum).
  destruct (decide (op ∈ supported)) as [Hop | Hop].
  - destruct (operators_on_order op v t c Hc Hop)
      as (f & b & -> & -> & H1 & H2 & H3 & H4 & H5 & H6).
    exists b. repeat split; try apply H1; try apply H2; try apply H3;
      try apply H4; try apply H5; try apply H6; auto.
    all: intros; contradiction.
  - rewrite (operators_unknown _ Hop). exists false.
    split; [exact Hc |]. split; [reflexivity |].
    repeat split; intros; subst; try discriminate;
      try (exfalso; apply Hop; apply supported_spec; tauto).
Qed.

(** The comparison of the specification's example: 97.5 > 95. *)
Lemma evaluate_direct_comparison_witness :
  ∃ (c : option comparison) (b : bool),
    num_compare (VFloat f97_5) f95 = Some c
    ∧ evaluate "cpu.usage > 95" cpu_snapshot = Ok b ∧
    (">" = ">" → (b = true ↔ c = Some Gt)) ∧
    (">" = "<" → (b = true ↔ c = Some Lt)) ∧
    (">" = ">=" → (b = true ↔ c = Some Gt ∨ c = Some Eq)) ∧
    (">" = "<=" → (b = true ↔ c = Some Lt ∨ c = Some Eq)) ∧
    (">" = "==" → (b = true ↔ c = Some Eq)) ∧
    (">" = "!=" → (b = true ↔ c ≠ Some Eq)) ∧
    (">" ∉ supported → b = false).
Proof.
  apply (evaluate_direct_comparison "cpu.usage > 95" cpu_snapshot
           "cpu.usage" ">" "95" f95 (VFloat f97_5)).
  - vm_compute. reflexivity.
  - vm_compute. reflexivity.
  - apply (resolves_step _ "cpu" (VDict {[ "usage" := VFloat f97_5 ]})).
    + vm_compute. reflexivity.
    + apply (resolves_step _ "usage" (VFloat f97_5)).
      * vm_compute. reflexivity.
      * apply resolves_here.
  - reflexivity.
Defined.

(** The walk either follows the path to its end or stops with [None]. *)
Lemma get_nested_loop_cases data keys :
  resolves data keys (get_nested_loop data keys)
  ∨ ((∀ v, ¬ resolves data keys v) ∧ get_nested_loop data keys = VNone).
Proof.
  revert data. induction keys as [| key keys IH]; intros data; simpl.
  - left. constructor.
  - destruct data; try (right; split; [intros v Hv; inversion Hv | reflexivity]).
    destruct (d !! key) as [v |] eqn:Hk.
    + destruct (IH v) as [Hr | [Hno Hn]].
      * left. econstructor; eauto.
      * right. split; [| exact Hn].
        intros r Hr. inversion Hr; subst.
        match goal with H : d !! key = Some _ |- _ =>
          rewrite Hk in H; injection H as <- end.
        eapply Hno; eauto.
    + right. split; [| reflexivity].
      intros r Hr. inversion Hr; subst. congruence.
Qed.

(** Fewer or more than three tokens: not triggered. *)
Lemma evaluate_token_count cond stats :
  length (split cond) ≠ 3 → evaluate cond stats = Ok false.
Proof.
  unfold evaluate.
  destruct (split cond) as [| a [| b [| c [| d l]]]]; simpl; intros H;
    try reflexivity.
  contradiction.
Qed.

(** When [evaluate] returns [True] the condition has three tokens. *)
Lemma evaluate_true_tokens cond stats :
  evaluate cond stats = Ok true →
  ∃ path op thr, split cond = [path; op; thr].
Proof.
  intros H.
  destruct (decide (length (split cond) = 3)) as [Hl | Hl].
  - destruct (split cond) as [| a [| b [| c [| d l]]]]; try discriminate.
    eauto.
  - rewrite (evaluate_token_count _ _ Hl) in H. discriminate.
Qed.

(** C2, as the code has it. A condition that does not split into three
    tokens is not triggered; a condition of three tokens whose threshold
    token is a float literal, and whose path does not resolve (a key is
    absent or a value on the way is not a dictionary) or resolves to
    [None], is not triggered either. Neither case raises. *)
Theorem evaluate_soft_failure cond stats :
  (length (split cond) ≠ 3 → evaluate cond stats = Ok false) ∧
  (∀ path op thr t,
     split cond = [path; op; thr] → parse_float thr = Ok t →
     (∀ v, resolves stats (split_on "." path) v → v = VNone) →
     evaluate cond stats = Ok false).
Proof.
  split; [apply evaluate_token_count |].
  intros path op thr t Hs Ht Hno.
  rewrite (evaluate_three_tokens _ _ _ _ _ _ Hs Ht).
  unfold _get_nested_value.
  destruct (get_nested_loop_cases stats (split_on "." path)) as [Hr | [_ Hn]].
  - rewrite (Hno _ Hr). reflexivity.
  - rewrite Hn. reflexivity.
Qed.

Lemma evaluate_soft_failure_witness :
  evaluate "cpu.usage >" cpu_snapshot = Ok false
  ∧ evaluate "cpu.load > 95" cpu_snapshot = Ok false.
Proof.
  split.
  - apply (proj1 (evaluate_soft_failure "cpu.usage >" cpu_snapshot)).
    vm_compute. discriminate.
  - apply (proj2 (evaluate_soft_failure "cpu.load > 95" cpu_snapshot)
             "cpu.load" ">" "95" f95).
    + vm_compute. reflexivity.
    + vm_compute. reflexivity.
    + intros v Hv. apply get_nested_loop_resolves in Hv.
      vm_compute in Hv. symmetry. exact Hv.
Defined.

(** C2 as the specification words it does not hold. With three tokens and
    a leaf that is a list, [>] raises [TypeError]; a leaf that is a string
    matches under [!=]; and a threshold that is no float literal raises
    [ValueError] although the path does not resolve. *)
Lemma evaluate_not_soft :
  (resolves mixed_snapshot (split_on "." "cpu.per_core") (VList [VFloat f97_5])
   ∧ is_numeric (VList [VFloat f97_5]) = false
   ∧ evaluate "cpu.per_core > 80" mixed_snapshot = Raise TypeError)
  ∧ (resolves mixed_snapshot (split_on "." "temp.status") (VStr "none")
     ∧ is_numeric (VStr "none") = false
     ∧ evaluate "temp.status != 0" mixed_snapshot = Ok true)
  ∧ ((∀ v, ¬ resolves mixed_snapshot (split_on "." "disk.free") v)
     ∧ evaluate "disk.free < ten" mixed_snapshot = Raise ValueError).
Proof.
  split; [| split].
  - split; [| split; [reflexivity | vm_compute; reflexivity]].
    eapply resolves_step; [vm_compute; reflexivity |].
    eapply resolves_step; [vm_compute; reflexivity |].
    apply resolves_here.
  - split; [| split; [reflexivity | vm_compute; reflexivity]].
    eapply resolves_step; [vm_compute; reflexivity |].
    eapply resolves_step; [vm_compute; reflexivity |].
    apply resolves_here.
  - split; [| vm_compute; reflexivity].
    intros v Hv. unfold mixed_snapshot in Hv.
    change (split_on "." "disk.free") with ["disk"; "free"] in Hv.
    inversion Hv as [| d key v0 keys r Hk Hrest]; subst.
    vm_compute in Hk. discriminate Hk.
Qed.

Example round_examples :
  round f97_5 2 = f97_5
  ∧ parse_float "85.456" ≫= (λ x, Ok (round x 2)) = parse_float "85.46"
  ∧ parse_float "0.125" ≫= (λ x, Ok (round x 2)) = parse_float "0.12"
  ∧ parse_float "2.675" ≫= (λ x, Ok (round x 2)) = parse_float "2.67"
  ∧ parse_float "-0.001" ≫= (λ x, Ok (round x 2)) = Ok (S754_zero true).
Proof. vm_compute. auto 6. Qed.

Lemma extract_value_display cond stats path rest :
  split cond = path :: rest →
  extract_value cond stats = Ok (display (_get_nested_value stats path)).
Proof.
  intros Hs. unfold extract_value. rewrite Hs. unfold display.
  destruct (_get_nested_value stats path); reflexivity.
Qed.

(** C5. When the first token of the condition is a path that resolves to
    [v]: for a float, [extract_value] returns [round(v, 2)], which is the
    float rounded to two decimals (for every binary64 number, as every
    Python float is: some decimal with two places lies within 0.005 of
    it, and the result is a binary64 number nearest to that decimal);
    for an integer, it returns the integer itself. *)
Theorem extract_value_rounds_floats cond stats path rest v :
  split cond = path :: rest →
  resolves stats (split_on "." path) v →
  (∀ f, v = VFloat f →
        extract_value cond stats = Ok (VFloat (round f 2))
        ∧ (valid_binary prec emax f = true → rounded_to 2 f (round f 2)))
  ∧ (∀ z, v = VInt z → extract_value cond stats = Ok (VInt z)).
Proof.
  intros Hs Hres.
  rewrite (extract_value_display _ _ _ _ Hs).
  unfold _get_nested_value. rewrite (get_nested_loop_resolves _ _ _ Hres).
  split.
  - intros f ->. split; [reflexivity |].
    intros Hv. apply round_rounded_to; [lia | exact Hv].
  - intros z ->. reflexivity.
Qed.

Lemma extract_value_rounds_floats_witness :
  (extract_value "cpu.usage > 80" usage_snapshot = Ok (VFloat f85_46)
   ∧ rounded_to 2 f85_456 f85_46)
  ∧ extract_value "cpu.count > 4" usage_snapshot = Ok (VInt 8).
Proof.
  split.
  - destruct (extract_value_rounds_floats "cpu.usage > 80" usage_snapshot
                "cpu.usage" [">"; "80"] (VFloat f85_456)) as [Hf _].
    + vm_compute. reflexivity.
    + apply (resolves_step _ "cpu"
               (VDict {[ "usage" := VFloat f85_456; "count" := VInt 8 ]})).
      * vm_compute. reflexivity.
      * apply (resolves_step _ "usage" (VFloat f85_456)).
        -- vm_compute. reflexivity.
        -- apply resolves_here.
    + destruct (Hf f85_456 eq_refl) as [He Hr].
      change (round f85_456 2) with f85_46 in He, Hr.
      split; [exact He | apply Hr; reflexivity].
  - destruct (extract_value_rounds_floats "cpu.count > 4" usage_snapshot
                "cpu.count" [">"; "4"] (VInt 8)) as [_ Hz].
    + vm_compute. reflexivity.
    + apply (resolves_step _ "cpu"
               (VDict {[ "usage" := VFloat f85_456; "count" := VInt 8 ]})).
      * vm_compute. reflexivity.
      * apply (resolves_step _ "count" (VInt 8)).
        -- vm_compute. reflexivity.
        -- apply resolves_here.
    + exact (Hz 8%Z eq_refl).
Defined.

(** The loop of [check] when no rule raises: the alerts of the triggered
    rules are appended in the order of the store. *)
Lemma check_loop_spec stats items acc :
  Forall (λ ir, ∃ b, evaluate (condition ir.2) stats = Ok b) items →
  check_loop items stats acc =
    Ok (acc ++ map (alert_of stats)
                   (List.filter (triggered stats) (map snd items))).
Proof.
  intros Hall. revert acc.
  induction Hall as [| [id r] items [b Hb] _ IH]; intros acc; simpl.
  - rewrite app_nil_r. reflexivity.
  - simpl in Hb. rewrite Hb. unfold triggered at 1. rewrite Hb.
    rewrite bind_ok. destruct b.
    + destruct (evaluate_true_tokens _ _ Hb) as (path & op & thr & Hs).
      rewrite (extract_value_display _ _ _ _ Hs), bind_ok.
      rewrite IH, <- app_assoc. simpl.
      unfold alert_of at 2, metric_path. rewrite Hs. reflexivity.
    + apply IH.
Qed.

(** A rule whose evaluation raises ends the pass with its exception. *)
Lemma check_propagates stats id r items e :
  evaluate (condition r) stats = Raise e →
  check ((id, r) :: items) stats = Raise e.
Proof. intros H. unfold check. simpl. rewrite H. reflexivity. Qed.

Lemma evaluate_cpu_example : evaluate "cpu.usage > 95" cpu_snapshot = Ok true.
Proof. vm_compute. reflexivity. Qed.

Lemma extract_value_cpu_example :
  extract_value "cpu.usage > 95" cpu_snapshot = Ok (VFloat f97_5).
Proof. vm_compute. reflexivity. Qed.

(** C3, as the code has it. On a store none of whose conditions raises,
    [check] returns, in the order of the store, one alert for each rule whose condition is true,
    built from the rule's name and severity and the displayed value of
    its metric. In particular the snapshot [{"cpu": {"usage": 97.5}}] and
    the single rule ["cpu.usage > 95"] of severity ["critical"] give one
    alert with that name, ["critical"] and 97.5. *)
Theorem check_one_alert_per_triggered_rule :
  (∀ rules stats,
     Forall (λ ir, ∃ b, evaluate (condition ir.2) stats = Ok b) rules →
     check rules stats =
       Ok (map (alert_of stats)
               (List.filter (triggered stats) (map snd rules))))
  ∧ (∀ id name,
       check [(id, Rule name "cpu.usage > 95" "critical")] cpu_snapshot =
         Ok [make_alert name "critical" (VFloat f97_5)]).
Proof.
  split.
  - intros rules stats Hall. unfold check.
    rewrite (check_loop_spec _ _ _ Hall). reflexivity.
  - intros id name. unfold check. simpl.
    rewrite evaluate_cpu_example, bind_ok.
    rewrite extract_value_cpu_example, bind_ok. reflexivity.
Qed.

Lemma check_one_alert_per_triggered_rule_witness :
  check cpu_rules cpu_snapshot =
    Ok (map (alert_of cpu_snapshot)
            (List.filter (triggered cpu_snapshot) (map snd cpu_rules))).
Proof.
  apply (proj1 check_one_alert_per_triggered_rule cpu_rules cpu_snapshot).
  repeat constructor; eexists; vm_compute; reflexivity.
Defined.

(** C3 as the specification words it does not hold on every store: one
    rule whose threshold is no float literal, or whose path ends on a list
    compared by [>], makes [check] raise instead of returning a list. *)
Lemma check_raises_on_bad_rule :
  check [("r", Rule "Load" "cpu.usage > high" "warning")] cpu_snapshot
    = Raise ValueError
  ∧ check [("r", Rule "Cores" "cpu.per_core > 80" "warning")] mixed_snapshot
    = Raise TypeError.
Proof. split; vm_compute; reflexivity. Qed.

(** C1 as the specification words it does not hold for every condition of
    three tokens: the threshold is converted before the operator is looked
    up, so an unknown operator with a threshold that is no float literal
    raises [ValueError] instead of giving [False]. *)
Lemma evaluate_unknown_operator_raises :
  split "cpu.usage is high" = ["cpu.usage"; "is"; "high"]
  ∧ resolves cpu_snapshot (split_on "." "cpu.usage") (VFloat f97_5)
  ∧ ("is" ∉ supported)
  ∧ evaluate "cpu.usage is high" cpu_snapshot = Raise ValueError.
Proof.
  split; [vm_compute; reflexivity |].
  split.
  { eapply resolves_step; [vm_compute; reflexivity |].
    eapply resolves_step; [vm_compute; reflexivity |].
    apply resolves_here. }
  split; [| vm_compute; reflexivity].
  rewrite supported_spec. intros H.
  repeat (destruct H as [H | H]; [discriminate H |]). discriminate H.
Qed.

End RulesFacts.

(** ** Alert dispatch *)

Section ActionsFacts.
Import Py Rules Actions Spec.

Lemma act_bind_ok {A B} (m : act A) (k : A → act B) w a w' :
  m w = (Ok a, w') → (m ≫= k) w = k a w'.
Proof. intros H. unfold mbind, act_bind. rewrite H. reflexivity. Qed.

Lemma act_bind_raise {A B} (m : act A) (k : A → act B) w e w' :
  m w = (Raise e, w') → (m ≫= k) w = (Raise e, w').
Proof. intros H. unfold mbind, act_bind. rewrite H. reflexivity. Qed.

Lemma item_Some d key v w : d !! key = Some v → item d key w = (Ok v, w).
Proof. intros H. unfold item, lift. rewrite H. reflexivity. Qed.

Lemma item_None d key w :
  d !! key = None → item d key w = (Raise (KeyError key), w).
Proof. intros H. unfold item, lift. rewrite H. reflexivity. Qed.

Lemma item_world {A} d key (k : pyval → act A) w :
  (item d key ≫= k) w =
    match d !! key with
    | Some v => k v w
    | None => (Raise (KeyError key), w)
    end.
Proof. unfold mbind, act_bind, item, lift. destruct (d !! key); reflexivity. Qed.

(** *** The relations kept by the method bodies *)

Section Preserves.
Context (R : world → world → Prop) `{!PreOrder R}.

Lemma preserves_ret {A} (a : A) : preserves R (mret a : act A).
Proof. intros w. simpl. reflexivity. Qed.

Lemma preserves_lift {A} (r : result A) : preserves R (lift r).
Proof. intros w. simpl. reflexivity. Qed.

Lemma preserves_bind {A B} (m : act A) (k : A → act B) :
  preserves R m → (∀ a, preserves R (k a)) → preserves R (m ≫= k).
Proof.
  intros Hm Hk w. unfold mbind, act_bind.
  specialize (Hm w). destruct (m w) as [[a | e] w']; simpl in *.
  - etransitivity; [exact Hm | apply Hk].
  - exact Hm.
Qed.

Lemma preserves_try {A} (body handler : act A) caught :
  preserves R body → preserves R handler →
  preserves R (try_except body caught handler).
Proof.
  intros Hb Hh w. unfold try_except.
  specialize (Hb w). destruct (body w) as [[a | e] w']; simpl in *.
  - exact Hb.
  - destruct (caught e); simpl; [| exact Hb].
    etransitivity; [exact Hb | apply Hh].
Qed.

Lemma preserves_item d key : preserves R (item d key).
Proof. apply preserves_lift. Qed.

Lemma preserves_get v key dflt : preserves R (get v key dflt).
Proof. apply preserves_lift. Qed.

End Preserves.

#[local] Instance emits_preorder P : PreOrder (emits P).
Proof.
  split.
  - intros w. exists []. rewrite app_nil_r. split; [reflexivity | constructor].
  - intros w1 w2 w3 (n1 & H1 & F1) (n2 & H2 & F2).
    exists (n1 ++ n2). rewrite H2, H1, app_assoc. split; [reflexivity |].
    apply Forall_app. split; assumption.
Qed.

#[local] Instance same_history_preorder : PreOrder same_history.
Proof.
  split.
  - intros w. reflexivity.
  - intros w1 w2 w3 H1 H2. unfold same_history in *. congruence.
Qed.

Lemma emits_emit (P : event → Prop) e : P e → preserves (emits P) (emit e).
Proof.
  intros He w. exists [e]. split; [reflexivity |].
  constructor; [exact He | constructor].
Qed.

Lemma same_history_emit e : preserves same_history (emit e).
Proof. intros w. reflexivity. Qed.

(** Reading the world leaves it as it is. *)
Lemma preserves_reader {A} R `{!Reflexive R} (m : act A) :
  (∀ w, (m w).2 = w) → preserves R m.
Proof. intros H w. rewrite H. reflexivity. Qed.

Lemma clock_reads w : (clock w).2 = w.
Proof. reflexivity. Qed.

Lemma os_name_is_reads s w : (os_name_is s w).2 = w.
Proof. reflexivity. Qed.

Lemma uname_sysname_reads w : (uname_sysname w).2 = w.
Proof. unfold uname_sysname. destruct (sysname w); reflexivity. Qed.

Lemma exists_history_file_reads w : (exists_history_file w).2 = w.
Proof. reflexivity. Qed.

Lemma json_load_reads w : (json_load w).2 = w.
Proof. unfold json_load. destruct (history_file w) as [[] |]; reflexivity. Qed.

Lemma emits_json_dump P history : preserves (emits P) (json_dump history).
Proof.
  intros w. unfold json_dump. exists []. rewrite app_nil_r.
  split; [destruct (writable w); reflexivity | constructor].
Qed.

Ltac frame_with known :=
  repeat first
    [ known
    | apply preserves_bind; [typeclasses eauto | | intros ?]
    | apply preserves_try; [typeclasses eauto | |]
    | apply preserves_item; typeclasses eauto
    | apply preserves_get; typeclasses eauto
    | apply preserves_ret; typeclasses eauto
    | apply preserves_lift; typeclasses eauto
    | apply preserves_reader;
      [ typeclasses eauto
      | first [ apply clock_reads | apply os_name_is_reads
              | apply uname_sysname_reads | apply exists_history_file_reads
              | apply json_load_reads ] ]
    | apply emits_json_dump
    | apply same_history_emit
    | apply emits_emit; simpl; unfold is_local; simpl; tauto
    | match goal with |- preserves _ (if ?b then _ else _) => destruct b end
    | match goal with |- preserves _ (match ?x with _ => _ end) => destruct x end ].

Ltac frame := frame_with fail.

Lemma handle_info_same_history alert :
  preserves same_history (_handle_info alert).
Proof. unfold _handle_info, logging, print. frame. Qed.

Lemma handle_info_emits alert :
  preserves (emits info_emission) (_handle_info alert).
Proof. unfold _handle_info, logging, print. frame. Qed.

Lemma topic_branch_same_history alert :
  preserves same_history (topic_branch alert).
Proof.
  unfold topic_branch, _handle_cpu_alert, _handle_memory_alert,
    _handle_disk_alert, print. frame.
Qed.

Lemma topic_branch_emits alert :
  preserves (emits is_print) (topic_branch alert).
Proof.
  unfold topic_branch, _handle_cpu_alert, _handle_memory_alert,
    _handle_disk_alert, print. frame.
Qed.

Lemma system_notification_same_history alert :
  preserves same_history (_system_notification alert).
Proof. unfold _system_notification, print. frame. Qed.

Lemma system_notification_emits alert :
  preserves (emits is_local) (_system_notification alert).
Proof. unfold _system_notification, print. frame. Qed.

Lemma save_to_history_emits alert :
  preserves (emits is_local) (_save_to_history alert).
Proof. unfold _save_to_history, load_history, print. frame. Qed.

(** A weaker description of the emissions is kept as well. *)
Lemma emits_weaken (P Q : event → Prop) w w' :
  (∀ e, P e → Q e) → emits P w w' → emits Q w w'.
Proof.
  intros HPQ (new & Ht & Hall). exists new. split; [exact Ht |].
  eapply Forall_impl; eauto.
Qed.

Lemma is_print_local e : is_print e → is_local e.
Proof. destruct e; simpl; unfold is_local; simpl; tauto. Qed.

Lemma info_emission_local e : info_emission e → is_local e.
Proof. destruct e; simpl; unfold is_local; simpl; tauto. Qed.

(** *** Substrings *)

Lemma append_cons c (s t : string) :
  (String c s ++ t)%string = String c (s ++ t)%string.
Proof. reflexivity. Qed.

Lemma append_nil (s : string) : (EmptyString ++ s)%string = s.
Proof. reflexivity. Qed.

Lemma prefix_spec needle hay :
  String.prefix needle hay = true ↔ ∃ post, hay = (needle ++ post)%string.
Proof.
  revert hay. induction needle as [| c needle IH]; intros hay.
  - split; [intros _; exists hay; reflexivity |].
    intros _. destruct hay; reflexivity.
  - destruct hay as [| c' hay]; simpl.
    + split; [discriminate |].
      intros [post H]. rewrite append_cons in H. discriminate H.
    + destruct (Ascii.ascii_dec c c') as [-> | Hne].
      * rewrite IH. split; intros [post H]; exists post.
        -- rewrite append_cons. congruence.
        -- rewrite append_cons in H. congruence.
      * split; [discriminate |].
        intros [post H]. rewrite append_cons in H. congruence.
Qed.

(** [is_substring] is "contains the substring": [needle] occurs between
    some [pre] and [post]. *)
Lemma is_substring_spec needle hay :
  is_substring needle hay = true ↔
  ∃ pre post, hay = (pre ++ needle ++ post)%string.
Proof.
  induction hay as [| c hay IH].
  - cbn [is_substring]. rewrite orb_false_r, prefix_spec. split.
    + intros [post H]. exists EmptyString, post. exact H.
    + intros (pre & post & H). destruct pre as [| c pre]; [eauto |].
      rewrite append_cons in H. discriminate H.
  - cbn [is_substring]. rewrite orb_true_iff, prefix_spec, IH. split.
    + intros [[post H] | (pre & post & H)].
      * exists EmptyString, post. exact H.
      * exists (String c pre), post. rewrite append_cons. congruence.
    + intros (pre & post & H). destruct pre as [| c' pre].
      * left. exists post. exact H.
      * right. exists pre, post. rewrite append_cons in H. congruence.
Qed.

(** *** The two branches of [execute] *)

Lemma execute_unfold config alert w :
  execute config alert w =
    match severity_branch config alert w with
    | (Ok _, w') => topic_branch alert w'
    | (Raise e, w') => (Raise e, w')
    end.
Proof. reflexivity. Qed.

Lemma eq_str_false v s : v ≠ VStr s → eq_str v s = false.
Proof.
  destruct v; simpl; try reflexivity.
  intros H. apply String.eqb_neq. congruence.
Qed.

Lemma severity_branch_info config alert :
  default (VStr "info") (alert !! "severity") = VStr "info" →
  severity_branch config alert = _handle_info alert.
Proof. intros H. unfold severity_branch. rewrite H. reflexivity. Qed.

Lemma severity_branch_other config alert v w :
  alert !! "severity" = Some v →
  v ≠ VStr "critical" → v ≠ VStr "warning" → v ≠ VStr "info" →
  severity_branch config alert w = (Ok (), w).
Proof.
  intros Hs H1 H2 H3. unfold severity_branch. rewrite Hs. simpl.
  rewrite !eq_str_false by assumption. reflexivity.
Qed.

(** The INFO handler on an alert that has its name and value. *)
Lemma handle_info_run alert name value w :
  alert !! "name" = Some name → alert !! "current_value" = Some value →
  _handle_info alert w =
    (Ok (), add_event (Log INFO name value)
              (add_event (Print "   Current Value: {}" [value])
                 (add_event (Print "INFO: {}" [name]) w))).
Proof.
  intros Hn Hv. unfold _handle_info, logging, print, emit.
  rewrite item_world, Hn. unfold mbind at 1, act_bind at 1.
  rewrite item_world, Hv. unfold mbind at 1, act_bind at 1.
  rewrite item_world, Hn. rewrite item_world, Hv. reflexivity.
Qed.

Lemma execute_info_frame config alert w :
  default (VStr "info") (alert !! "severity") = VStr "info" →
  history_file (execute config alert w).2 = history_file w
  ∧ emits is_local w (execute config alert w).2
  ∧ emits info_emission w (severity_branch config alert w).2.
Proof.
  intros Hs. unfold execute. rewrite (severity_branch_info _ _ Hs).
  split; [| split].
  - apply (preserves_bind same_history).
    + apply handle_info_same_history.
    + intros _. apply topic_branch_same_history.
  - apply (preserves_bind (emits is_local)).
    + intros w0. eapply emits_weaken; [apply info_emission_local |].
      apply handle_info_emits.
    + intros _ w0. eapply emits_weaken; [apply is_print_local |].
      apply topic_branch_emits.
  - apply handle_info_emits.
Qed.

(** C7. An alert of severity ["info"]: [execute] leaves the history file
    as it was and emits nothing over the network (no SMTP session); the
    severity branch emits only console lines and INFO log records, and on
    an alert with its name and value exactly the two lines and the INFO
    record of [_handle_info]. *)
Theorem execute_info_leaves_history config alert w :
  alert !! "severity" = Some (VStr "info") →
  history_file (execute config alert w).2 = history_file w
  ∧ emits is_local w (execute config alert w).2
  ∧ emits info_emission w (severity_branch config alert w).2
  ∧ (∀ name value,
       alert !! "name" = Some name → alert !! "current_value" = Some value →
       severity_branch config alert w =
         (Ok (), add_event (Log INFO name value)
                   (add_event (Print "   Current Value: {}" [value])
                      (add_event (Print "INFO: {}" [name]) w)))).
Proof.
  intros Hs.
  assert (Hd : default (VStr "info") (alert !! "severity") = VStr "info")
    by (rewrite Hs; reflexivity).
  destruct (execute_info_frame config alert w Hd) as (H1 & H2 & H3).
  repeat split; try assumption.
  intros name value Hn Hv.
  rewrite (severity_branch_info _ _ Hd). apply handle_info_run; assumption.
Qed.

Lemma execute_info_leaves_history_witness :
  history_file (execute ∅ info_alert fresh_world).2 = history_file fresh_world
  ∧ emits is_local fresh_world (execute ∅ info_alert fresh_world).2
  ∧ emits info_emission fresh_world
      (severity_branch ∅ info_alert fresh_world).2
  ∧ (∀ name value,
       info_alert !! "name" = Some name →
       info_alert !! "current_value" = Some value →
       severity_branch ∅ info_alert fresh_world =
         (Ok (), add_event (Log INFO name value)
                   (add_event (Print "   Current Value: {}" [value])
                      (add_event (Print "INFO: {}" [name]) fresh_world)))).
Proof.
  apply (execute_info_leaves_history ∅ info_alert fresh_world).
  vm_compute. reflexivity.
Defined.

(** *** The topic branch *)

(** C8, as the code has it. After the severity branch, [execute] runs the
    topic branch, an [if]/[elif] chain on the name: the first test that
    succeeds, in the order "CPU", then "Memory" or "RAM", then "Disk",
    selects the one hook that runs; the tests are case-sensitive substring
    tests. A name matching several topics runs only the first hook. *)
Theorem topic_branch_first_match alert name w :
  alert !! "name" = Some (VStr name) →
  topic_branch alert w =
    (Ok (),
     if is_substring "CPU" name then add_event cpu_hook w
     else if is_substring "Memory" name || is_substring "RAM" name
          then add_event memory_hook w
     else if is_substring "Disk" name then add_event disk_hook w
     else w)
  ∧ ∀ config w0,
      severity_branch config alert w0 = (Ok (), w) →
      execute config alert w0 = topic_branch alert w.
Proof.
  intros Hn. split.
  - unfold topic_branch. rewrite Hn. simpl default.
    unfold mbind, act_bind, lift, contains.
    destruct (is_substring "CPU" name); [reflexivity |].
    destruct (is_substring "Memory" name); [reflexivity |].
    simpl. destruct (is_substring "RAM" name); [reflexivity |].
    destruct (is_substring "Disk" name); reflexivity.
  - intros config w0 Hs. rewrite execute_unfold, Hs. reflexivity.
Qed.

Lemma topic_branch_first_match_witness :
  topic_branch two_topics_alert fresh_world =
    (Ok (),
     if is_substring "CPU" "CPU and Disk pressure"
     then add_event cpu_hook fresh_world
     else if is_substring "Memory" "CPU and Disk pressure"
             || is_substring "RAM" "CPU and Disk pressure"
          then add_event memory_hook fresh_world
     else if is_substring "Disk" "CPU and Disk pressure"
          then add_event disk_hook fresh_world
     else fresh_world)
  ∧ ∀ config w0,
      severity_branch config two_topics_alert w0 = (Ok (), fresh_world) →
      execute config two_topics_alert w0 =
        topic_branch two_topics_alert fresh_world.
Proof.
  apply (topic_branch_first_match two_topics_alert
           "CPU and Disk pressure" fresh_world).
  vm_compute. reflexivity.
Defined.

(** C8 as the specification words it does not hold: the name
    ["CPU and Disk pressure"] contains both "CPU" and "Disk", and
    [execute] runs the CPU hook only. *)
Lemma topic_hooks_not_independent :
  is_substring "CPU" "CPU and Disk pressure" = true
  ∧ is_substring "Disk" "CPU and Disk pressure" = true
  ∧ two_topics_alert !! "name" = Some (VStr "CPU and Disk pressure")
  ∧ (execute ∅ two_topics_alert fresh_world).1 = Ok ()
  ∧ trace (execute ∅ two_topics_alert fresh_world).2 =
      [Print "INFO: {}" [VStr "CPU and Disk pressure"];
       Print "   Current Value: {}" [VInt 1];
       Log INFO (VStr "CPU and Disk pressure") (VInt 1);
       cpu_hook]
  ∧ disk_hook ∉ trace (execute ∅ two_topics_alert fresh_world).2.
Proof.
  assert (Ht : trace (execute ∅ two_topics_alert fresh_world).2 =
      [Print "INFO: {}" [VStr "CPU and Disk pressure"];
       Print "   Current Value: {}" [VInt 1];
       Log INFO (VStr "CPU and Disk pressure") (VInt 1);
       cpu_hook]) by (vm_compute; reflexivity).
  repeat split; try (vm_compute; reflexivity).
  rewrite Ht, !not_elem_of_cons.
  repeat split; try discriminate. apply not_elem_of_nil.
Qed.

(** *** A missing or unknown severity *)

Lemma item_insert_ne alert k k' v :
  k ≠ k' → item (<[k := v]> alert) k' = item alert k'.
Proof. intros H. unfold item. rewrite lookup_insert_ne by exact H. reflexivity. Qed.

(** An alert without ["severity"] is dispatched as the same alert with
    severity ["info"]. *)
Lemma execute_default_info config alert :
  alert !! "severity" = None →
  execute config alert = execute config (<["severity" := VStr "info"]> alert).
Proof.
  intros Hs. unfold execute.
  rewrite !severity_branch_info
    by (rewrite ?Hs, ?lookup_insert_eq; reflexivity).
  unfold topic_branch, _handle_info, logging,
    _handle_cpu_alert, _handle_memory_alert, _handle_disk_alert.
  rewrite !item_insert_ne by discriminate.
  rewrite lookup_insert_ne by discriminate. reflexivity.
Qed.

(** C10, as the code has it. An alert without a ["severity"] key is
    dispatched as the same alert with severity ["info"]: the history file
    is left as it was, nothing goes over the network, the severity branch
    emits only console lines and INFO records; when the alert has its
    ["name"] and ["current_value"], the severity branch completes and the
    topic branch runs after it. An alert whose severity is none of
    ["critical"], ["warning"], ["info"] gets no severity-branch action,
    and the topic branch runs. *)
Theorem execute_missing_or_unknown_severity config alert w :
  (alert !! "severity" = None →
     execute config alert w
       = execute config (<["severity" := VStr "info"]> alert) w
     ∧ history_file (execute config alert w).2 = history_file w
     ∧ emits is_local w (execute config alert w).2
     ∧ emits info_emission w (severity_branch config alert w).2
     ∧ (∀ name value,
          alert !! "name" = Some name →
          alert !! "current_value" = Some value →
          ∃ w', severity_branch config alert w = (Ok (), w')
                ∧ trace w' = trace w ++
                    [Print "INFO: {}" [name];
                     Print "   Current Value: {}" [value];
                     Log INFO name value]
                ∧ execute config alert w = topic_branch alert w'))
  ∧ (∀ v, alert !! "severity" = Some v →
          v ≠ VStr "critical" → v ≠ VStr "warning" → v ≠ VStr "info" →
          severity_branch config alert w = (Ok (), w)
          ∧ execute config alert w = topic_branch alert w).
Proof.
  split.
  - intros Hs.
    assert (Hd : default (VStr "info") (alert !! "severity") = VStr "info")
      by (rewrite Hs; reflexivity).
    destruct (execute_info_frame config alert w Hd) as (H1 & H2 & H3).
    split; [rewrite (execute_default_info _ _ Hs); reflexivity |].
    repeat split; try assumption.
    intros name value Hn Hv. eexists. split; [| split].
    + rewrite (severity_branch_info _ _ Hd).
      apply handle_info_run; eassumption.
    + simpl. rewrite <- !app_assoc. reflexivity.
    + rewrite execute_unfold, (severity_branch_info _ _ Hd).
      rewrite (handle_info_run _ _ _ _ Hn Hv). reflexivity.
  - intros v Hs H1 H2 H3.
    pose proof (severity_branch_other config alert v w Hs H1 H2 H3) as Hb.
    split; [exact Hb |]. rewrite execute_unfold, Hb. reflexivity.
Qed.

Lemma execute_missing_or_unknown_severity_witness :
  (execute ∅ (delete "severity" info_alert) fresh_world).1 = Ok ()
  ∧ execute ∅ (<["severity" := VStr "debug"]> info_alert) fresh_world
    = topic_branch (<["severity" := VStr "debug"]> info_alert) fresh_world.
Proof.
  split.
  - destruct (proj1 (execute_missing_or_unknown_severity
                       ∅ (delete "severity" info_alert) fresh_world))
      as (Heq & _).
    + vm_compute. reflexivity.
    + rewrite Heq. vm_compute. reflexivity.
  - apply (proj2 (execute_missing_or_unknown_severity
                    ∅ (<["severity" := VStr "debug"]> info_alert) fresh_world)
             (VStr "debug")).
    + vm_compute. reflexivity.
    + discriminate.
    + discriminate.
    + discriminate.
Defined.

(** C10 as the specification words it does not hold for every alert
    without a severity: on [{"name": "CPU load"}] the INFO handler raises
    [KeyError] on the missing value, and the topic branch does not run
    although the name contains "CPU". *)
Lemma execute_missing_severity_skips_topic :
  bare_alert !! "severity" = None
  ∧ bare_alert !! "name" = Some (VStr "CPU load")
  ∧ is_substring "CPU" "CPU load" = true
  ∧ execute ∅ bare_alert fresh_world =
      (Raise (KeyError "current_value"),
       add_event (Print "INFO: {}" [VStr "CPU load"]) fresh_world)
  ∧ cpu_hook ∉ trace (execute ∅ bare_alert fresh_world).2.
Proof.
  assert (He : execute ∅ bare_alert fresh_world =
      (Raise (KeyError "current_value"),
       add_event (Print "INFO: {}" [VStr "CPU load"]) fresh_world))
    by (vm_compute; reflexivity).
  repeat split; try (vm_compute; reflexivity).
  rewrite He. simpl. rewrite !not_elem_of_cons.
  repeat split; try discriminate. apply not_elem_of_nil.
Qed.

(** *** The history file *)

Lemma length_last_n {A} n (l : list A) :
  length (last_n n l) = min (length l) n.
Proof. unfold last_n. rewrite length_drop. lia. Qed.

Lemma last_n_short {A} n (l : list A) : length l ≤ n → last_n n l = l.
Proof.
  intros H. unfold last_n.
  replace (length l - n) with 0 by lia. reflexivity.
Qed.

(** Trimming, appending and trimming again is trimming once. *)
Lemma last_n_app_last_n {A} n (l k : list A) :
  last_n n (last_n n l ++ k) = last_n n (l ++ k).
Proof.
  destruct (decide (length l ≤ n)) as [Hle | Hgt].
  - rewrite (last_n_short n l Hle). reflexivity.
  - unfold last_n. rewrite !length_app, length_drop.
    replace (length l - (length l - n) + length k - n) with (length k) by lia.
    replace (length l + length k - n) with ((length l - n) + length k) by lia.
    rewrite <- drop_drop. f_equal.
    rewrite drop_app_le by lia. reflexivity.
Qed.

(** [history[-n:]] is the last [n] elements. *)
Lemma slice_from_last_n {A} (n : Z) (l : list A) :
  (0 < n)%Z → slice_from (- n) l = last_n (Z.to_nat n) l.
Proof.
  intros Hn. unfold slice_from, last_n.
  replace (- n <? 0)%Z with true by (symmetry; apply Z.ltb_lt; lia).
  f_equal. lia.
Qed.

(** The "keep only last 1000 alerts" step of [_save_to_history]. *)
Lemma trim_last_n {A} (l : list A) :
  (if 1000 <? length l then slice_from (-1000) l else l) = last_n 1000 l.
Proof.
  destruct (1000 <? length l) eqn:H.
  - apply (slice_from_last_n 1000). lia.
  - apply Nat.ltb_ge in H. symmetry. apply last_n_short. exact H.
Qed.

Lemma load_history_run w : load_history w = (Ok (stored w), w).
Proof.
  unfold load_history, stored, mbind, act_bind, exists_history_file,
    try_except, json_load.
  destruct (history_file w) as [[| history] |] eqn:Hf; cbn;
    rewrite ?Hf; reflexivity.
Qed.

(** One append: the record joins the stored history, of which the last
    1000 records are written back; when the file cannot be written the
    failure is printed and the file keeps its content. *)
Lemma save_to_history_run alert w record :
  history_record (now w) alert = Some record →
  _save_to_history alert w =
    if writable w
    then (Ok (), set_history_file
                   (Some (Json (last_n 1000 (stored w ++ [record])))) w)
    else (Ok (), add_event (Print "   Failed to save alert history: {}" []) w).
Proof.
  unfold history_record. intros Hr.
  destruct (alert !! "name") as [name |] eqn:Hn; [| discriminate Hr].
  destruct (alert !! "severity") as [sev |] eqn:Hs; [| discriminate Hr].
  destruct (alert !! "current_value") as [value |] eqn:Hv; [| discriminate Hr].
  simpl in Hr. injection Hr as <-.
  unfold _save_to_history.
  rewrite (act_bind_ok _ _ _ _ _ (load_history_run w)).
  unfold clock. unfold mbind at 1, act_bind at 1.
  rewrite item_world, Hn, item_world, Hs, item_world, Hv.
  rewrite trim_last_n.
  unfold try_except, json_dump. destruct (writable w); reflexivity.
Qed.

Lemma stored_set_history_file history w :
  stored (set_history_file (Some (Json history)) w) = history.
Proof. reflexivity. Qed.

Lemma save_all_cons stamp alert entries w :
  save_all ((stamp, alert) :: entries) w =
    match _save_to_history alert (set_now stamp w) with
    | (Ok _, w') => save_all entries w'
    | (Raise e, w') => (Raise e, w')
    end.
Proof. reflexivity. Qed.

(** Appending a run of alerts to a history within the bound. *)
Lemma save_all_bounded entries : ∀ records w,
  writable w = true →
  Forall2 (λ e r, history_record e.1 e.2 = Some r) entries records →
  length (stored w) ≤ 1000 →
  (save_all entries w).1 = Ok ()
  ∧ stored (save_all entries w).2 = last_n 1000 (stored w ++ records).
Proof.
  induction entries as [| [stamp alert] entries IH];
    intros records w Hw Hall Hlen.
  - inversion Hall; subst. simpl. rewrite app_nil_r.
    split; [reflexivity |]. symmetry. apply last_n_short. exact Hlen.
  - inversion Hall as [| e r es rs Hr Hrest]; subst. simpl in Hr.
    rewrite save_all_cons.
    assert (Hrun := save_to_history_run alert (set_now stamp w) r Hr).
    cbn [writable set_now] in Hrun. rewrite Hw in Hrun. rewrite Hrun.
    destruct (IH rs (set_history_file
                       (Some (Json (last_n 1000
                          (stored (set_now stamp w) ++ [r]))))
                       (set_now stamp w))) as [Hok Hst].
    + exact Hw.
    + exact Hrest.
    + rewrite stored_set_history_file, length_last_n. lia.
    + split; [exact Hok |]. rewrite Hst, stored_set_history_file.
      change (stored (set_now stamp w)) with (stored w).
      rewrite last_n_app_last_n, <- app_assoc. reflexivity.
Qed.

(** The same from any history, once one record at least is appended. *)
Lemma save_all_run entries records w :
  writable w = true →
  Forall2 (λ e r, history_record e.1 e.2 = Some r) entries records →
  entries ≠ [] ∨ length (stored w) ≤ 1000 →
  (save_all entries w).1 = Ok ()
  ∧ stored (save_all entries w).2 = last_n 1000 (stored w ++ records).
Proof.
  intros Hw Hall [Hne | Hlen]; [| apply save_all_bounded; assumption].
  destruct Hall as [| [stamp alert] r entries records Hr Hrest];
    [contradiction |].
  simpl in Hr. rewrite save_all_cons.
  assert (Hrun := save_to_history_run alert (set_now stamp w) r Hr).
  cbn [writable set_now] in Hrun. rewrite Hw in Hrun. rewrite Hrun.
  destruct (save_all_bounded entries records
              (set_history_file
                 (Some (Json (last_n 1000 (stored (set_now stamp w) ++ [r]))))
                 (set_now stamp w))) as [Hok Hst].
  - exact Hw.
  - exact Hrest.
  - rewrite stored_set_history_file, length_last_n. lia.
  - split; [exact Hok |]. rewrite Hst, stored_set_history_file.
    change (stored (set_now stamp w)) with (stored w).
    rewrite last_n_app_last_n, <- app_assoc. reflexivity.
Qed.

(** C4. In a world whose history file can be written, appending the
    records of a run of alerts one at a time, from any stored history
    (one append at least, or a history already within the bound): every
    append succeeds, the stored history is then the last 1000 records of
    the old history followed by the new records, in that order, and its
    length is the smaller of 1000 and the total number of records. *)
Theorem save_to_history_keeps_last_1000 entries records w :
  writable w = true →
  Forall2 (λ e r, history_record e.1 e.2 = Some r) entries records →
  entries ≠ [] ∨ length (stored w) ≤ 1000 →
  (save_all entries w).1 = Ok ()
  ∧ stored (save_all entries w).2 = last_n 1000 (stored w ++ records)
  ∧ length (stored (save_all entries w).2)
    = min (length entries + length (stored w)) 1000.
Proof.
  intros Hw Hall Hc.
  destruct (save_all_run entries records w Hw Hall Hc) as [Hok Hst].
  split; [exact Hok |]. split; [exact Hst |].
  rewrite Hst, length_last_n, length_app.
  rewrite (Forall2_length _ _ _ Hall). lia.
Qed.

Lemma save_to_history_keeps_last_1000_witness :
  (save_all three_entries fresh_world).1 = Ok ()
  ∧ stored (save_all three_entries fresh_world).2
    = last_n 1000 (stored fresh_world ++ three_records)
  ∧ length (stored (save_all three_entries fresh_world).2)
    = min (length three_entries + length (stored fresh_world)) 1000.
Proof.
  apply (save_to_history_keeps_last_1000 three_entries three_records
           fresh_world).
  - reflexivity.
  - repeat constructor; vm_compute; reflexivity.
  - left. discriminate.
Defined.

Lemma history_record_fields stamp alert name severity value :
  alert !! "name" = Some name → alert !! "severity" = Some severity →
  alert !! "current_value" = Some value →
  history_record stamp alert = Some (record_at stamp name severity value).
Proof.
  intros Hn Hs Hv. unfold history_record. rewrite Hn, Hs, Hv. reflexivity.
Qed.

(** The example of the specification: 1050 appends to an absent history
    leave the records of appends 50 to 1049, in that order. *)
Lemma save_1050_from_empty (stamp : nat → string) alert name severity value w :
  alert !! "name" = Some name → alert !! "severity" = Some severity →
  alert !! "current_value" = Some value →
  writable w = true → history_file w = None →
  stored (save_all (map (λ i, (stamp i, alert)) (seq 0 1050)) w).2
    = map (λ i, record_at (stamp i) name severity value) (seq 50 1000)
  ∧ length (stored (save_all (map (λ i, (stamp i, alert)) (seq 0 1050)) w).2)
    = 1000.
Proof.
  intros Hn Hs Hv Hw Hf.
  destruct (save_all_run
              (map (λ i, (stamp i, alert)) (seq 0 1050))
              (map (λ i, record_at (stamp i) name severity value) (seq 0 1050))
              w Hw) as [_ Hst].
  - apply Forall2_fmap, Forall_Forall2_diag, Forall_forall.
    intros i _. simpl. apply history_record_fields; assumption.
  - left. discriminate.
  - assert (Hsw : stored w = []) by (unfold stored; rewrite Hf; reflexivity).
    rewrite Hst, Hsw, app_nil_l.
    unfold last_n. rewrite length_map, length_seq.
    change (1050 - 1000) with 50.
    split.
    + rewrite skipn_map. reflexivity.
    + rewrite length_drop, length_map, length_seq. reflexivity.
Qed.

(** *** A critical alert with email disabled *)

Lemma send_email_disabled config alert w :
  email_disabled config → _send_email config alert w = (Ok (), w).
Proof.
  intros (d & Hd & Hoff). unfold _send_email. rewrite Hd.
  unfold get, lift, mbind, act_bind. rewrite Hoff. reflexivity.
Qed.

Lemma send_email_disabled_emits config alert :
  email_disabled config →
  preserves (emits is_local) (_send_email config alert).
Proof.
  intros Hoff. apply preserves_reader; [typeclasses eauto |].
  intros w. rewrite (send_email_disabled _ _ _ Hoff). reflexivity.
Qed.

Lemma handle_critical_emits config alert :
  email_disabled config →
  preserves (emits is_local) (_handle_critical config alert).
Proof.
  intros Hoff. unfold _handle_critical, logging, print.
  frame_with ltac:(first [ apply save_to_history_emits
                         | apply system_notification_emits
                         | apply send_email_disabled_emits; exact Hoff ]).
Qed.

(** The critical handler up to the desktop notification, on an alert with
    its three keys, email disabled and a writable history file. *)
Lemma handle_critical_run config alert name value w record :
  alert !! "name" = Some name → alert !! "current_value" = Some value →
  history_record (now w) alert = Some record →
  email_disabled config → writable w = true →
  _handle_critical config alert w =
    _system_notification alert
      (set_history_file (Some (Json (last_n 1000 (stored w ++ [record]))))
         (add_event (Log CRITICAL name value)
            (add_event (Print "   Current Value: {}" [value])
               (add_event (Print "CRITICAL ALERT: {}" [name]) w)))).
Proof.
  intros Hn Hv Hr Hoff Hw. unfold _handle_critical, logging, print, emit.
  rewrite item_world, Hn. unfold mbind at 1, act_bind at 1.
  rewrite item_world, Hv. unfold mbind at 1, act_bind at 1.
  unfold mbind at 1, act_bind at 1.
  rewrite item_world, Hn. rewrite item_world, Hv.
  unfold mbind at 1, act_bind at 1.
  rewrite (send_email_disabled _ _ _ Hoff).
  unfold mbind at 1, act_bind at 1.
  rewrite (save_to_history_run alert _ record) by exact Hr.
  cbn [writable add_event]. rewrite Hw. reflexivity.
Qed.

(** C6. An alert of severity ["critical"] with its name and value,
    email delivery disabled, a history file that can be written:
    [execute] appends the alert's record to the stored history (the file
    then holds the last 1000 records), and emits nothing over the network
    (no SMTP session is opened). *)
Theorem execute_critical_email_disabled config alert name value w :
  alert !! "severity" = Some (VStr "critical") →
  alert !! "name" = Some name →
  alert !! "current_value" = Some value →
  email_disabled config →
  writable w = true →
  history_file (execute config alert w).2 =
    Some (Json (last_n 1000
            (stored w ++ [record_at (now w) name (VStr "critical") value])))
  ∧ emits is_local w (execute config alert w).2.
Proof.
  intros Hs Hn Hv Hoff Hw.
  assert (Hr := history_record_fields (now w) alert _ _ _ Hn Hs Hv).
  assert (Hb : severity_branch config alert = _handle_critical config alert)
    by (unfold severity_branch; rewrite Hs; reflexivity).
  split.
  - rewrite execute_unfold, Hb.
    rewrite (handle_critical_run _ _ _ _ _ _ Hn Hv Hr Hoff Hw).
    match goal with |- context [_system_notification alert ?w4] =>
      pose proof (system_notification_same_history alert w4) as Hsys;
      destruct (_system_notification alert w4) as [[[] | e] w5]
    end; simpl in Hsys.
    + rewrite (topic_branch_same_history alert w5). exact Hsys.
    + exact Hsys.
  - unfold execute. apply (preserves_bind (emits is_local)).
    + rewrite Hb. apply handle_critical_emits. exact Hoff.
    + intros _ w0. eapply emits_weaken; [apply is_print_local |].
      apply topic_branch_emits.
Qed.

Lemma execute_critical_email_disabled_witness :
  history_file (execute ∅ critical_alert fresh_world).2 =
    Some (Json (last_n 1000
            (stored fresh_world ++
             [record_at (now fresh_world) (VStr "Critical CPU Usage")
                        (VStr "critical") (VFloat f97_5)])))
  ∧ emits is_local fresh_world (execute ∅ critical_alert fresh_world).2.
Proof.
  apply (execute_critical_email_disabled ∅ critical_alert
           (VStr "Critical CPU Usage") (VFloat f97_5) fresh_world).
  - vm_compute. reflexivity.
  - vm_compute. reflexivity.
  - vm_compute. reflexivity.
  - exists ∅. split; vm_compute; reflexivity.
  - reflexivity.
Defined.

(** With email enabled the same alert opens an SMTP session. *)
Example execute_critical_email_enabled :
  let config : gmap string pyval :=
    {[ "email" := VDict {[ "enabled" := VBool true;
                           "smtp_server" := VStr "smtp.example.com";
                           "smtp_port" := VInt 587;
                           "sender_email" := VStr "a@example.com";
                           "sender_password" := VStr "secret";
                           "recipient_email" := VStr "b@example.com" ]} ]} in
  Exists is_network (trace (execute config critical_alert fresh_world).2).
Proof.
  vm_compute. repeat (first [apply Exists_cons_hd; exact I | apply Exists_cons_tl]).
Qed.

(** *** Reading the history *)

Lemma get_alert_history_run limit w :
  get_alert_history limit w =
    match history_file w with
    | None => (Ok [], w)
    | Some Corrupt =>
        (Ok [], add_event (Print "Error reading history: {}" []) w)
    | Some (Json history) =>
        (Ok (if negb (limit =? 0)%Z then slice_from (- limit) history
             else history), w)
    end.
Proof.
  unfold get_alert_history, mbind, act_bind, exists_history_file,
    try_except, json_load.
  destruct (history_file w) as [[| history] |] eqn:Hf; cbn;
    rewrite ?Hf; reflexivity.
Qed.

(** C9. [get_alert_history] with [limit = 0] returns the whole stored
    history; with a positive [limit] it returns the last [limit] records,
    all of them when fewer are stored; without a history file it returns
    the empty list. The file is left as it was. *)
Theorem get_alert_history_limit w :
  (get_alert_history 0 w).1 = Ok (stored w)
  ∧ (∀ limit, (0 < limit)%Z →
       (get_alert_history limit w).1 = Ok (last_n (Z.to_nat limit) (stored w))
       ∧ length (last_n (Z.to_nat limit) (stored w))
         = min (length (stored w)) (Z.to_nat limit))
  ∧ (history_file w = None → ∀ limit, get_alert_history limit w = (Ok [], w))
  ∧ (∀ limit, history_file (get_alert_history limit w).2 = history_file w).
Proof.
  repeat split.
  - rewrite get_alert_history_run. unfold stored.
    destruct (history_file w) as [[| history] |]; reflexivity.
  - rewrite get_alert_history_run. unfold stored.
    destruct (history_file w) as [[| history] |]; try reflexivity.
    replace (limit =? 0)%Z with false by (symmetry; apply Z.eqb_neq; lia).
    simpl. rewrite slice_from_last_n by assumption. reflexivity.
  - apply length_last_n.
  - intros Hf limit. rewrite get_alert_history_run, Hf. reflexivity.
  - intros limit. rewrite get_alert_history_run.
    destruct (history_file w) as [[| history] |] eqn:Hf; simpl;
      rewrite ?Hf; reflexivity.
Qed.

Lemma get_alert_history_limit_witness :
  (get_alert_history 2 (save_all three_entries fresh_world).2).1
    = Ok (last_n 2 (stored (save_all three_entries fresh_world).2))
  ∧ get_alert_history 5 fresh_world = (Ok [], fresh_world).
Proof.
  split.
  - apply (proj1 (proj1 (proj2 (get_alert_history_limit
                           (save_all three_entries fresh_world).2)) 2%Z
                   ltac:(lia))).
  - apply (proj1 (proj2 (proj2 (get_alert_history_limit fresh_world)))).
    reflexivity.
Defined.

End ActionsFacts.

(** ** More on the rule engine *)

Section RulesMore.
Import Py Rules Actions Spec Startup Terms.

(** X1. [_get_nested_value] finds exactly what the dotted path resolves
    to; it gives [None] otherwise, that is when a key is missing or a
    value on the way is not a dictionary. *)
Theorem get_nested_value_resolves data path v :
  _get_nested_value data path = v ↔
  resolves data (split_on "." path) v
  ∨ (v = VNone ∧ ∀ u, ¬ resolves data (split_on "." path) u).
Proof.
  unfold _get_nested_value. split.
  - intros <-.
    destruct (get_nested_loop_cases data (split_on "." path)) as [H | [H1 H2]].
    + left. exact H.
    + right. split; [exact H2 | exact H1].
  - intros [H | [-> H]].
    + apply get_nested_loop_resolves. exact H.
    + apply get_nested_loop_unresolved. exact H.
Qed.

(** [float] raises nothing but [ValueError]. *)
Lemma parse_float_raises s e : parse_float s = Raise e → e = ValueError.
Proof.
  unfold parse_float.
  destruct (drop_underscores _ _) as [s' |]; [| congruence].
  destruct (take_sign s') as [neg body].
  destruct (_ || _); [discriminate |].
  destruct (String.eqb _ _); [discriminate |].
  destruct (decimal neg body); congruence.
Qed.

Lemma operators_cases op :
  (op = ">" ∧ operators !! op = Some gt) ∨ (op = "<" ∧ operators !! op = Some lt)
  ∨ (op = ">=" ∧ operators !! op = Some ge)
  ∨ (op = "<=" ∧ operators !! op = Some le)
  ∨ (op = "==" ∧ operators !! op = Some eq)
  ∨ (op = "!=" ∧ operators !! op = Some ne)
  ∨ ((op ∉ supported) ∧ operators !! op = None).
Proof.
  destruct (decide (op ∈ supported)) as [Hin | Hout].
  - apply supported_spec in Hin.
    destruct Hin as [-> | [-> | [-> | [-> | [-> | ->]]]]]; auto 10.
  - do 6 right. split; [exact Hout | apply operators_unknown; exact Hout].
Qed.

Lemma ordering_raises holds v t e :
  ordering holds v t = Raise e → e = TypeError ∧ is_numeric v = false.
Proof.
  unfold ordering. destruct v; simpl; intros H; try discriminate;
    injection H as <-; auto.
Qed.

Lemma eq_returns v t : ∃ b, eq v t = Ok b.
Proof. unfold eq. destruct (num_compare v t) as [[[] |] |]; eauto. Qed.

Lemma ne_returns v t : ∃ b, ne v t = Ok b.
Proof. unfold ne. destruct (num_compare v t) as [[[] |] |]; eauto. Qed.

Lemma ordering_on_other holds v t :
  is_numeric v = false → ordering holds v t = Raise TypeError.
Proof. intros H. unfold ordering. rewrite (num_compare_other _ _ H). reflexivity. Qed.

(** X2. The exceptions of [evaluate]: it raises only on a condition of
    three tokens, [ValueError] when the threshold token is no float
    literal (whatever the path and the operator), and otherwise
    [TypeError] when one of [>], [<], [>=], [<=] meets a leaf that is
    neither a number nor [None]. *)
Theorem evaluate_raises_iff cond stats e :
  evaluate cond stats = Raise e ↔
  ∃ path op thr,
    split cond = [path; op; thr]
    ∧ ((parse_float thr = Raise ValueError ∧ e = ValueError)
       ∨ (∃ t, parse_float thr = Ok t ∧ e = TypeError
               ∧ op ∈ ordering_operators
               ∧ is_numeric (_get_nested_value stats path) = false
               ∧ _get_nested_value stats path ≠ VNone)).
Proof.
  split.
  - intros He.
    destruct (decide (length (split cond) = 3)) as [Hl | Hl];
      [| rewrite (evaluate_token_count _ _ Hl) in He; discriminate].
    destruct (split cond) as [| path [| op [| thr [| x l]]]] eqn:Hs;
      try discriminate.
    exists path, op, thr. split; [reflexivity |].
    destruct (parse_float thr) as [t | e'] eqn:Ht.
    + right. exists t. split; [reflexivity |].
      rewrite (evaluate_three_tokens _ _ _ _ _ _ Hs Ht) in He.
      cbv zeta in He.
      destruct (is_None (_get_nested_value stats path)) eqn:Hn;
        [discriminate |].
      assert (Hnone : _get_nested_value stats path ≠ VNone)
        by (intros Hv; rewrite Hv in Hn; discriminate).
      unfold ordering_operators. rewrite !elem_of_cons.
      destruct (operators_cases op)
        as [[-> Ho] | [[-> Ho] | [[-> Ho] | [[-> Ho] | [[-> Ho]
            | [[-> Ho] | [Hout Ho]]]]]]];
        rewrite Ho in He.
      * apply ordering_raises in He as [-> Hnum]. auto 10.
      * apply ordering_raises in He as [-> Hnum]. auto 10.
      * apply ordering_raises in He as [-> Hnum]. auto 10.
      * apply ordering_raises in He as [-> Hnum]. auto 10.
      * destruct (eq_returns (_get_nested_value stats path) t) as [b Hb].
        congruence.
      * destruct (ne_returns (_get_nested_value stats path) t) as [b Hb].
        congruence.
      * discriminate.
    + left. pose proof (parse_float_raises _ _ Ht) as ->.
      split; [reflexivity |].
      unfold evaluate in He. rewrite Hs, Ht in He. simpl in He. congruence.
  - intros (path & op & thr & Hs & [[Ht ->] | (t & Ht & -> & Hop & Hnum & Hnone)]).
    + unfold evaluate. rewrite Hs, Ht. reflexivity.
    + rewrite (evaluate_three_tokens _ _ _ _ _ _ Hs Ht). cbv zeta.
      assert (Hn : is_None (_get_nested_value stats path) = false)
        by (destruct (_get_nested_value stats path); try reflexivity;
            contradiction).
      rewrite Hn.
      unfold ordering_operators in Hop.
      rewrite !elem_of_cons, elem_of_nil in Hop.
      destruct Hop as [-> | [-> | [-> | [-> | []]]]].
      * rewrite operators_gt. apply ordering_on_other. exact Hnum.
      * rewrite operators_lt. apply ordering_on_other. exact Hnum.
      * rewrite operators_ge. apply ordering_on_other. exact Hnum.
      * rewrite operators_le. apply ordering_on_other. exact Hnum.
Qed.

(** X3. A leaf that is neither a number nor [None] (a string, a list, a
    dictionary) is compared as it is: [==] against the threshold is
    false and [!=] is true, so a rule written with [!=] fires on it. *)
Theorem evaluate_equality_on_other_leaf cond stats path op thr t :
  split cond = [path; op; thr] →
  parse_float thr = Ok t →
  is_numeric (_get_nested_value stats path) = false →
  _get_nested_value stats path ≠ VNone →
  (op = "==" → evaluate cond stats = Ok false)
  ∧ (op = "!=" → evaluate cond stats = Ok true).
Proof.
  intros Hs Ht Hnum Hnone.
  rewrite (evaluate_three_tokens _ _ _ _ _ _ Hs Ht). cbv zeta.
  assert (Hn : is_None (_get_nested_value stats path) = false)
    by (destruct (_get_nested_value stats path); try reflexivity; contradiction).
  rewrite Hn.
  split; intros ->.
  - rewrite operators_eq. unfold eq.
    rewrite (num_compare_other _ _ Hnum). reflexivity.
  - rewrite operators_ne. unfold ne.
    rewrite (num_compare_other _ _ Hnum). reflexivity.
Qed.

Lemma evaluate_equality_on_other_leaf_witness :
  ("!=" = "==" → evaluate "temp.status != 0" mixed_snapshot = Ok false)
  ∧ ("!=" = "!=" → evaluate "temp.status != 0" mixed_snapshot = Ok true).
Proof.
  apply (evaluate_equality_on_other_leaf "temp.status != 0" mixed_snapshot
           "temp.status" "!=" "0" (S754_zero false)).
  - vm_compute. reflexivity.
  - vm_compute. reflexivity.
  - vm_compute. reflexivity.
  - vm_compute. discriminate.
Defined.

(** *** The pass of [check] over the store *)

Lemma extract_after_true cond stats :
  evaluate cond stats = Ok true →
  extract_value cond stats
    = Ok (display (_get_nested_value stats (metric_path cond)))
  ∧ display (_get_nested_value stats (metric_path cond)) ≠ VNone.
Proof.
  intros He. destruct (evaluate_true_tokens _ _ He) as (path & op & thr & Hs).
  rewrite (extract_value_display _ _ _ _ Hs).
  unfold metric_path. rewrite Hs. simpl hd. split; [reflexivity |].
  unfold evaluate in He. rewrite Hs in He.
  destruct (parse_float thr) as [t |]; [| discriminate].
  simpl in He.
  destruct (_get_nested_value stats path); simpl in *; discriminate.
Qed.

Lemma check_loop_cons id r items stats acc :
  check_loop ((id, r) :: items) stats acc =
    match evaluate (condition r) stats with
    | Ok true =>
        check_loop items stats (acc ++ [alert_of stats r])
    | Ok false => check_loop items stats acc
    | Raise e => Raise e
    end.
Proof.
  cbn [check_loop].
  destruct (evaluate (condition r) stats) as [[] | e] eqn:He;
    try reflexivity.
  rewrite bind_ok.
  destruct (extract_after_true _ _ He) as [-> _]. reflexivity.
Qed.

(** X4. [check] raises exactly when some rule raises, and then with the
    exception of the first such rule in the order of the store: the
    rules after it are not looked at, and the alerts found before it are
    lost. *)
Theorem check_raises_iff rules stats e :
  check rules stats = Raise e ↔
  ∃ pre id r post,
    rules = pre ++ (id, r) :: post
    ∧ Forall (evaluates stats) pre
    ∧ evaluate (condition r) stats = Raise e.
Proof.
  unfold check. generalize (@nil alert) as acc.
  induction rules as [| [id0 r0] rules IH]; intros acc.
  - split; [discriminate |].
    intros (pre & id & r & post & H & _). destruct pre; discriminate H.
  - rewrite check_loop_cons.
    destruct (evaluate (condition r0) stats) as [b | e0] eqn:He.
    + assert (Hok : evaluates stats (id0, r0)) by (exists b; exact He).
      assert (IH' : ∀ acc', check_loop rules stats acc' = Raise e ↔
                ∃ pre id r post, (id0, r0) :: rules = pre ++ (id, r) :: post
                  ∧ Forall (evaluates stats) pre
                  ∧ evaluate (condition r) stats = Raise e).
      { intros acc'. rewrite IH. split.
        - intros (pre & id & r & post & -> & Hpre & Hr).
          exists ((id0, r0) :: pre), id, r, post.
          split; [reflexivity |]. split; [constructor; assumption | exact Hr].
        - intros (pre & id & r & post & Heq & Hpre & Hr).
          destruct pre as [| x pre]; simpl in Heq; inversion Heq; subst.
          + congruence.
          + exists pre, id, r, post.
            split; [reflexivity |]. inversion Hpre; subst. auto. }
      destruct b; apply IH'.
    + split.
      * intros [= ->]. exists [], id0, r0, rules. auto.
      * intros (pre & id & r & post & Heq & Hpre & Hr).
        destruct pre as [| x pre]; simpl in Heq; inversion Heq; subst.
        -- congruence.
        -- inversion Hpre as [| ? ? [b Hb] _]; subst.
           simpl in Hb. congruence.
Qed.

Lemma check_returns_evaluates rules stats alerts :
  check rules stats = Ok alerts → Forall (evaluates stats) rules.
Proof.
  unfold check. generalize (@nil alert) as acc.
  induction rules as [| [id r] rules IH]; intros acc H; [constructor |].
  rewrite check_loop_cons in H.
  destruct (evaluate (condition r) stats) as [b | e] eqn:He;
    [| discriminate].
  constructor; [exists b; exact He |].
  destruct b; eapply IH; exact H.
Qed.

Lemma make_alert_name n s v : make_alert n s v !! "name" = Some (VStr n).
Proof. reflexivity. Qed.

Lemma make_alert_severity n s v :
  make_alert n s v !! "severity" = Some (VStr s).
Proof. reflexivity. Qed.

Lemma make_alert_value n s v : make_alert n s v !! "current_value" = Some v.
Proof. reflexivity. Qed.

(** X5. What [check] returns when it returns: no rule raised; the list
    is the alerts of the rules whose condition is true, so it is no
    longer than the store; and each alert has the three keys, the name
    and the severity being those of its rule and the value not [None]. *)
Theorem check_returns_alerts rules stats alerts :
  check rules stats = Ok alerts →
  alerts = map (alert_of stats)
             (List.filter (triggered stats) (map snd rules))
  ∧ length alerts ≤ length rules
  ∧ Forall (λ a, ∃ id r v,
               (id, r) ∈ rules ∧ evaluate (condition r) stats = Ok true
               ∧ a !! "name" = Some (VStr (name r))
               ∧ a !! "severity" = Some (VStr (severity r))
               ∧ a !! "current_value" = Some v ∧ v ≠ VNone) alerts.
Proof.
  intros Hc.
  pose proof (check_returns_evaluates _ _ _ Hc) as Hall.
  pose proof (check_loop_spec stats rules [] Hall) as Heq.
  unfold check in Hc. rewrite Hc in Heq. injection Heq as ->.
  split; [reflexivity |]. split.
  - rewrite length_map.
    etransitivity; [apply filter_length_le |]. rewrite length_map. reflexivity.
  - apply Forall_forall. intros a Ha. apply list_elem_of_In in Ha.
    apply in_map_iff in Ha as (r & <- & Hr).
    apply filter_In in Hr as [Hin Htrig].
    apply in_map_iff in Hin as ([id r'] & Hr' & Hin). simpl in Hr'. subst r'.
    assert (He : evaluate (condition r) stats = Ok true).
    { unfold triggered in Htrig.
      destruct (evaluate (condition r) stats) as [[] |]; congruence. }
    exists id, r, (display (_get_nested_value stats (metric_path (condition r)))).
    split; [apply list_elem_of_In; exact Hin |]. split; [exact He |].
    unfold alert_of.
    rewrite make_alert_name, make_alert_severity, make_alert_value.
    repeat split. apply (extract_after_true _ _ He).
Qed.

Lemma check_returns_alerts_witness :
  [make_alert "High CPU Usage" "warning" (VFloat f97_5);
   make_alert "Critical CPU Usage" "critical" (VFloat f97_5)]
  = map (alert_of cpu_snapshot)
        (List.filter (triggered cpu_snapshot) (map snd cpu_rules))
  ∧ 2 ≤ length cpu_rules.
Proof.
  destruct (check_returns_alerts cpu_rules cpu_snapshot
              [make_alert "High CPU Usage" "warning" (VFloat f97_5);
               make_alert "Critical CPU Usage" "critical" (VFloat f97_5)])
    as (H1 & H2 & _).
  - vm_compute. reflexivity.
  - split; [exact H1 | exact H2].
Defined.

(** *** The default rules *)

(** Above a positive threshold is above any smaller threshold of the same
    binary exponent. *)
Lemma gt_weaker_threshold v (m1 m2 : positive) e :
  (m2 ≤ m1)%positive →
  gt v (S754_finite false m1 e) = Ok true →
  gt v (S754_finite false m2 e) = Ok true.
Proof.
  intros Hm. unfold gt, ordering.
  assert (HZ : ∀ z, match Zcompare z (S754_finite false m1 e) with
                    | Some Gt => true | _ => false end = true →
                    match Zcompare z (S754_finite false m2 e) with
                    | Some Gt => true | _ => false end = true).
  { intros z. unfold Zcompare. cbn [cond_Zopp].
    destruct (0 <=? e)%Z eqn:He.
    - apply Z.leb_le in He.
      destruct (z ?= Z.pos m1 * 2 ^ e)%Z eqn:H1; try discriminate.
      intros _. apply Z.compare_gt_iff in H1.
      assert (H2 : (z ?= Z.pos m2 * 2 ^ e)%Z = Gt).
      { apply Z.compare_gt_iff.
        assert (0 < 2 ^ e)%Z by (apply Z.pow_pos_nonneg; lia). nia. }
      rewrite H2. reflexivity.
    - destruct (z * 2 ^ (- e) ?= Z.pos m1)%Z eqn:H1; try discriminate.
      intros _. apply Z.compare_gt_iff in H1.
      assert (H2 : (z * 2 ^ (- e) ?= Z.pos m2)%Z = Gt)
        by (apply Z.compare_gt_iff; lia).
      rewrite H2. reflexivity. }
  destruct v as [| b | z | f | s | l | d]; cbn [num_compare];
    try discriminate.
  - intros H. injection H as H. rewrite (HZ _ H). reflexivity.
  - intros H. injection H as H. rewrite (HZ _ H). reflexivity.
  - destruct f as [s | [] | | [] m' e']; simpl; try discriminate;
      try (intros _; reflexivity).
    destruct (e' ?= e)%Z; try discriminate; try (intros _; reflexivity).
    destruct (Pos.compare_cont Eq m' m1) eqn:H1; try discriminate.
    intros _. change (Pos.compare_cont Eq m' m1) with (m' ?= m1)%positive in H1.
    apply Pos.compare_gt_iff in H1.
    assert (H2 : Pos.compare_cont Eq m' m2 = Gt)
      by (change (Pos.compare_cont Eq m' m2) with (m' ?= m2)%positive;
          apply Pos.compare_gt_iff; lia).
    rewrite H2. reflexivity.
Qed.

Lemma evaluate_gt_weaker stats path thr1 thr2 c1 c2 m1 m2 e :
  split c1 = [path; ">"; thr1] → split c2 = [path; ">"; thr2] →
  parse_float thr1 = Ok (S754_finite false m1 e) →
  parse_float thr2 = Ok (S754_finite false m2 e) →
  (m2 ≤ m1)%positive →
  triggered stats (Rule "" c1 "") = true →
  evaluate c2 stats = Ok true.
Proof.
  intros Hs1 Hs2 H1 H2 Hm. unfold triggered. simpl condition.
  rewrite (evaluate_three_tokens _ _ _ _ _ _ Hs1 H1).
  rewrite (evaluate_three_tokens _ _ _ _ _ _ Hs2 H2).
  cbv zeta. destruct (is_None (_get_nested_value stats path)); [discriminate |].
  rewrite operators_gt. intros H. apply (gt_weaker_threshold _ m1 m2 e Hm).
  destruct (gt (_get_nested_value stats path) (S754_finite false m1 e))
    as [[] |]; congruence.
Qed.

(** X6. In the default store the rules come in pairs on one metric (CPU
    usage 80 and 95, memory 85 and 95, disk 80 and 90): on every snapshot
    on which the higher rule of a pair fires, the lower rule fires too,
    so a critical alert always comes with its warning. *)
Theorem default_rules_thresholds_nest stats lo hi low high :
  (lo, hi) ∈ threshold_pairs →
  default_rules !! lo = Some low → default_rules !! hi = Some high →
  triggered stats high.2 = true → triggered stats low.2 = true.
Proof.
  unfold threshold_pairs. rewrite !elem_of_cons, elem_of_nil.
  intros [[= -> ->] | [[= -> ->] | [[= -> ->] | []]]] [= <-] [= <-] Htrig;
    unfold triggered at 1; simpl condition.
  - rewrite (evaluate_gt_weaker stats "cpu.usage" "95" "80"
               "cpu.usage > 95" "cpu.usage > 80"
               6685030696878080 5629499534213120 (-46));
      [ reflexivity | vm_compute; reflexivity | vm_compute; reflexivity
      | vm_compute; reflexivity | vm_compute; reflexivity
      | vm_compute; discriminate | exact Htrig ].
  - rewrite (evaluate_gt_weaker stats "ram.percent" "95" "85"
               "ram.percent > 95" "ram.percent > 85"
               6685030696878080 5981343255101440 (-46));
      [ reflexivity | vm_compute; reflexivity | vm_compute; reflexivity
      | vm_compute; reflexivity | vm_compute; reflexivity
      | vm_compute; discriminate | exact Htrig ].
  - rewrite (evaluate_gt_weaker stats "disk.percent" "90" "80"
               "disk.percent > 90" "disk.percent > 80"
               6333186975989760 5629499534213120 (-46));
      [ reflexivity | vm_compute; reflexivity | vm_compute; reflexivity
      | vm_compute; reflexivity | vm_compute; reflexivity
      | vm_compute; discriminate | exact Htrig ].
Qed.

Lemma default_rules_thresholds_nest_witness :
  triggered cpu_snapshot
    (Rule "High CPU Usage" "cpu.usage > 80" "warning") = true.
Proof.
  apply (default_rules_thresholds_nest cpu_snapshot 0 1
           ("cpu_high", Rule "High CPU Usage" "cpu.usage > 80" "warning")
           ("cpu_critical",
            Rule "Critical CPU Usage" "cpu.usage > 95" "critical")).
  - unfold threshold_pairs. apply list_elem_of_here.
  - reflexivity.
  - reflexivity.
  - vm_compute. reflexivity.
Defined.

End RulesMore.

(** ** Start-up *)

Section StartupFacts.
Import Py Rules Actions Spec Startup Terms.

Lemma load_rules_run d :
  load_rules d =
    match content d with
    | None =>
        if creatable d
        then (Ok default_rules,
              Disk (Some (Valid default_rules)) true
                   (console d ++
                    [Print "Created default rules file: {}" [VStr "rules.json"]]))
        else (Raise OSError, d)
    | Some Invalid =>
        (Ok [], Disk (Some Invalid) (creatable d)
                     (console d ++ [Print "Error loading rules: {}" []]))
    | Some (Valid rules) => (Ok rules, d)
    end.
Proof.
  destruct d as [[[| rules] |] [] out]; reflexivity.
Qed.

(** X7. [load_rules]: without a rule file it writes the seven default
    rules and returns them, and raises [OSError] when the file cannot be
    created; a rule file that is not JSON gives the empty store and is
    left as it is, so every later load gives the empty store again and
    [check] then finds nothing; in every case loading again returns the
    same rules and leaves the file alone. *)
Theorem load_rules_outcomes d :
  (content d = None →
     load_rules d =
       if creatable d
       then (Ok default_rules,
             Disk (Some (Valid default_rules)) true
                  (console d ++
                   [Print "Created default rules file: {}" [VStr "rules.json"]]))
       else (Raise OSError, d))
  ∧ (content d = Some Invalid →
       (load_rules d).1 = Ok []
       ∧ content (load_rules d).2 = Some Invalid
       ∧ ∀ stats, (load_rules d).1 ≫= (λ rules, check rules stats) = Ok [])
  ∧ (∀ rules d', load_rules d = (Ok rules, d') →
       (load_rules d').1 = Ok rules
       ∧ content (load_rules d').2 = content d').
Proof.
  split; [| split].
  - intros Hc. rewrite load_rules_run, Hc. reflexivity.
  - intros Hc. rewrite load_rules_run, Hc. simpl. auto.
  - intros rules d'. rewrite load_rules_run.
    destruct (content d) as [[| rules0] |] eqn:Hc.
    + intros [= <- <-]. rewrite load_rules_run. simpl. auto.
    + intros [= <- <-]. rewrite load_rules_run, Hc. simpl. auto.
    + destruct (creatable d); [| discriminate].
      intros [= <- <-]. rewrite load_rules_run. simpl. auto.
Qed.

Lemma load_rules_outcomes_witness :
  load_rules (Disk None true []) =
    (Ok default_rules,
     Disk (Some (Valid default_rules)) true
          [Print "Created default rules file: {}" [VStr "rules.json"]])
  ∧ (load_rules (Disk (Some Invalid) false [])).1 = Ok [].
Proof.
  split.
  - apply (proj1 (load_rules_outcomes (Disk None true []))). reflexivity.
  - apply (proj1 (proj2 (load_rules_outcomes (Disk (Some Invalid) false [])))).
    reflexivity.
Defined.

Lemma load_config_run d :
  Startup.load_config d =
    match content d with
    | None =>
        if creatable d
        then (Ok (VDict default_config),
              Disk (Some (Valid (VDict default_config))) true
                   (console d ++
                    [Print "Created default config file: {}"
                           [VStr "actions_config.json"]]))
        else (Raise OSError, d)
    | Some Invalid =>
        (Ok (VDict ∅), Disk (Some Invalid) (creatable d)
                            (console d ++ [Print "Error loading config: {}" []]))
    | Some (Valid doc) => (Ok doc, d)
    end.
Proof.
  destruct d as [[[| doc] |] [] out]; reflexivity.
Qed.

Lemma default_config_email_disabled : email_disabled default_config.
Proof.
  eexists. split; [vm_compute; reflexivity |]. vm_compute. reflexivity.
Qed.

Lemma empty_config_email_disabled : email_disabled ∅.
Proof. exists ∅. split; reflexivity. Qed.

(** X8. [load_config] of [Actions], when the configuration file is
    missing or is not JSON: the configuration it returns is a dictionary
    (the defaults, or the empty one) in which email delivery is disabled. *)
Theorem load_config_fallback_disables_email d cfg d' :
  content d = None ∨ content d = Some Invalid →
  Startup.load_config d = (Ok cfg, d') →
  ∃ c, cfg = VDict c ∧ email_disabled c
       ∧ (content d = None → c = default_config)
       ∧ (content d = Some Invalid → c = ∅).
Proof.
  rewrite load_config_run. intros [Hc | Hc]; rewrite Hc.
  - destruct (creatable d); [| discriminate]. intros [= <- <-].
    exists default_config.
    repeat split; auto using default_config_email_disabled. discriminate.
  - intros [= <- <-]. exists ∅.
    repeat split; auto using empty_config_email_disabled. discriminate.
Qed.

Lemma load_config_fallback_disables_email_witness :
  ∃ c, VDict default_config = VDict c ∧ email_disabled c
       ∧ (@None (json_text pyval) = None → c = default_config)
       ∧ (@None (json_text pyval) = Some Invalid → c = ∅).
Proof.
  apply (load_config_fallback_disables_email
           (Disk None true []) (VDict default_config)
           (Disk (Some (Valid (VDict default_config))) true
              [Print "Created default config file: {}"
                     [VStr "actions_config.json"]])).
  - left. reflexivity.
  - reflexivity.
Defined.

End StartupFacts.

(** ** More on the dispatcher *)

Section ActionsMore.
Import Py Rules Actions Spec Startup Terms.

(** *** Relations kept by every emission *)

Lemma preserves_emit R e :
  (∀ w e, R w (add_event e w)) → preserves R (emit e).
Proof. intros H w. apply H. Qed.

Lemma preserves_smtp R command args :
  (∀ w e, R w (add_event e w)) → preserves R (smtp command args).
Proof. intros H w. unfold smtp. destruct (smtp_up w); apply H. Qed.

#[local] Instance quiet_preorder : PreOrder quiet.
Proof.
  split.
  - intros w. repeat split.
  - intros w1 w2 w3 (H1 & H2 & H3) (H4 & H5 & H6).
    unfold quiet. repeat split; congruence.
Qed.

#[local] Instance within_bound_preorder : PreOrder within_bound.
Proof.
  split.
  - intros w. unfold within_bound. lia.
  - intros w1 w2 w3. unfold within_bound. lia.
Qed.

#[local] Instance emits_is_preorder P : PreOrder (emits P).
Proof.
  split.
  - intros w. exists []. rewrite app_nil_r. split; [reflexivity | constructor].
  - intros w1 w2 w3 (n1 & H1 & F1) (n2 & H2 & F2).
    exists (n1 ++ n2). rewrite H2, H1, app_assoc. split; [reflexivity |].
    apply Forall_app. split; assumption.
Qed.

#[local] Instance same_history_is_preorder : PreOrder same_history.
Proof.
  split.
  - intros w. reflexivity.
  - intros w1 w2 w3 H1 H2. unfold same_history in *. congruence.
Qed.

Lemma quiet_add_event w e : quiet w (add_event e w).
Proof. repeat split. Qed.

Lemma same_history_add_event w e : same_history w (add_event e w).
Proof. reflexivity. Qed.

Lemma within_bound_add_event w e : within_bound w (add_event e w).
Proof. unfold within_bound, stored. simpl. lia. Qed.

Lemma quiet_within_bound w w' : quiet w w' → within_bound w w'.
Proof.
  intros (H & _). unfold within_bound, stored. rewrite H. lia.
Qed.

Ltac frame_with known :=
  repeat first
    [ known
    | apply preserves_bind; [typeclasses eauto | | intros ?]
    | apply preserves_try; [typeclasses eauto | |]
    | apply preserves_item; typeclasses eauto
    | apply preserves_get; typeclasses eauto
    | apply preserves_ret; typeclasses eauto
    | apply preserves_lift; typeclasses eauto
    | apply preserves_reader;
      [ typeclasses eauto
      | first [ apply clock_reads | apply os_name_is_reads
              | apply uname_sysname_reads | apply exists_history_file_reads
              | apply json_load_reads ] ]
    | apply emits_json_dump
    | apply same_history_emit
    | apply emits_emit; simpl; unfold is_local; simpl; tauto
    | match goal with |- preserves _ (if ?b then _ else _) => destruct b end
    | match goal with |- preserves _ (match ?x with _ => _ end) => destruct x end ].

Ltac frame := frame_with fail.

Ltac quiet_frame :=
  frame_with ltac:(first
    [ apply preserves_emit; apply quiet_add_event
    | apply preserves_smtp; apply quiet_add_event ]).

Lemma send_email_quiet config alert :
  preserves quiet (_send_email config alert).
Proof. unfold _send_email, print. quiet_frame. Qed.

Lemma system_notification_quiet alert :
  preserves quiet (_system_notification alert).
Proof. unfold _system_notification, print. quiet_frame. Qed.

Lemma topic_branch_quiet alert : preserves quiet (topic_branch alert).
Proof.
  unfold topic_branch, _handle_cpu_alert, _handle_memory_alert,
    _handle_disk_alert, print. quiet_frame.
Qed.

Lemma handle_info_quiet alert : preserves quiet (_handle_info alert).
Proof. unfold _handle_info, logging, print. quiet_frame. Qed.

(** *** Ending normally *)

Lemma returns_ret {A} (a : A) : returns (mret a : act A).
Proof. intros w. exists a. reflexivity. Qed.

Lemma returns_bind {A B} (m : act A) (k : A → act B) :
  returns m → (∀ a, returns (k a)) → returns (m ≫= k).
Proof.
  intros Hm Hk w. unfold mbind, act_bind.
  destruct (Hm w) as [a Ha]. destruct (m w) as [[a' | e] w']; simpl in Ha;
    [| discriminate].
  apply Hk.
Qed.

Lemma returns_emit e : returns (emit e).
Proof. intros w. exists (). reflexivity. Qed.

Lemma returns_item d key v : d !! key = Some v → returns (item d key).
Proof. intros H w. exists v. rewrite (item_Some _ _ _ _ H). reflexivity. Qed.

(** A handler for every exception that itself ends normally makes the
    whole [try] end normally. *)
Lemma returns_try {A} (body handler : act A) :
  returns handler → returns (try_except body any_exception handler).
Proof.
  intros Hh w. unfold try_except.
  destruct (body w) as [[a | e] w']; simpl.
  - exists a. reflexivity.
  - apply Hh.
Qed.

Lemma returns_unit {A} (m : act A) w :
  returns m → ∃ a w', m w = (Ok a, w').
Proof.
  intros H. destruct (H w) as [a Ha].
  destruct (m w) as [[a' | e] w']; simpl in Ha; [| discriminate].
  eauto.
Qed.

Lemma system_notification_returns alert :
  returns (_system_notification alert).
Proof.
  unfold _system_notification. apply returns_try. apply returns_emit.
Qed.

Lemma send_email_returns config alert :
  email_readable config → returns (_send_email config alert).
Proof.
  intros [d Hd]. unfold _send_email. rewrite Hd.
  apply returns_bind.
  - intros w. eexists. reflexivity.
  - intros enabled. destruct (negb (truthy enabled)).
    + apply returns_ret.
    + apply returns_try. apply returns_emit.
Qed.

(** *** Email disabled: nothing over the network, whatever the alert *)

Lemma handle_warning_emits alert :
  preserves (emits (print_or_log WARNING)) (_handle_warning alert).
Proof.
  unfold _handle_warning, _save_to_history, load_history, logging, print.
  frame_with ltac:(idtac; apply emits_emit; simpl; first [exact I | reflexivity]).
Qed.

Lemma print_or_log_local lvl e : print_or_log lvl e → is_local e.
Proof. destruct e; simpl; unfold is_local; simpl; tauto. Qed.

(** X9. With email delivery disabled, [execute] opens no SMTP session,
    whatever the alert: its severity, its keys and the types of its
    values do not matter, nor does the way [execute] ends. *)
Theorem execute_without_email config alert w :
  email_disabled config →
  emits is_local w (execute config alert w).2.
Proof.
  intros Hoff. unfold execute. apply (preserves_bind (emits is_local)).
  - unfold severity_branch.
    destruct (eq_str _ "critical"); [apply handle_critical_emits; exact Hoff |].
    destruct (eq_str _ "warning").
    { intros w0. eapply emits_weaken; [apply (print_or_log_local WARNING) |].
      apply handle_warning_emits. }
    destruct (eq_str _ "info").
    { intros w0. eapply emits_weaken; [apply info_emission_local |].
      apply handle_info_emits. }
    apply preserves_ret. typeclasses eauto.
  - intros _ w0. eapply emits_weaken; [apply is_print_local |].
    apply topic_branch_emits.
Qed.

Lemma execute_without_email_witness :
  emits is_local fresh_world (execute default_config critical_alert fresh_world).2.
Proof.
  apply (execute_without_email default_config critical_alert fresh_world).
  eexists. split; vm_compute; reflexivity.
Defined.

(** *** Running the handlers on an alert that has its keys *)

Lemma run_quiet {A} (m : act A) w :
  returns m → preserves quiet m → ∃ a w', m w = (Ok a, w') ∧ quiet w w'.
Proof.
  intros Hr Hq. destruct (returns_unit m w Hr) as (a & w' & H).
  exists a, w'. split; [exact H |]. specialize (Hq w). rewrite H in Hq. exact Hq.
Qed.

Lemma quiet_stored w w' : quiet w w' → stored w' = stored w.
Proof. intros (H & _). unfold stored. rewrite H. reflexivity. Qed.

Lemma handle_critical_steps config alert name value w :
  alert !! "name" = Some name → alert !! "current_value" = Some value →
  _handle_critical config alert w =
    (_send_email config alert ≫= λ _,
     _save_to_history alert ≫= λ _, _system_notification alert)
      (add_event (Log CRITICAL name value)
         (add_event (Print "   Current Value: {}" [value])
            (add_event (Print "CRITICAL ALERT: {}" [name]) w))).
Proof.
  intros Hn Hv. unfold _handle_critical, logging, print, emit.
  rewrite item_world, Hn. unfold mbind at 1, act_bind at 1.
  rewrite item_world, Hv. unfold mbind at 1, act_bind at 1.
  unfold mbind at 1, act_bind at 1.
  rewrite item_world, Hn. rewrite item_world, Hv. reflexivity.
Qed.

Lemma handle_warning_steps alert name value w :
  alert !! "name" = Some name → alert !! "current_value" = Some value →
  _handle_warning alert w =
    _save_to_history alert
      (add_event (Log WARNING name value)
         (add_event (Print "   Current Value: {}" [value])
            (add_event (Print "WARNING: {}" [name]) w))).
Proof.
  intros Hn Hv. unfold _handle_warning, logging, print, emit.
  rewrite item_world, Hn. unfold mbind at 1, act_bind at 1.
  rewrite item_world, Hv. unfold mbind at 1, act_bind at 1.
  unfold mbind at 1, act_bind at 1.
  rewrite item_world, Hn. rewrite item_world, Hv. reflexivity.
Qed.

(** The state one append leaves, in a world that may or may not be
    writable. *)
Lemma save_to_history_state alert w record :
  history_record (now w) alert = Some record →
  ∃ w', _save_to_history alert w = (Ok (), w')
    ∧ writable w' = writable w ∧ now w' = now w
    ∧ history_file w' =
        if writable w
        then Some (Json (last_n 1000 (stored w ++ [record])))
        else history_file w.
Proof.
  intros Hr. rewrite (save_to_history_run _ _ _ Hr).
  destruct (writable w) eqn:Hw; eexists; (split; [reflexivity |]);
    simpl; rewrite ?Hw; auto.
Qed.

Lemma topic_branch_state alert n w :
  alert !! "name" = Some (VStr n) →
  ∃ w', topic_branch alert w = (Ok (), w') ∧ quiet w w'.
Proof.
  intros Hn.
  pose proof (topic_branch_quiet alert w) as Hq.
  unfold topic_branch in *. rewrite Hn in *. simpl default in *.
  unfold mbind, act_bind, lift, contains in *.
  destruct (is_substring "CPU" n); [eexists; split; [reflexivity | exact Hq] |].
  destruct (is_substring "Memory" n);
    [eexists; split; [reflexivity | exact Hq] |].
  simpl in *.
  destruct (is_substring "RAM" n); [eexists; split; [reflexivity | exact Hq] |].
  destruct (is_substring "Disk" n); eexists; split; try reflexivity; exact Hq.
Qed.

Lemma eq_str_VStr s t : eq_str (VStr s) t = String.eqb s t.
Proof. reflexivity. Qed.

Lemma logged_cases s :
  (s = "critical" ∧ logged s = true) ∨ (s = "warning" ∧ logged s = true)
  ∨ (s = "info" ∧ logged s = false)
  ∨ (s ≠ "critical" ∧ s ≠ "warning" ∧ s ≠ "info" ∧ logged s = false).
Proof.
  unfold logged.
  destruct (String.eqb_spec s "critical") as [-> | H1]; [auto |].
  destruct (String.eqb_spec s "warning") as [-> | H2]; [auto |].
  destruct (String.eqb_spec s "info") as [-> | H3]; auto 10.
Qed.

(** [execute] on an alert with a string name, a string severity and a
    value, when the email settings can be read: it ends normally, keeps
    the clock and the write permission, and writes the history exactly
    when the severity is critical or warning and the file is writable. *)
Lemma execute_wellformed config alert n s v w :
  alert !! "name" = Some (VStr n) →
  alert !! "severity" = Some (VStr s) →
  alert !! "current_value" = Some v →
  email_readable config →
  ∃ w', execute config alert w = (Ok (), w')
    ∧ writable w' = writable w ∧ now w' = now w
    ∧ history_file w' =
        if logged s && writable w
        then Some (Json (last_n 1000
               (stored w ++ [record_at (now w) (VStr n) (VStr s) v])))
        else history_file w.
Proof.
  intros Hn Hs Hv Hmail.
  pose proof (history_record_fields (now w) alert _ _ _ Hn Hs Hv) as Hr.
  rewrite execute_unfold.
  destruct (logged_cases s) as [[-> Hl] | [[-> Hl] | [[-> Hl] | (H1 & H2 & H3 & Hl)]]];
    rewrite Hl; simpl andb.
  - (* critical *)
    assert (Hb : severity_branch config alert = _handle_critical config alert)
      by (unfold severity_branch; rewrite Hs; reflexivity).
    rewrite Hb, (handle_critical_steps _ _ _ _ _ Hn Hv).
    match goal with |- context [(_ ≫= _) ?w0] => set (w3 := w0) end.
    destruct (run_quiet (_send_email config alert) w3
                (send_email_returns _ _ Hmail) (send_email_quiet _ _))
      as ([] & w4 & Hsend & Hq4).
    rewrite (act_bind_ok _ _ _ _ _ Hsend).
    assert (Hq : quiet w w4)
      by (etransitivity; [| exact Hq4]; repeat split).
    destruct Hq as (Hh4 & Hw4 & Hn4).
    assert (Hr4 : history_record (now w4) alert
                  = Some (record_at (now w) (VStr n) (VStr "critical") v))
      by (rewrite Hn4; exact Hr).
    destruct (save_to_history_state _ _ _ Hr4) as (w5 & Hsave & Hw5 & Hn5 & Hh5).
    rewrite (act_bind_ok _ _ _ _ _ Hsave).
    destruct (run_quiet (_system_notification alert) w5
                (system_notification_returns _) (system_notification_quiet _))
      as ([] & w6 & Hsys & (Hh6 & Hw6 & Hn6)).
    rewrite Hsys.
    destruct (topic_branch_state alert n w6 Hn) as (w7 & Ht & (Hh7 & Hw7 & Hn7)).
    exists w7. split; [exact Ht |].
    split; [congruence |]. split; [congruence |].
    rewrite Hh7, Hh6, Hh5, Hw4.
    assert (Hst : stored w4 = stored w) by (unfold stored; rewrite Hh4; reflexivity).
    rewrite Hst. destruct (writable w); congruence.
  - (* warning *)
    assert (Hb : severity_branch config alert = _handle_warning alert)
      by (unfold severity_branch; rewrite Hs; reflexivity).
    rewrite Hb, (handle_warning_steps _ _ _ _ Hn Hv).
    match goal with |- context [_save_to_history alert ?w0] => set (w3 := w0) end.
    assert (Hr3 : history_record (now w3) alert
                  = Some (record_at (now w) (VStr n) (VStr "warning") v))
      by exact Hr.
    destruct (save_to_history_state _ _ _ Hr3) as (w5 & Hsave & Hw5 & Hn5 & Hh5).
    rewrite Hsave.
    destruct (topic_branch_state alert n w5 Hn) as (w7 & Ht & (Hh7 & Hw7 & Hn7)).
    exists w7. split; [exact Ht |].
    split; [rewrite Hw7, Hw5; reflexivity |].
    split; [rewrite Hn7, Hn5; reflexivity |].
    rewrite Hh7, Hh5. reflexivity.
  - (* info *)
    assert (Hd : default (VStr "info") (alert !! "severity") = VStr "info")
      by (rewrite Hs; reflexivity).
    rewrite (severity_branch_info _ _ Hd), (handle_info_run _ _ _ _ Hn Hv).
    match goal with |- context [topic_branch alert ?w0] => set (w3 := w0) end.
    destruct (topic_branch_state alert n w3 Hn) as (w7 & Ht & (Hh7 & Hw7 & Hn7)).
    exists w7. split; [exact Ht |]. repeat split; assumption.
  - (* any other severity *)
    rewrite (severity_branch_other config alert (VStr s) w Hs)
      by congruence.
    destruct (topic_branch_state alert n w Hn) as (w7 & Ht & (Hh7 & Hw7 & Hn7)).
    exists w7. split; [exact Ht |]. repeat split; assumption.
Qed.

(** X10. The alerts [check] builds are dispatched without an exception.
    The history file is absent, or is one that [json.load] reads as an
    array or rejects as not JSON (the states of [history_file]), and may
    be writable or not. On an alert made of a name, a severity and a
    value, with email settings that are absent or a dictionary,
    [execute] then ends normally, whatever the severity, the relay and
    the platform; it writes the history exactly when the severity is
    ["critical"] or ["warning"] and the file can be written. *)
Theorem execute_on_check_alert config n s v w :
  email_readable config →
  (execute config (make_alert n s v) w).1 = Ok ()
  ∧ history_file (execute config (make_alert n s v) w).2 =
      if logged s && writable w
      then Some (Json (last_n 1000
             (stored w ++ [record_at (now w) (VStr n) (VStr s) v])))
      else history_file w.
Proof.
  intros Hmail.
  destruct (execute_wellformed config (make_alert n s v) n s v w
              (make_alert_name _ _ _) (make_alert_severity _ _ _)
              (make_alert_value _ _ _) Hmail) as (w' & -> & _ & _ & Hh).
  split; [reflexivity | exact Hh].
Qed.

Lemma execute_on_check_alert_witness :
  (execute default_config (make_alert "Disk" "warning" (VInt 91)) fresh_world).1
    = Ok ()
  ∧ history_file
      (execute default_config (make_alert "Disk" "warning" (VInt 91))
         fresh_world).2 =
      if logged "warning" && writable fresh_world
      then Some (Json (last_n 1000
             (stored fresh_world ++
              [record_at (now fresh_world) (VStr "Disk") (VStr "warning")
                         (VInt 91)])))
      else history_file fresh_world.
Proof.
  apply (execute_on_check_alert default_config "Disk" "warning" (VInt 91)
           fresh_world).
  eexists. vm_compute. reflexivity.
Defined.

(** X11. A failing email does not stop the critical handler: with email
    settings that are a dictionary (enabled or not, complete or not) and
    a relay that answers or not, a critical alert with its keys is
    appended to a writable history, and [execute] ends normally. *)
Theorem execute_critical_email_not_fatal config alert n v w :
  alert !! "severity" = Some (VStr "critical") →
  alert !! "name" = Some (VStr n) →
  alert !! "current_value" = Some v →
  email_readable config →
  writable w = true →
  (execute config alert w).1 = Ok ()
  ∧ history_file (execute config alert w).2 =
      Some (Json (last_n 1000
        (stored w ++ [record_at (now w) (VStr n) (VStr "critical") v]))).
Proof.
  intros Hs Hn Hv Hmail Hw.
  destruct (execute_wellformed config alert n "critical" v w Hn Hs Hv Hmail)
    as (w' & -> & _ & _ & Hh).
  split; [reflexivity |]. simpl. rewrite Hh, Hw. reflexivity.
Qed.

Lemma execute_critical_email_not_fatal_witness :
  (execute mailing_config critical_alert offline_world).1 = Ok ()
  ∧ history_file (execute mailing_config critical_alert offline_world).2 =
      Some (Json (last_n 1000
        (stored offline_world ++
         [record_at (now offline_world) (VStr "Critical CPU Usage")
                    (VStr "critical") (VFloat f97_5)]))).
Proof.
  apply (execute_critical_email_not_fatal mailing_config critical_alert
           "Critical CPU Usage" (VFloat f97_5) offline_world).
  - vm_compute. reflexivity.
  - vm_compute. reflexivity.
  - vm_compute. reflexivity.
  - eexists. vm_compute. reflexivity.
  - reflexivity.
Defined.

(** X12. Email settings that are not a dictionary stop the critical
    handler: [_send_email] raises [AttributeError] outside its [try], so
    after the two console lines and the log record [execute] ends with
    that exception, and the alert is neither written to the history nor
    notified. *)
Theorem execute_critical_email_not_dict config alert name value setting w :
  alert !! "severity" = Some (VStr "critical") →
  alert !! "name" = Some name →
  alert !! "current_value" = Some value →
  config !! "email" = Some setting →
  (∀ d, setting ≠ VDict d) →
  execute config alert w =
    (Raise AttributeError,
     add_event (Log CRITICAL name value)
       (add_event (Print "   Current Value: {}" [value])
          (add_event (Print "CRITICAL ALERT: {}" [name]) w))).
Proof.
  intros Hs Hn Hv He Hd.
  assert (Hb : severity_branch config alert = _handle_critical config alert)
    by (unfold severity_branch; rewrite Hs; reflexivity).
  rewrite execute_unfold, Hb, (handle_critical_steps _ _ _ _ _ Hn Hv).
  unfold _send_email. rewrite He. simpl default.
  destruct setting; try reflexivity. exfalso. eapply Hd. reflexivity.
Qed.

Lemma execute_critical_email_not_dict_witness :
  execute broken_config critical_alert fresh_world =
    (Raise AttributeError,
     add_event (Log CRITICAL (VStr "Critical CPU Usage") (VFloat f97_5))
       (add_event (Print "   Current Value: {}" [VFloat f97_5])
          (add_event (Print "CRITICAL ALERT: {}" [VStr "Critical CPU Usage"])
             fresh_world))).
Proof.
  apply (execute_critical_email_not_dict broken_config critical_alert
           (VStr "Critical CPU Usage") (VFloat f97_5) (VStr "off") fresh_world).
  - vm_compute. reflexivity.
  - vm_compute. reflexivity.
  - vm_compute. reflexivity.
  - vm_compute. reflexivity.
  - discriminate.
Defined.

(** *** Warnings *)

Lemma topic_branch_emits_level lvl alert :
  preserves (emits (print_or_log lvl)) (topic_branch alert).
Proof.
  intros w. eapply emits_weaken; [| apply topic_branch_emits].
  intros e. destruct e; simpl; tauto.
Qed.

(** X13. An alert of severity ["warning"] reaches the console, the log
    at WARNING level and the history only: whatever the configuration
    (email enabled or not), [execute] opens no SMTP session and sends no
    desktop notification. And when the history file cannot be written,
    being absent where none can be created, or being one that
    [json.load] reads as an array or rejects as not JSON but that cannot
    be opened for writing (the states of [history_file] with [writable]
    false), the alert is still dispatched to the end, the failure being
    printed. *)
Theorem execute_warning config alert w :
  alert !! "severity" = Some (VStr "warning") →
  emits (print_or_log WARNING) w (execute config alert w).2
  ∧ (∀ n v, alert !! "name" = Some (VStr n) →
            alert !! "current_value" = Some v →
            writable w = false →
            (execute config alert w).1 = Ok ()
            ∧ history_file (execute config alert w).2 = history_file w
            ∧ Print "   Failed to save alert history: {}" []
                ∈ trace (execute config alert w).2).
Proof.
  intros Hs.
  assert (Hb : severity_branch config alert = _handle_warning alert)
    by (unfold severity_branch; rewrite Hs; reflexivity).
  split.
  - unfold execute. rewrite Hb.
    apply (preserves_bind (emits (print_or_log WARNING))).
    + apply handle_warning_emits.
    + intros _. apply topic_branch_emits_level.
  - intros n v Hn Hv Hw.
    pose proof (history_record_fields (now w) alert _ _ _ Hn Hs Hv) as Hr.
    rewrite execute_unfold, Hb, (handle_warning_steps _ _ _ _ Hn Hv).
    match goal with |- context [_save_to_history alert ?w0] =>
      rewrite (save_to_history_run alert w0 _ Hr) end.
    cbn [writable add_event]. rewrite Hw.
    match goal with |- context [topic_branch alert ?w0] => set (w4 := w0) end.
    pose proof (topic_branch_emits alert w4) as (new & Htr & _).
    destruct (topic_branch_state alert n w4 Hn) as (w7 & Ht & (Hh7 & _)).
    rewrite Ht in *. simpl in *.
    split; [reflexivity |]. split; [exact Hh7 |].
    rewrite Htr. apply elem_of_app. left.
    apply elem_of_app. right. apply list_elem_of_here.
Qed.

Lemma execute_warning_witness :
  emits (print_or_log WARNING) readonly_world
    (execute mailing_config warning_alert readonly_world).2
  ∧ (∀ n v, warning_alert !! "name" = Some (VStr n) →
            warning_alert !! "current_value" = Some v →
            writable readonly_world = false →
            (execute mailing_config warning_alert readonly_world).1 = Ok ()
            ∧ history_file
                (execute mailing_config warning_alert readonly_world).2
              = history_file readonly_world
            ∧ Print "   Failed to save alert history: {}" []
                ∈ trace (execute mailing_config warning_alert readonly_world).2).
Proof.
  apply (execute_warning mailing_config warning_alert readonly_world).
  vm_compute. reflexivity.
Defined.

(** *** The bound of the history *)

Lemma save_to_history_missing alert w :
  history_record (now w) alert = None → (_save_to_history alert w).2 = w.
Proof.
  unfold history_record, _save_to_history. intros Hr.
  rewrite (act_bind_ok _ _ _ _ _ (load_history_run w)).
  unfold clock. unfold mbind at 1, act_bind at 1.
  rewrite item_world.
  destruct (alert !! "name") as [name |]; [| reflexivity].
  rewrite item_world.
  destruct (alert !! "severity") as [sev |]; [| reflexivity].
  rewrite item_world.
  destruct (alert !! "current_value") as [value |]; [| reflexivity].
  discriminate Hr.
Qed.

Lemma save_to_history_within_bound alert :
  preserves within_bound (_save_to_history alert).
Proof.
  intros w. destruct (history_record (now w) alert) as [record |] eqn:Hr.
  - rewrite (save_to_history_run _ _ _ Hr). unfold within_bound.
    destruct (writable w); simpl.
    + rewrite stored_set_history_file, length_last_n. lia.
    + change (stored (add_event _ w)) with (stored w). lia.
  - rewrite (save_to_history_missing _ _ Hr). reflexivity.
Qed.

Ltac bound_frame :=
  frame_with ltac:(first
    [ apply save_to_history_within_bound
    | apply preserves_emit; apply within_bound_add_event
    | apply preserves_smtp; apply within_bound_add_event ]).

(** X14. [execute] keeps the history within its bound: whatever the
    alert, the configuration and the way it ends, the stored history
    afterwards has at most 1000 records, or at most as many as before
    when it was longer than that. *)
Theorem execute_within_bound config alert w :
  length (stored (execute config alert w).2) ≤ max 1000 (length (stored w)).
Proof.
  change (within_bound w (execute config alert w).2). revert w.
  change (preserves within_bound (execute config alert)).
  unfold execute, severity_branch, topic_branch, _handle_critical,
    _handle_warning, _handle_info, _handle_cpu_alert, _handle_memory_alert,
    _handle_disk_alert, _send_email, _system_notification, logging, print.
  bound_frame.
Qed.

(** *** A missing key *)

(** X15. An alert without a ["name"], of severity critical, warning or
    info (or without severity): the handler raises [KeyError] on the
    name before doing anything, so [execute] leaves the world exactly as
    it was: nothing printed, logged, sent or written. *)
Theorem execute_missing_name config alert w :
  alert !! "name" = None →
  default (VStr "info") (alert !! "severity")
    ∈ [VStr "critical"; VStr "warning"; VStr "info"] →
  execute config alert w = (Raise (KeyError "name"), w).
Proof.
  intros Hn Hs. rewrite execute_unfold. unfold severity_branch.
  rewrite !elem_of_cons, elem_of_nil in Hs.
  destruct Hs as [-> | [-> | [-> | []]]]; simpl.
  - unfold _handle_critical. rewrite item_world, Hn. reflexivity.
  - unfold _handle_warning. rewrite item_world, Hn. reflexivity.
  - unfold _handle_info. rewrite item_world, Hn. reflexivity.
Qed.

Lemma execute_missing_name_witness :
  execute mailing_config {[ "severity" := VStr "critical" ]} fresh_world
    = (Raise (KeyError "name"), fresh_world).
Proof.
  apply (execute_missing_name mailing_config
           {[ "severity" := VStr "critical" ]} fresh_world).
  - vm_compute. reflexivity.
  - vm_compute. apply list_elem_of_here.
Defined.

(** *** Writing and reading back *)

Lemma last_n_snoc {A} n (l : list A) x :
  0 < n → last_n 1 (last_n n (l ++ [x])) = [x].
Proof.
  intros Hn.
  assert (H : last_n 1 (l ++ [x]) = [x]).
  { unfold last_n. rewrite length_app. simpl.
    replace (length l + 1 - 1) with (length l) by lia.
    apply drop_app_length. }
  unfold last_n at 1. rewrite length_last_n.
  unfold last_n. rewrite drop_drop.
  rewrite length_app in *. simpl in *.
  replace (length l + 1 - n + (min (length l + 1) n - 1))
    with (length l) by lia.
  apply drop_app_length.
Qed.

(** X16. What [_save_to_history] writes, [get_alert_history] reads: after
    an append to a writable history, [get_alert_history(1)] returns the
    record just appended; and when the file was missing or was not JSON,
    the history then holds that record alone (an unreadable history is
    not kept). *)
Theorem save_then_get alert record w :
  writable w = true →
  history_record (now w) alert = Some record →
  (get_alert_history 1 (_save_to_history alert w).2).1 = Ok [record]
  ∧ (history_file w = None ∨ history_file w = Some Corrupt →
     (get_alert_history 0 (_save_to_history alert w).2).1 = Ok [record]).
Proof.
  intros Hw Hr. rewrite (save_to_history_run _ _ _ Hr), Hw.
  rewrite !get_alert_history_run. simpl.
  split.
  - rewrite (slice_from_last_n 1) by lia.
    change (Z.to_nat 1) with 1. rewrite last_n_snoc by lia. reflexivity.
  - intros [Hf | Hf]; unfold stored; rewrite Hf; reflexivity.
Qed.

Lemma save_then_get_witness :
  (get_alert_history 1 (_save_to_history warning_alert fresh_world).2).1
    = Ok [record_at (now fresh_world) (VStr "High Memory Usage")
                    (VStr "warning") (VFloat f97_5)]
  ∧ (history_file fresh_world = None ∨ history_file fresh_world = Some Corrupt →
     (get_alert_history 0 (_save_to_history warning_alert fresh_world).2).1
       = Ok [record_at (now fresh_world) (VStr "High Memory Usage")
                       (VStr "warning") (VFloat f97_5)]).
Proof.
  apply (save_then_get warning_alert _ fresh_world).
  - reflexivity.
  - vm_compute. reflexivity.
Defined.

(** X17. [get_alert_history] never raises, and what it returns depends on
    the sign of [limit]: the last [limit] records for a positive one, the
    whole history for zero, and for a negative one the history without
    its first [-limit] records; a history file that is missing or is not
    JSON gives the empty list. *)
Theorem get_alert_history_by_sign limit w :
  (get_alert_history limit w).1 =
    Ok (if (0 <? limit)%Z then last_n (Z.to_nat limit) (stored w)
        else if (limit =? 0)%Z then stored w
        else drop (Z.to_nat (- limit)) (stored w)).
Proof.
  rewrite get_alert_history_run. unfold stored.
  destruct (history_file w) as [[| history] |]; simpl.
  - destruct (0 <? limit)%Z; [reflexivity |].
    destruct (limit =? 0)%Z; [reflexivity |]. rewrite drop_nil. reflexivity.
  - destruct (0 <? limit)%Z eqn:Hpos.
    + apply Z.ltb_lt in Hpos.
      replace (limit =? 0)%Z with false by (symmetry; apply Z.eqb_neq; lia).
      simpl. rewrite slice_from_last_n by exact Hpos. reflexivity.
    + apply Z.ltb_ge in Hpos. destruct (limit =? 0)%Z eqn:Hz; [reflexivity |].
      apply Z.eqb_neq in Hz. simpl. f_equal. unfold slice_from.
      replace (- limit <? 0)%Z with false by (symmetry; apply Z.ltb_ge; lia).
      destruct (decide (Z.to_nat (- limit) ≤ length history)) as [Hle | Hgt].
      * f_equal. lia.
      * rewrite !drop_ge by lia. reflexivity.
  - destruct (0 <? limit)%Z; [reflexivity |].
    destruct (limit =? 0)%Z; [reflexivity |]. rewrite drop_nil. reflexivity.
Qed.

End ActionsMore.

(** ** The orchestrator *)

Section MainFacts.
Import Py Rules Actions Spec Startup Main Terms.

Lemma monitor_alert_made config n s v w :
  monitor_alert config (make_alert n s v) w =
    execute config (make_alert n s v)
      (add_event (Print "{icon} {}: {}" [VStr s; VStr n; v]) w).
Proof.
  unfold monitor_alert, severity_icon, print, emit.
  rewrite item_world, make_alert_severity. simpl hashable. cbv iota.
  unfold mbind at 1, act_bind at 1. unfold mret at 1, act_ret at 1.
  rewrite item_world, make_alert_name.
  rewrite item_world, make_alert_value. reflexivity.
Qed.

Lemma run_once_alert_made config n s v w :
  run_once_alert config (make_alert n s v) w =
    execute config (make_alert n s v)
      (add_event (Print "[{upper}] {}: {}" [VStr s; VStr n; v]) w).
Proof.
  unfold run_once_alert, upper, print, emit.
  rewrite item_world, make_alert_severity.
  unfold mbind at 1, act_bind at 1. unfold mret at 1, act_ret at 1.
  rewrite item_world, make_alert_name.
  rewrite item_world, make_alert_value. reflexivity.
Qed.

(** Dispatching the alerts of a run of rules, by a loop body that prints
    a line and calls [execute]. *)
Lemma for_each_dispatch config stats (body : alert → act ()) :
  email_readable config →
  (∀ n s v w, ∃ e, body (make_alert n s v) w
                   = execute config (make_alert n s v) (add_event e w)) →
  ∀ rs w, writable w = true → length (stored w) ≤ 1000 →
  ∃ w', for_each body (map (alert_of stats) rs) w = (Ok (), w')
    ∧ writable w' = true ∧ now w' = now w
    ∧ stored w' = last_n 1000
        (stored w ++ map (record_of (now w) stats)
                         (List.filter (λ r, logged (severity r)) rs)).
Proof.
  intros Hmail Hbody. induction rs as [| r rs IH]; intros w Hw Hlen.
  - exists w. simpl. rewrite app_nil_r, last_n_short by exact Hlen. auto.
  - cbn [map for_each].
    destruct (Hbody (name r) (severity r)
                (display (_get_nested_value stats (metric_path (condition r)))) w)
      as [e He].
    destruct (execute_wellformed config
                (make_alert (name r) (severity r)
                   (display (_get_nested_value stats (metric_path (condition r)))))
                (name r) (severity r) _ (add_event e w)
                (make_alert_name _ _ _) (make_alert_severity _ _ _)
                (make_alert_value _ _ _) Hmail)
      as (w1 & Hex & Hw1 & Hn1 & Hh1).
    cbn [writable now add_event] in Hw1, Hn1, Hh1.
    change (stored (add_event e w)) with (stored w) in Hh1.
    change (history_file (add_event e w)) with (history_file w) in Hh1.
    rewrite Hw in Hh1, Hw1. rewrite andb_true_r in Hh1.
    fold (alert_of stats r) in He, Hex.
    unfold mbind, act_bind. rewrite He, Hex.
    assert (Hst : stored w1 =
      if logged (severity r)
      then last_n 1000 (stored w ++ [record_of (now w) stats r])
      else stored w).
    { unfold stored at 1. rewrite Hh1.
      destruct (logged (severity r)); reflexivity. }
    destruct (IH w1 Hw1) as (w' & Hrun & Hw' & Hn' & Hst').
    { rewrite Hst. destruct (logged (severity r)); [| exact Hlen].
      rewrite length_last_n. lia. }
    exists w'. split; [exact Hrun |]. split; [exact Hw' |].
    split; [congruence |].
    rewrite Hst', Hst, Hn1. cbn [List.filter].
    destruct (logged (severity r)); [| reflexivity].
    rewrite last_n_app_last_n, <- app_assoc. reflexivity.
Qed.

Lemma check_alerts stats rules :
  Forall (evaluates stats) rules →
  check rules stats =
    Ok (map (alert_of stats) (List.filter (triggered stats) (map snd rules))).
Proof. intros H. unfold check. rewrite (check_loop_spec _ _ _ H). reflexivity. Qed.

Lemma monitor_iteration_run rules config verbose show_healthy
    iteration stats w :
  Forall (evaluates stats) rules →
  email_readable config →
  writable w = true →
  length (stored w) ≤ 1000 →
  ∃ w', monitor_iteration rules config verbose show_healthy iteration stats w
        = (Ok (), w')
    ∧ stored w' = last_n 1000 (stored w ++ logged_records (now w) stats rules).
Proof.
  intros Hall Hmail Hw Hlen. unfold monitor_iteration, logged_records.
  unfold clock. unfold mbind at 1, act_bind at 1.
  rewrite (check_alerts _ _ Hall). unfold lift.
  unfold mbind at 1, act_bind at 1.
  destruct (List.filter (triggered stats) (map snd rules)) as [| r rs] eqn:Hf.
  - simpl map. rewrite app_nil_r, last_n_short by exact Hlen.
    destruct (truthy show_healthy && truthy verbose);
      [destruct (iteration mod 10 =? 0)%Z |]; eexists; split; reflexivity.
  - change (map (alert_of stats) (r :: rs))
      with (alert_of stats r :: map (alert_of stats) rs).
    cbv iota.
    change (alert_of stats r :: map (alert_of stats) rs)
      with (map (alert_of stats) (r :: rs)).
    unfold print, emit. unfold mbind at 1, act_bind at 1.
    unfold mbind at 1, act_bind at 1.
    match goal with |- context [(for_each ?b ?l ≫= ?k) ?w0] =>
      destruct (for_each_dispatch config stats b Hmail
                  (λ n s v w, ex_intro _ _ (monitor_alert_made config n s v w))
                  (r :: rs) w0 Hw Hlen)
        as (w' & Hrun & Hw' & Hn' & Hst');
      rewrite (act_bind_ok _ _ _ _ _ Hrun)
    end.
    eexists. split; [reflexivity |]. exact Hst'.
Qed.

(** X18. One iteration of the monitor loop, end to end: when no rule
    raises, the email settings can be read, and the history is writable
    and within its bound, the iteration ends normally and the history
    then holds, after what it held, the records of the rules that fired
    with severity ["critical"] or ["warning"], in the order of the rule
    file, trimmed to the last 1000. *)
Theorem monitor_iteration_history rules config verbose show_healthy
    iteration stats w :
  Forall (evaluates stats) rules →
  email_readable config →
  writable w = true →
  length (stored w) ≤ 1000 →
  (monitor_iteration rules config verbose show_healthy iteration stats w).1
    = Ok ()
  ∧ stored
      (monitor_iteration rules config verbose show_healthy iteration stats w).2
    = last_n 1000 (stored w ++ logged_records (now w) stats rules).
Proof.
  intros Hall Hmail Hw Hlen.
  destruct (monitor_iteration_run rules config verbose show_healthy
              iteration stats w Hall Hmail Hw Hlen) as (w' & -> & Hst).
  split; [reflexivity | exact Hst].
Qed.
Lemma monitor_iteration_history_witness :
  (monitor_iteration default_rules default_config (VBool true) (VBool true)
     1 cpu_snapshot fresh_world).1 = Ok ()
  ∧ stored
      (monitor_iteration default_rules default_config (VBool true) (VBool true)
         1 cpu_snapshot fresh_world).2
    = last_n 1000
        (stored fresh_world
         ++ logged_records (now fresh_world) cpu_snapshot default_rules).
Proof.
  apply (monitor_iteration_history default_rules default_config
           (VBool true) (VBool true) 1 cpu_snapshot fresh_world).
  - repeat constructor; eexists; vm_compute; reflexivity.
  - eexists. vm_compute. reflexivity.
  - reflexivity.
  - vm_compute. lia.
Defined.

(** X19. An iteration on which nothing is dispatched. When [check]
    finds no alert, the iteration ends normally and prints at most the
    heartbeat line, which it prints exactly when both flags are true and
    the iteration number is a multiple of 10; when [check] raises, the
    iteration ends with that exception and the world is as it was. *)
Theorem monitor_iteration_no_alert rules config verbose show_healthy
    iteration stats w :
  (check rules stats = Ok [] →
     monitor_iteration rules config verbose show_healthy iteration stats w =
       (Ok (),
        if truthy show_healthy && truthy verbose
           && (iteration mod 10 =? 0)%Z
        then add_event (Print "[{}] System healthy (check #{})"
                              [VStr (now w); VInt iteration]) w
        else w))
  ∧ (∀ e, check rules stats = Raise e →
          monitor_iteration rules config verbose show_healthy iteration stats w
            = (Raise e, w)).
Proof.
  split.
  - intros Hc. unfold monitor_iteration, clock, lift.
    unfold mbind at 1, act_bind at 1. rewrite Hc.
    unfold mbind at 1, act_bind at 1.
    destruct (truthy show_healthy && truthy verbose);
      [destruct (iteration mod 10 =? 0)%Z |]; reflexivity.
  - intros e Hc. unfold monitor_iteration, clock, lift.
    unfold mbind at 1, act_bind at 1. rewrite Hc. reflexivity.
Qed.

Lemma monitor_iteration_no_alert_witness :
  monitor_iteration cpu_rules default_config (VBool true) (VBool true)
    20 (VDict ∅) fresh_world =
    (Ok (),
     if truthy (VBool true) && truthy (VBool true) && (20 mod 10 =? 0)%Z
     then add_event (Print "[{}] System healthy (check #{})"
                           [VStr (now fresh_world); VInt 20]) fresh_world
     else fresh_world).
Proof.
  apply (proj1 (monitor_iteration_no_alert cpu_rules default_config
                  (VBool true) (VBool true) 20 (VDict ∅) fresh_world)).
  vm_compute. reflexivity.
Defined.

(** *** A single check *)

Lemma run_once_run rules config stats shown w :
  Forall (evaluates stats) rules →
  email_readable config →
  writable w = true →
  length (stored w) ≤ 1000 →
  ∃ w', run_once rules config stats shown w
        = (Ok (), add_event (Print "{pprint}" [shown])
                    (add_event (Print "Current System Stats:" []) w'))
    ∧ stored w' = last_n 1000 (stored w ++ logged_records (now w) stats rules).
Proof.
  intros Hall Hmail Hw Hlen. unfold run_once, logged_records, print, emit.
  unfold mbind at 1, act_bind at 1. unfold mbind at 1, act_bind at 1.
  rewrite (check_alerts _ _ Hall). unfold lift.
  unfold mbind at 1, act_bind at 1.
  destruct (List.filter (triggered stats) (map snd rules)) as [| r rs] eqn:Hf.
  - simpl map. rewrite app_nil_r, last_n_short by exact Hlen.
    eexists. split; reflexivity.
  - change (map (alert_of stats) (r :: rs))
      with (alert_of stats r :: map (alert_of stats) rs).
    cbv iota.
    change (alert_of stats r :: map (alert_of stats) rs)
      with (map (alert_of stats) (r :: rs)).
    unfold mbind at 1, act_bind at 1.
    unfold mbind at 1, act_bind at 1.
    match goal with |- context [(for_each ?b ?l ≫= ?k) ?w0] =>
      destruct (for_each_dispatch config stats b Hmail
                  (λ n s v w, ex_intro _ _ (run_once_alert_made config n s v w))
                  (r :: rs) w0 Hw Hlen)
        as (w' & Hrun & Hw' & Hn' & Hst');
      rewrite (act_bind_ok _ _ _ _ _ Hrun)
    end.
    eexists. split; [reflexivity |]. exact Hst'.
Qed.

(** X20. [run_once] leaves in the history what one iteration of the
    monitor leaves on the same snapshot, and ends by printing the
    statistics; but when [check] raises it stops after its first line:
    nothing is dispatched and the statistics are not shown. *)
Theorem run_once_history rules config stats shown w :
  (Forall (evaluates stats) rules → email_readable config →
   writable w = true → length (stored w) ≤ 1000 →
     (run_once rules config stats shown w).1 = Ok ()
     ∧ stored (run_once rules config stats shown w).2
       = stored (monitor_iteration rules config (VBool true) (VBool true) 1
                   stats w).2
     ∧ last (trace (run_once rules config stats shown w).2)
       = Some (Print "{pprint}" [shown]))
  ∧ (∀ e, check rules stats = Raise e →
          run_once rules config stats shown w =
            (Raise e, add_event (Print "Running single check..." []) w)).
Proof.
  split.
  - intros Hall Hmail Hw Hlen.
    destruct (run_once_run rules config stats shown w Hall Hmail Hw Hlen)
      as (w' & -> & Hst).
    destruct (monitor_iteration_run rules config (VBool true) (VBool true) 1
                stats w Hall Hmail Hw Hlen) as (w'' & -> & Hst'').
    split; [reflexivity |]. split.
    + simpl. change (stored (add_event _ (add_event _ w'))) with (stored w').
      congruence.
    + simpl. rewrite last_snoc. reflexivity.
  - intros e Hc. unfold run_once, print, emit, lift.
    unfold mbind at 1, act_bind at 1. unfold mbind at 1, act_bind at 1.
    rewrite Hc. reflexivity.
Qed.

Lemma run_once_history_witness :
  (run_once default_rules default_config cpu_snapshot cpu_snapshot
     fresh_world).1 = Ok ()
  ∧ stored (run_once default_rules default_config cpu_snapshot cpu_snapshot
              fresh_world).2
    = stored (monitor_iteration default_rules default_config (VBool true)
                (VBool true) 1 cpu_snapshot fresh_world).2
  ∧ last (trace (run_once default_rules default_config cpu_snapshot
                   cpu_snapshot fresh_world).2)
    = Some (Print "{pprint}" [cpu_snapshot]).
Proof.
  apply (proj1 (run_once_history default_rules default_config cpu_snapshot
                  cpu_snapshot fresh_world)).
  - repeat constructor; eexists; vm_compute; reflexivity.
  - eexists. vm_compute. reflexivity.
  - reflexivity.
  - vm_compute. lia.
Defined.

(** *** Showing the history *)

Lemma show_record_entry e w :
  show_record (entry_record e) w = (Ok (), add_event (entry_line e) w).
Proof. destruct e as [[[stamp name] severity] value]. reflexivity. Qed.

Lemma for_each_show_record es : ∀ w,
  for_each show_record (map entry_record es) w
    = (Ok (), add_events (map entry_line es) w).
Proof.
  induction es as [| e es IH]; intros w; [reflexivity |].
  cbn [map for_each]. unfold mbind, act_bind.
  rewrite show_record_entry, IH. reflexivity.
Qed.

Lemma last_n_map {A B} (f : A → B) n l :
  last_n n (map f l) = map f (last_n n l).
Proof. unfold last_n. rewrite length_map, skipn_map. reflexivity. Qed.

(** X21. [show_history] on a history this program wrote (records with a
    time, a string name, a string severity and a value), for a positive
    limit: it ends normally, having printed its header and then one line
    for each of the last [limit] records, oldest first, or the line "No
    alerts in history." when there is none. And a stored value that is
    not a dictionary stops the listing with [TypeError]. *)
Theorem show_history_lines limit w :
  (∀ entries,
     history_file w = Some (Json (map entry_record entries)) →
     (0 < limit)%Z →
     show_history limit w =
       (Ok (),
        add_events
          (Print "Recent Alert History (last {}):" [VInt limit]
           :: match entries with
              | [] => [Print "No alerts in history." []]
              | _ => map entry_line (last_n (Z.to_nat limit) entries)
              end) w))
  ∧ (∀ v history,
       history_file w = Some (Json (v :: history)) →
       (∀ d, v ≠ VDict d) →
       show_history 0 w =
         (Raise TypeError,
          add_event (Print "Recent Alert History (last {}):" [VInt 0]) w)).
Proof.
  split.
  - intros entries Hf Hpos. unfold show_history, print, emit.
    unfold mbind at 1, act_bind at 1. unfold mbind at 1, act_bind at 1.
    rewrite get_alert_history_run. cbn [history_file add_event]. rewrite Hf.
    replace (limit =? 0)%Z with false by (symmetry; apply Z.eqb_neq; lia).
    cbn [negb]. rewrite slice_from_last_n by exact Hpos.
    rewrite last_n_map.
    destruct entries as [| e entries]; [reflexivity |].
    destruct (last_n (Z.to_nat limit) (e :: entries)) as [| e' es'] eqn:Hl.
    { exfalso. apply (f_equal length) in Hl. rewrite length_last_n in Hl.
      cbn [length] in Hl. lia. }
    cbn [map]. cbv iota.
    change (entry_record e' :: map entry_record es')
      with (map entry_record (e' :: es')).
    rewrite for_each_show_record. reflexivity.
  - intros v history Hf Hv. unfold show_history, print, emit.
    unfold mbind at 1, act_bind at 1. unfold mbind at 1, act_bind at 1.
    rewrite get_alert_history_run. cbn [history_file add_event]. rewrite Hf.
    simpl. unfold show_record, subscript.
    destruct v; try reflexivity. exfalso. eapply Hv. reflexivity.
Qed.

Lemma show_history_lines_witness :
  show_history 20 (history_world (map entry_record two_entries)) =
    (Ok (),
     add_events
       (Print "Recent Alert History (last {}):" [VInt 20]
        :: match two_entries with
           | [] => [Print "No alerts in history." []]
           | _ => map entry_line (last_n (Z.to_nat 20) two_entries)
           end) (history_world (map entry_record two_entries))).
Proof.
  apply (proj1 (show_history_lines 20
                  (history_world (map entry_record two_entries)))
           two_entries).
  - reflexivity.
  - lia.
Defined.

End MainFacts.
